(** * Frontage, subdivision and electrical-node decision logic

    A shallow embedding of the decision logic of the cadastral mapping
    application: [cadastral-features.js] (frontage classification, the
    endpoint pre-filter, the selection of a parcel or a sub-polygon),
    [subdivision-layer.js] (click typing, line finalisation, polygon
    cutting, completion), [electrical-infrastructure.js] (the node registry
    and the graphics of the electrical layer) and [map-setup.js] (the click
    handler).

    The GIS engine is a black box in the source; here it is a record of
    functions ([GeometryEngine]) that every modelled function receives as an
    argument, exactly as the JavaScript passes [geometryEngine] around.
    Distances are rationals: every finite double is a rational number and the
    source only compares distances, so the comparisons are exact.

    The first part of the file holds the definitions, module by module; the
    second part holds the statements and their proofs. *)

From Stdlib Require Import QArith Qminmax Qabs ZArith String Ascii List Bool Lia.
From Stdlib Require Import DecimalString.
From stdpp Require Import base option list gmap strings.

Open Scope string_scope.

(* ===================================================================== *)
(** * Part I: definitions                                                 *)
(* ===================================================================== *)

(** ** JavaScript values and the few built-ins the source relies on *)

Module Js.

(** The values that occur as attribute values and identifiers.  Numbers are
    the integer-valued ones (object ids, usage codes, indices) plus [NaN]. *)
Inductive jsval : Type :=
| JUndefined
| JNull
| JBool (b : bool)
| JNum (n : Z)
| JNaN
| JStr (s : string).

(** [ToBoolean]. *)
Definition truthy (v : jsval) : bool :=
  match v with
  | JUndefined | JNull | JNaN => false
  | JBool b => b
  | JNum n => negb (n =? 0)%Z
  | JStr s => negb (String.eqb s "")
  end.

(** [a || b]. *)
Definition or (a b : jsval) : jsval := if truthy a then a else b.

(** [a === b]. *)
Definition strict_eq (a b : jsval) : bool :=
  match a, b with
  | JUndefined, JUndefined => true
  | JNull, JNull => true
  | JBool x, JBool y => Bool.eqb x y
  | JNum x, JNum y => (x =? y)%Z
  | JStr x, JStr y => String.eqb x y
  | _, _ => false
  end.

(** SameValueZero, the comparison of [Array.prototype.includes]:
    like [===] except that [NaN] equals itself. *)
Definition same_value_zero (a b : jsval) : bool :=
  match a, b with
  | JNaN, JNaN => true
  | _, _ => strict_eq a b
  end.

(** [arr.includes(v)]. *)
Definition includes (arr : list jsval) (v : jsval) : bool :=
  existsb (same_value_zero v) arr.

(** Number of elements of [arr] that [includes] would match with [v]. *)
Definition occurrences (arr : list jsval) (v : jsval) : nat :=
  length (List.filter (same_value_zero v) arr).

Definition string_of_Z (n : Z) : string :=
  NilEmpty.string_of_int (Z.to_int n).

(** [String(v)], also what a template literal does to [v]. *)
Definition to_string (v : jsval) : string :=
  match v with
  | JUndefined => "undefined"
  | JNull => "null"
  | JBool true => "true"
  | JBool false => "false"
  | JNum n => string_of_Z n
  | JNaN => "NaN"
  | JStr s => s
  end.

(** [v.toString()]: a [TypeError] on [undefined] and [null]. *)
Definition toString (v : jsval) : option string :=
  match v with
  | JUndefined | JNull => None
  | _ => Some (to_string v)
  end.

(** Element conversion of [Array.prototype.join]. *)
Definition join_item (v : jsval) : string :=
  match v with
  | JUndefined | JNull => ""
  | _ => to_string v
  end.

(** [strs.join(sep)]. *)
Fixpoint join_strings (sep : string) (strs : list string) : string :=
  match strs with
  | [] => ""
  | [s] => s
  | s :: rest => s ++ sep ++ join_strings sep rest
  end.

(** [arr.join(', ')]. *)
Definition join (arr : list jsval) : string :=
  join_strings ", " (map join_item arr).

Definition is_comma_space (c d : ascii) : bool :=
  Ascii.eqb c ","%char && Ascii.eqb d " "%char.

(** [s.split(', ')], the piece under construction being [cur]. *)
Fixpoint split_from (cur s : string) : list string :=
  match s with
  | EmptyString => [cur]
  | String c rest =>
      match rest with
      | String d rest' =>
          if is_comma_space c d then cur :: split_from "" rest'
          else split_from (cur ++ String c "") rest
      | EmptyString => split_from (cur ++ String c "") rest
      end
  end.

Definition split (s : string) : list string := split_from "" s.


(** [\s] on the ASCII range. *)
Definition is_space (c : ascii) : bool :=
  let n := nat_of_ascii c in
  (n =? 32)%nat || ((9 <=? n)%nat && (n <=? 13)%nat).

(** [s.replace(/\s+/g, ' ')]; [in_ws] tells that the previous character
    belonged to a whitespace run already replaced. *)
Fixpoint collapse_ws (in_ws : bool) (s : string) : string :=
  match s with
  | EmptyString => EmptyString
  | String c rest =>
      if is_space c then
        if in_ws then collapse_ws true rest
        else String " "%char (collapse_ws true rest)
      else String c (collapse_ws false rest)
  end.

(** A JavaScript object used as a bag of named attributes. *)
Abbreviation Attributes := (gmap string jsval).

(** [obj.key]: [undefined] when the property is absent. *)
Definition get (obj : Attributes) (key : string) : jsval :=
  default JUndefined (obj !! key).

End Js.

(** Outcome of a call that may raise. *)
Inductive Result (A : Type) : Type :=
| Ok (a : A)
| Throw (message : string).
Arguments Ok {A} a.
Arguments Throw {A} message.

Definition bind {A B : Type} (r : Result A) (k : A -> Result B) : Result B :=
  match r with
  | Ok a => k a
  | Throw m => Throw m
  end.

Declare Scope result_scope.
Delimit Scope result_scope with result.
Notation "x <- r ;; k" := (bind r (fun x => k))
  (at level 100, r at next level, right associativity) : result_scope.

(** ** Geometry values and the geometry engine *)

Module Geo.

Record SpatialReference := { wkid : Z }.

(** A vertex [[x, y]] of a path or ring. *)
Definition Coord : Type := Q * Q.

(** [{ type: "point", x, y, spatialReference }]. *)
Record Point := mkPoint {
  x : Q;
  y : Q;
  pointSR : SpatialReference
}.

(** [{ type: "polyline", paths, spatialReference }]. *)
Record Polyline := mkPolyline {
  paths : list (list Coord);
  polylineSR : SpatialReference
}.

(** [{ type: "polygon", rings, spatialReference }]. *)
Record Polygon := mkPolygon {
  rings : list (list Coord);
  polygonSR : SpatialReference
}.

Inductive Geometry :=
| GPoint (p : Point)
| GPolyline (l : Polyline)
| GPolygon (g : Polygon).

(** [geometry.spatialReference]. *)
Definition spatialReference (g : Geometry) : SpatialReference :=
  match g with
  | GPoint p => pointSR p
  | GPolyline l => polylineSR l
  | GPolygon g => polygonSR g
  end.

(** Result of [nearestCoordinate]. *)
Record NearestPointResult := {
  coordinate : Point;
  nearestDistance : Q
}.

(** The operations of the host engine the source calls.  Distances are in
    metres (the source always passes ["meters"]).  [cut] may raise, return
    [null] ([None]) or return an array; [nearestCoordinate] may return
    [null], which the source guards against; [centroid] is the polygon's
    [centroid] property and [sqrt] is [Math.sqrt]. *)
Record GeometryEngine := {
  distance : Geometry -> Geometry -> Q;
  contains : Geometry -> Geometry -> bool;
  buffer : Geometry -> Q -> Geometry;
  union : list Geometry -> Geometry;
  project : Geometry -> SpatialReference -> Geometry;
  projectPoint : Point -> SpatialReference -> Point;
  nearestCoordinate : Polyline -> Point -> option NearestPointResult;
  cut : Polygon -> Polyline -> Result (option (list Polygon));
  centroid : Geometry -> Point;
  sqrt : Q -> Q
}.

(** [a < b] on distances. *)
Definition Qlt_bool (a b : Q) : bool := negb (Qle_bool b a).

(** [d < shortest] where [shortest] starts as [Infinity] ([None]). *)
Definition closer (d : Q) (shortest : option Q) : bool :=
  match shortest with
  | None => true
  | Some m => Qlt_bool d m
  end.

(** A feature of the boundary-line layer, or a frontage segment derived
    from one: [{ geometry, attributes }]. *)
Record LineFeature := {
  geometry : Polyline;
  attributes : Js.Attributes
}.

(** A parcel (or sub-polygon) graphic: [{ geometry, attributes }]. *)
Record PolygonGraphic := {
  polygonGeometry : Polygon;
  polygonAttributes : Js.Attributes
}.

Definition pointOf (c : Coord) (sr : SpatialReference) : Point :=
  {| x := fst c; y := snd c; pointSR := sr |}.

End Geo.

(** ** cadastral-features.js *)

Module Cadastral.
Import Js Geo.

(** metres - max distance from polygon boundary *)
Definition ENDPOINT_DISTANCE_THRESHOLD : Q := 3 # 2.

Inductive UsageLabel := FRONTAGE | INTERIOR | OTHER.

(** The label computed inside the [validLines] filter. *)
Definition usageLabel (lineFeature : LineFeature) : UsageLabel :=
  let usageCode := get (attributes lineFeature) "usage_code" in
  let renderNormal := get (attributes lineFeature) "render_normal" in
  if strict_eq usageCode (JNum 1) || strict_eq usageCode (JStr "1-Y")
     || strict_eq usageCode (JStr "1-N") || strict_eq renderNormal (JStr "1-Y")
     || strict_eq renderNormal (JStr "1-N")
  then FRONTAGE
  else if strict_eq usageCode (JNum 2) then INTERIOR
  else OTHER.

(** The predicate of the [frontageLines] filter. *)
Definition isFrontageLine (line : LineFeature) : bool :=
  let usageCode := get (attributes line) "usage_code" in
  let renderNormal := get (attributes line) "render_normal" in
  strict_eq usageCode (JNum 1) || strict_eq usageCode (JStr "1-Y")
  || strict_eq usageCode (JStr "1-N") || strict_eq renderNormal (JStr "1-Y")
  || strict_eq renderNormal (JStr "1-N").

(** The predicate of the [validLines] filter: the first path must have at
    least two vertices, and both of its end vertices must lie within the
    threshold of the polygon geometry. *)
Definition isValidLine (ge : GeometryEngine) (polygonGeometry : Polygon)
    (lineFeature : LineFeature) : bool :=
  match head (paths (geometry lineFeature)) with
  | None => false
  | Some path =>
      match path with
      | startPoint :: _ :: _ =>
          let endPoint := List.last path startPoint in
          let sr := polylineSR (geometry lineFeature) in
          let startDistance :=
            distance ge (GPoint (pointOf startPoint sr)) (GPolygon polygonGeometry) in
          let endDistance :=
            distance ge (GPoint (pointOf endPoint sr)) (GPolygon polygonGeometry) in
          Qle_bool startDistance ENDPOINT_DISTANCE_THRESHOLD
          && Qle_bool endDistance ENDPOINT_DISTANCE_THRESHOLD
      | _ => false
      end
  end.

Definition validLines (ge : GeometryEngine) (polygonGeometry : Polygon)
    (features : list LineFeature) : list LineFeature :=
  List.filter (isValidLine ge polygonGeometry) features.

(** [validLines.filter(...)]: frontage is looked for among valid lines only. *)
Definition frontageLines (ge : GeometryEngine) (polygonGeometry : Polygon)
    (features : list LineFeature) : list LineFeature :=
  List.filter isFrontageLine (validLines ge polygonGeometry features).

(** [attributes.objectid || attributes.__OBJECTID || attributes.OBJECTID]. *)
Definition polygonId (attributes : Attributes) : jsval :=
  Js.or (Js.or (get attributes "objectid") (get attributes "__OBJECTID"))
        (get attributes "OBJECTID").

End Cadastral.

(** ** subdivision-layer.js *)

Module Subdivision.
Import Js Geo.

(** ['boundary' | 'midpoint']. *)
Inductive PointType := boundary | midpoint.

Definition pointTypeName (t : PointType) : string :=
  match t with
  | boundary => "boundary"
  | midpoint => "midpoint"
  end.

Definition isBoundary (t : PointType) : bool :=
  match t with
  | boundary => true
  | midpoint => false
  end.

(** An element of [drawingPoints]. *)
Record PointData := {
  point : Point;
  type : PointType;
  snapped : bool;
  originalClick : Point
}.

(** A finished subdivision line: the graphic whose attributes carry
    [subdivisionLine: true].  The [createdAt] time stamp is left out. *)
Record LineGraphic := {
  lineGeometry : Polyline;
  subdivisionType : string;
  pointCount : nat
}.

(** What [completeSubdivision] records for each sub-polygon. *)
Record SubPolygonResult := {
  subGeometry : Polygon;
  frontageLines : list LineFeature;
  index : nat;
  originalPolygonId : jsval
}.

(** The graphics held by [appState.layers.subdivision]. *)
Inductive LayerGraphic :=
| PointMarker (geometry : Point) (markerType : PointType)
| SubdivisionLine (line : LineGraphic)
| SubPolygonGraphic (geometry : Polygon) (subIndex : nat)
    (frontageCount : nat) (objectid : string) (originalId : jsval).

(** An edge of a polygon ring: [{ start, end }]. *)
Record Edge := {
  edgeStart : Coord;
  edgeEnd : Coord
}.

Section WithWorld.

(** Everything the application holds outside this module and outside the
    fields of [appState] named below (the node registry, the electrical
    layer, ...). *)
Context {W : Type}.

(** The part of [appState] the module reads or writes. *)
Record AppState := {
  subdivisionLayer : list LayerGraphic;
  currentFrontageLines : option (list LineFeature);
  subPolygonData : option (list SubPolygonResult);
  world : W
}.

(** The module variables, [appState], and the messages shown to the user
    with [alert], oldest first. *)
Record State := {
  subdivisionMode : bool;
  currentPolygonGeometry : option Polygon;
  currentPolygonGraphic : option PolygonGraphic;
  drawingPoints : list PointData;
  appState : AppState;
  alerts : list string
}.

Definition withLayer (layer : list LayerGraphic) (st : State) : State :=
  {| subdivisionMode := subdivisionMode st;
     currentPolygonGeometry := currentPolygonGeometry st;
     currentPolygonGraphic := currentPolygonGraphic st;
     drawingPoints := drawingPoints st;
     appState := {| subdivisionLayer := layer;
               currentFrontageLines := currentFrontageLines (appState st);
               subPolygonData := subPolygonData (appState st);
               world := world (appState st) |};
     alerts := alerts st |}.

Definition withDrawingPoints (pts : list PointData) (st : State) : State :=
  {| subdivisionMode := subdivisionMode st;
     currentPolygonGeometry := currentPolygonGeometry st;
     currentPolygonGraphic := currentPolygonGraphic st;
     drawingPoints := pts;
     appState := appState st;
     alerts := alerts st |}.

Definition withApp (a : AppState) (st : State) : State :=
  {| subdivisionMode := subdivisionMode st;
     currentPolygonGeometry := currentPolygonGeometry st;
     currentPolygonGraphic := currentPolygonGraphic st;
     drawingPoints := drawingPoints st;
     appState := a;
     alerts := alerts st |}.

(** [alert(message)]. *)
Definition alert (message : string) (st : State) : State :=
  {| subdivisionMode := subdivisionMode st;
     currentPolygonGeometry := currentPolygonGeometry st;
     currentPolygonGraphic := currentPolygonGraphic st;
     drawingPoints := drawingPoints st;
     appState := appState st;
     alerts := alerts st ++ [message] |}.

Definition enableSubdivisionMode (polygonGeometry : Polygon)
    (polygonGraphic : option PolygonGraphic) (st : State) : State :=
  {| subdivisionMode := true;
     currentPolygonGeometry := Some polygonGeometry;
     currentPolygonGraphic := polygonGraphic;
     drawingPoints := [];
     appState := appState st;
     alerts := alerts st |}.

Definition disableSubdivisionMode (st : State) : State :=
  {| subdivisionMode := false;
     currentPolygonGeometry := None;
     currentPolygonGraphic := None;
     drawingPoints := [];
     appState := appState st;
     alerts := alerts st |}.

Definition isSubdivisionModeActive (st : State) : bool := subdivisionMode st.

(** The loop of [findNearestEdgePoint] over the edges of the outer ring,
    with its two running variables. *)
Fixpoint nearestOnRing (ge : GeometryEngine) (clickPoint : Point)
    (sr : SpatialReference) (ring : list Coord)
    (nearestPoint : option Point) (minDistance : option Q) : option Point :=
  match ring with
  | edgeStart :: rest =>
      match rest with
      | edgeEnd :: _ =>
          let edgeGeometry :=
            {| paths := [[edgeStart; edgeEnd]]; polylineSR := sr |} in
          match nearestCoordinate ge edgeGeometry clickPoint with
          | Some nearestOnEdge =>
              if closer (nearestDistance nearestOnEdge) minDistance
              then nearestOnRing ge clickPoint sr rest
                     (Some (coordinate nearestOnEdge))
                     (Some (nearestDistance nearestOnEdge))
              else nearestOnRing ge clickPoint sr rest nearestPoint minDistance
          | None => nearestOnRing ge clickPoint sr rest nearestPoint minDistance
          end
      | [] => nearestPoint
      end
  | [] => nearestPoint
  end.

(** [findNearestEdgePoint]: [null] ([None]) when no edge yields a
    coordinate; a [TypeError] when the polygon has no ring. *)
Definition findNearestEdgePoint (ge : GeometryEngine) (clickPoint : Point)
    (polygonGeometry : Polygon) : Result (option Point) :=
  match head (rings polygonGeometry) with
  | None => Throw "TypeError"
  | Some ring =>
      Ok (nearestOnRing ge clickPoint (polygonSR polygonGeometry) ring None None)
  end.

(** The if-chain of [handleSubdivisionClick] that types a click, given the
    number of points already accumulated. *)
Definition typeClick (pointsSoFar : nat) (isInside : bool) (distanceToEdge : Q)
    (nearestEdgePoint pointGeometry mapPoint : Point) : PointData :=
  if (pointsSoFar =? 0)%nat then
    {| point := nearestEdgePoint; type := boundary; snapped := true;
       originalClick := mapPoint |}
  else if negb isInside then
    {| point := nearestEdgePoint; type := boundary; snapped := true;
       originalClick := mapPoint |}
  else if Qlt_bool distanceToEdge 5%Q then
    {| point := nearestEdgePoint; type := boundary; snapped := true;
       originalClick := mapPoint |}
  else
    {| point := pointGeometry; type := midpoint; snapped := false;
       originalClick := mapPoint |}.

(** [types.slice(1, -1)]. *)
Definition inner {A : Type} (l : list A) : list A := removelast (tl l).

(** The description computed by [drawSubdivisionLine]. *)
Definition describeTypes (types : list PointType) : string :=
  if forallb isBoundary types then "boundary to boundary"
  else collapse_ws false
         ("boundary to "
          ++ join_strings " to " (map pointTypeName (inner types))
          ++ " to boundary").

(** The graphic [drawSubdivisionLine] builds from the accumulated points;
    [sr] is the spatial reference of the first of them. *)
Definition lineGraphicOf (sr : SpatialReference) (pts : list PointData)
    : LineGraphic :=
  {| lineGeometry :=
       {| paths := [map (fun pd => (x (point pd), y (point pd))) pts];
          polylineSR := sr |};
     subdivisionType := describeTypes (map type pts);
     pointCount := length pts |}.

Definition drawSubdivisionLine (st : State) : State :=
  match drawingPoints st with
  | first :: _ :: _ =>
      let lineGraphic := lineGraphicOf (pointSR (point first)) (drawingPoints st) in
      withDrawingPoints []
        (withLayer (subdivisionLayer (appState st) ++ [SubdivisionLine lineGraphic]) st)
  | _ => st
  end.

(** [handleSubdivisionClick]: the new state and the returned flag.  When
    no nearest edge point exists the engine is handed [null] and the
    call is taken to raise before anything is written. *)
Definition handleSubdivisionClick (ge : GeometryEngine) (mapPoint : Point)
    (st : State) : Result (State * bool) :=
  match currentPolygonGeometry st with
  | None => Ok (st, false)
  | Some polygon =>
      if negb (subdivisionMode st) then Ok (st, false)
      else
        let pointGeometry :=
          {| x := x mapPoint; y := y mapPoint; pointSR := pointSR mapPoint |} in
        let isInside := contains ge (GPolygon polygon) (GPoint pointGeometry) in
        (nearest <- findNearestEdgePoint ge mapPoint polygon ;;
         match nearest with
         | None => Throw "TypeError"
         | Some nearestEdgePoint =>
             let distanceToEdge :=
               distance ge (GPoint pointGeometry) (GPoint nearestEdgePoint) in
             let pointData :=
               typeClick (length (drawingPoints st)) isInside distanceToEdge
                 nearestEdgePoint pointGeometry mapPoint in
             let st1 := withDrawingPoints (drawingPoints st ++ [pointData]) st in
             let st2 :=
               withLayer (subdivisionLayer (appState st1)
                          ++ [PointMarker (point pointData) (type pointData)]) st1 in
             if (2 <=? length (drawingPoints st2))%nat && isBoundary (type pointData)
             then Ok (drawSubdivisionLine st2, true)
             else Ok (st2, true)
         end)%result
  end.

(** A run of clicks, stopping at the first one that raises. *)
Fixpoint handleClicks (ge : GeometryEngine) (clicks : list Point) (st : State)
    : Result State :=
  match clicks with
  | [] => Ok st
  | c :: rest =>
      (r <- handleSubdivisionClick ge c st ;; handleClicks ge rest (fst r))%result
  end.

Definition clearSubdivisions (st : State) : State :=
  withDrawingPoints [] (withLayer [] st).

(** [getSubdivisionLines]: the line graphics of the layer, in layer order. *)
Definition getSubdivisionLines (st : State) : list LineGraphic :=
  omap (fun g => match g with SubdivisionLine l => Some l | _ => None end)
       (subdivisionLayer (appState st)).

(** One pass of the inner loop body of the cutting step: the pieces that
    replace [poly]. *)
Definition cutPolygon (ge : GeometryEngine) (subdivisionLine : LineGraphic)
    (poly : Polygon) : Result (list Polygon) :=
  (cutResult <- cut ge poly (lineGeometry subdivisionLine) ;;
   match cutResult with
   | Some (piece :: pieces) => Ok (piece :: pieces)
   | _ => Ok [poly]
   end)%result.

(** The inner loop: every polygon of the working list is cut by one line. *)
Fixpoint cutByLine (ge : GeometryEngine) (subdivisionLine : LineGraphic)
    (subPolygons : list Polygon) : Result (list Polygon) :=
  match subPolygons with
  | [] => Ok []
  | poly :: rest =>
      (pieces <- cutPolygon ge subdivisionLine poly ;;
       others <- cutByLine ge subdivisionLine rest ;;
       Ok (pieces ++ others)%list)%result
  end.

(** The outer loop: the lines are applied one after the other. *)
Fixpoint cutPolygons (ge : GeometryEngine) (subdivisionLines : list LineGraphic)
    (subPolygons : list Polygon) : Result (list Polygon) :=
  match subdivisionLines with
  | [] => Ok subPolygons
  | subdivisionLine :: rest =>
      (newSubPolygons <- cutByLine ge subdivisionLine subPolygons ;;
       cutPolygons ge rest newSubPolygons)%result
  end.

(** [extractPolygonEdges] on the outer ring. *)
Fixpoint edgesOfRing (ring : list Coord) : list Edge :=
  match ring with
  | a :: rest =>
      match rest with
      | b :: _ => {| edgeStart := a; edgeEnd := b |} :: edgesOfRing rest
      | [] => []
      end
  | [] => []
  end.

Definition extractPolygonEdges (polygon : Polygon) : Result (list Edge) :=
  match head (rings polygon) with
  | None => Throw "TypeError"
  | Some ring => Ok (edgesOfRing ring)
  end.

(** [edgeMatchesFrontageLine]: 2 metre tolerance on both end points. *)
Definition edgeMatchesFrontageLine (edge : Edge) (frontageLineGeometry : Polyline)
    (ge : GeometryEngine) (sr : SpatialReference) : bool :=
  let distanceThreshold : Q := 2%Q in
  let edgeStartPoint :=
    {| x := fst (edgeStart edge); y := snd (edgeStart edge); pointSR := sr |} in
  let edgeEndPoint :=
    {| x := fst (edgeEnd edge); y := snd (edgeEnd edge); pointSR := sr |} in
  let startDistance :=
    distance ge (GPoint edgeStartPoint) (GPolyline frontageLineGeometry) in
  let endDistance :=
    distance ge (GPoint edgeEndPoint) (GPolyline frontageLineGeometry) in
  Qle_bool startDistance distanceThreshold && Qle_bool endDistance distanceThreshold.

(** The frontage segment an edge inherits: that of the first parent line
    it matches, if any. *)
Definition inheritedSegment (ge : GeometryEngine) (sr : SpatialReference)
    (parentFrontageLines : list LineFeature) (edge : Edge) : option LineFeature :=
  match List.find (fun parentFrontage =>
                     edgeMatchesFrontageLine edge (geometry parentFrontage) ge sr)
                  parentFrontageLines with
  | Some parentFrontage =>
      Some {| geometry := {| paths := [[edgeStart edge; edgeEnd edge]];
                             polylineSR := sr |};
              attributes := attributes parentFrontage |}
  | None => None
  end.

Definition calculateSubPolygonFrontage (subPolygon : Polygon)
    (ge : GeometryEngine) (parentFrontageLines : list LineFeature)
    : Result (list LineFeature) :=
  match parentFrontageLines with
  | [] => Ok []
  | _ =>
      (subPolygonEdges <- extractPolygonEdges subPolygon ;;
       Ok (omap (inheritedSegment ge (polygonSR subPolygon) parentFrontageLines)
                subPolygonEdges))%result
  end.

(** [objectid || __OBJECTID || OBJECTID || 'Unknown']. *)
Definition originalPolygonIdOf (graphic : PolygonGraphic) : jsval :=
  Js.or (Js.or (Js.or (get (polygonAttributes graphic) "objectid")
                      (get (polygonAttributes graphic) "__OBJECTID"))
               (get (polygonAttributes graphic) "OBJECTID"))
        (JStr "Unknown").

(** The second loop of [completeSubdivision], from index [i] on. *)
Fixpoint subPolygonResultsFrom (ge : GeometryEngine) (graphic : PolygonGraphic)
    (parentFrontageLines : list LineFeature) (i : nat)
    (subPolygons : list Polygon) : Result (list SubPolygonResult) :=
  match subPolygons with
  | [] => Ok []
  | subPoly :: rest =>
      (subFrontageLines <- calculateSubPolygonFrontage subPoly ge parentFrontageLines ;;
       others <- subPolygonResultsFrom ge graphic parentFrontageLines (S i) rest ;;
       Ok ({| subGeometry := subPoly;
              frontageLines := subFrontageLines;
              index := i;
              originalPolygonId := originalPolygonIdOf graphic |} :: others))%result
  end.

(** [`SUB_${originalPolygonId}_${index}`]. *)
Definition subPolygonId (originalId : jsval) (index : nat) : string :=
  "SUB_" ++ to_string originalId ++ "_" ++ string_of_Z (Z.of_nat index).

Definition subPolygonGraphicOf (position : nat) (result : SubPolygonResult)
    : LayerGraphic :=
  SubPolygonGraphic (subGeometry result) position
    (length (frontageLines result))
    (subPolygonId (originalPolygonId result) position)
    (originalPolygonId result).

(** [renderSubPolygons]: the results are stored in [appState] first, then
    one graphic per result is added to the layer. *)
Definition renderSubPolygons (subPolygonResults : list SubPolygonResult)
    (a : AppState) : AppState :=
  {| subdivisionLayer :=
       subdivisionLayer a ++ imap subPolygonGraphicOf subPolygonResults;
     currentFrontageLines := currentFrontageLines a;
     subPolygonData := Some subPolygonResults;
     world := world a |}.

(** The temporary graphic [generateElectricalNodesForSubPolygons] hands to
    the node assignment for [result]. *)
Definition subPolygonGraphic (result : SubPolygonResult) : PolygonGraphic :=
  {| polygonGeometry := subGeometry result;
     polygonAttributes :=
       {[ "objectid" := JStr (subPolygonId (originalPolygonId result) (index result));
          "subPolygon" := JBool true;
          "subIndex" := JNum (Z.of_nat (index result));
          "originalPolygonId" := originalPolygonId result ]} |}.

(** [result.frontageLines.length > 0]: sub-polygons without frontage are
    skipped by the node generation. *)
Definition hasFrontage (result : SubPolygonResult) : bool :=
  (0 <? length (frontageLines result))%nat.

(** The two parts of the electrical module the completion relies on.

    [startNodeAssignment] is one call
    [generateOrFindConnectionNode(subPolygonGraphic, result.frontageLines,
    modules)] as [generateElectricalNodesForSubPolygons] makes it.  The
    function is [async] and the call is not awaited: it hands back a promise
    at once, and whatever the assignment raises stays in that promise.  The
    assignment works on the node registry and on the electrical layer,
    which belong to the world; it writes no field of [appState] named above.

    [updateNodeVisualizationForSubPolygons] is awaited: what it leaves in
    [appState] and whether it raises is what [completeSubdivision] sees of
    it. *)
Record Collaborators := {
  startNodeAssignment : PolygonGraphic -> list LineFeature -> W -> W;
  updateNodeVisualizationForSubPolygons :
    list SubPolygonResult -> AppState -> AppState * option string
}.

Definition withWorld (w : W) (a : AppState) : AppState :=
  {| subdivisionLayer := subdivisionLayer a;
     currentFrontageLines := currentFrontageLines a;
     subPolygonData := subPolygonData a;
     world := w |}.

(** [generateElectricalNodesForSubPolygons]: an assignment is started for
    every sub-polygon that has frontage, in the order of the results.  None
    of them is awaited, so the loop runs to its end and the function
    returns whatever the assignments do.  (The module it imports first is
    the one the page has loaded already.) *)
Definition generateElectricalNodesForSubPolygons (steps : Collaborators)
    (subPolygonResults : list SubPolygonResult) (a : AppState) : AppState :=
  fold_left
    (fun a result =>
       if hasFrontage result
       then withWorld (startNodeAssignment steps (subPolygonGraphic result)
                         (frontageLines result) (world a)) a
       else a)
    subPolygonResults a.

(** The [catch] block. *)
Definition reportFailure (message : string) (st : State) : State :=
  alert ("Subdivision failed: " ++ message) st.

Definition completeSubdivision (ge : GeometryEngine) (steps : Collaborators)
    (st : State) : State :=
  match currentPolygonGeometry st, currentPolygonGraphic st with
  | Some polygon, Some graphic =>
      let subdivisionLines := getSubdivisionLines st in
      match subdivisionLines with
      | [] => st
      | _ =>
          let parentFrontageLines :=
            default [] (currentFrontageLines (appState st)) in
          match cutPolygons ge subdivisionLines [polygon] with
          | Throw message => reportFailure message st
          | Ok subPolygons =>
              match subPolygonResultsFrom ge graphic parentFrontageLines 0
                      subPolygons with
              | Throw message => reportFailure message st
              | Ok subPolygonResults =>
                  let rendered := renderSubPolygons subPolygonResults (appState st) in
                  let a :=
                    generateElectricalNodesForSubPolygons steps subPolygonResults
                      rendered in
                  match updateNodeVisualizationForSubPolygons steps
                          subPolygonResults a with
                  | (a', Some message) =>
                      reportFailure message (withApp a' st)
                  | (a', None) =>
                      disableSubdivisionMode
                        (alert ("Subdivision complete! Created "
                                ++ string_of_Z (Z.of_nat (length subPolygons))
                                ++ " sub-polygons.")
                               (withApp a' st))
                  end
              end
          end
      end
  | _, _ => st
  end.

End WithWorld.

Arguments AppState W : clear implicits.
Arguments State W : clear implicits.
Arguments Collaborators W : clear implicits.

(** *** Vocabulary of the statements *)

(** The edge taken in the other direction. *)
Definition reversed (edge : Edge) : Edge :=
  {| edgeStart := edgeEnd edge; edgeEnd := edgeStart edge |}.




(** The visualisation step leaves the sub-polygon data and the subdivision
    layer as it finds them (it works on the node registry, on the electrical
    layer and on the cached frontage lines). *)
Definition keepSubPolygons {W : Type} (steps : Collaborators W) : Prop :=
  forall results a,
    let a2 := fst (updateNodeVisualizationForSubPolygons steps results a) in
    subPolygonData a2 = subPolygonData a
    /\ subdivisionLayer a2 = subdivisionLayer a.

(** The steps of [completeSubdivision] that can raise.  Node generation is
    not one of them: it starts the assignments and returns. *)
Inductive Stage := Cutting | FrontagePropagation | Visualization.

(** [raises ge steps st stage message]: started in [st], the completion
    reaches [stage] and an exception with [message] is raised there. *)
Inductive raises {W : Type} (ge : GeometryEngine) (steps : Collaborators W)
    (st : State W) : Stage -> string -> Prop :=
| raises_cutting polygon message :
    currentPolygonGeometry st = Some polygon ->
    cutPolygons ge (getSubdivisionLines st) [polygon] = Throw message ->
    raises ge steps st Cutting message
| raises_propagation polygon graphic subPolygons message :
    currentPolygonGeometry st = Some polygon ->
    currentPolygonGraphic st = Some graphic ->
    cutPolygons ge (getSubdivisionLines st) [polygon] = Ok subPolygons ->
    subPolygonResultsFrom ge graphic
      (default [] (currentFrontageLines (appState st))) 0 subPolygons
    = Throw message ->
    raises ge steps st FrontagePropagation message
| raises_visualization polygon graphic subPolygons results a' message :
    currentPolygonGeometry st = Some polygon ->
    currentPolygonGraphic st = Some graphic ->
    cutPolygons ge (getSubdivisionLines st) [polygon] = Ok subPolygons ->
    subPolygonResultsFrom ge graphic
      (default [] (currentFrontageLines (appState st))) 0 subPolygons
    = Ok results ->
    updateNodeVisualizationForSubPolygons steps results
      (generateElectricalNodesForSubPolygons steps results
         (renderSubPolygons results (appState st)))
    = (a', Some message) ->
    raises ge steps st Visualization message.

Definition beforeRendering (stage : Stage) : bool :=
  match stage with
  | Cutting | FrontagePropagation => true
  | Visualization => false
  end.

(** The message of the final [alert] of a successful completion. *)
Definition completeMessage (count : nat) : string :=
  "Subdivision complete! Created " ++ string_of_Z (Z.of_nat count)
  ++ " sub-polygons.".

(** The idle state of the module, as [disableSubdivisionMode] leaves it. *)
Definition idle {W : Type} (st : State W) : Prop :=
  subdivisionMode st = false
  /\ currentPolygonGeometry st = None
  /\ drawingPoints st = [].

End Subdivision.

(** ** electrical-infrastructure.js *)

Module Electrical.
Import Js Geo.

(** metres - buffer distance from frontage for node sharing *)
Definition SHARING_THRESHOLD : Q := 30.

(** metres - distance to place node inside property from frontage edge *)
Definition INSET_DISTANCE : Q := 10.

Definition WEB_MERCATOR : SpatialReference := {| wkid := 102100 |}.

(** ["pillar" | "service_point" | "potential_service_point"]. *)
Inductive NodeType := pillar | service_point | potential_service_point.

(** ['left' | 'right']. *)
Inductive Side := leftSide | rightSide.

(** A node object.  [propertyCentroids] is absent until a centroid is first
    stored, and its keys are the parcel identifiers converted to strings, as
    property keys are.  [isPillar] is absent, hence falsy, on nodes the
    application creates.  The display-only fields ([latitude], [longitude],
    [createdAt], [connectionLines]) are left out. *)
Record ElectricalNode := {
  nodeId : jsval;
  nodeType : NodeType;
  position : Point;
  properties : list jsval;
  side : option Side;
  isPotential : bool;
  isPillar : bool;
  propertyCentroids : option (gmap string Point)
}.

(** The graphics of [appState.layers.electrical], by the attributes the
    module filters on: node markers ([electricalNode]), text labels
    ([distanceLabel]) and connection lines ([connectionLine]). *)
Inductive ElectricalGraphic :=
| NodeGraphic (graphicNodeId : jsval) (graphicProperties : string)
    (graphicIsPotential : bool) (isNearby : bool)
| DistanceLabel (labelNodeId : jsval)
| ConnectionLine (lineNodeId : jsval) (propertyId : jsval).

(** The module state.  Node objects live in [heap] and are referred to by
    their index there, so that a node returned to a caller, a node held in
    the [electricalNodes] array and a node updated in place are the same
    object exactly when the indices agree.  [electricalLayer] is [None] when
    [appState.layers.electrical] is not set. *)
Record Registry := {
  heap : list ElectricalNode;
  electricalNodes : list nat;
  electricalLayer : option (list ElectricalGraphic)
}.

(** A feature of the pillar inventory layer. *)
Record PillarFeature := {
  pick_id : jsval;
  pillarGeometry : Point
}.

(** [appState.layers.pillars]: absent, or a layer whose [queryFeatures]
    resolves to features or rejects. *)
Definition PillarsLayer : Type := option (Geometry -> Result (list PillarFeature)).

(** [{ pos, label }]. *)
Record LabelledPosition := {
  pos : Point;
  label : string
}.

Definition withNodes (refs : list nat) (r : Registry) : Registry :=
  {| heap := heap r; electricalNodes := refs; electricalLayer := electricalLayer r |}.

Definition withGraphics (graphics : list ElectricalGraphic) (r : Registry) : Registry :=
  {| heap := heap r; electricalNodes := electricalNodes r;
     electricalLayer := Some graphics |}.

(** In-place update of the node object [ref]. *)
Definition modify (f : ElectricalNode -> ElectricalNode) (ref : nat) (r : Registry)
    : Registry :=
  {| heap := alter f ref (heap r); electricalNodes := electricalNodes r;
     electricalLayer := electricalLayer r |}.

(** [electricalNodes.push(node)] for a freshly created object: the object is
    allocated and its reference appended. *)
Definition pushNew (node : ElectricalNode) (r : Registry) : Registry * nat :=
  ({| heap := heap r ++ [node];
      electricalNodes := electricalNodes r ++ [length (heap r)];
      electricalLayer := electricalLayer r |},
   length (heap r)).

Definition ensureWebMercator (polygonGeometry : Geometry) (ge : GeometryEngine)
    : Geometry :=
  if (wkid (spatialReference polygonGeometry) =? 102100)%Z then polygonGeometry
  else project ge polygonGeometry WEB_MERCATOR.

(** [getConvertedFrontageEndpoints]; a [TypeError] comes out of a feature
    without a first path or with an empty one. *)
Definition getConvertedFrontageEndpoints (frontageFeature : LineFeature)
    (ge : GeometryEngine) : Result (Coord * Coord) :=
  match head (paths (geometry frontageFeature)) with
  | None => Throw "TypeError"
  | Some frontagePath =>
      match frontagePath with
      | [] => Throw "TypeError"
      | startPoint :: _ =>
          let endPoint := List.last frontagePath startPoint in
          let sr := polylineSR (geometry frontageFeature) in
          if negb (wkid sr =? 102100)%Z then
            let startPointGeom := projectPoint ge (pointOf startPoint sr) WEB_MERCATOR in
            let endPointGeom := projectPoint ge (pointOf endPoint sr) WEB_MERCATOR in
            Ok ((x startPointGeom, y startPointGeom), (x endPointGeom, y endPointGeom))
          else Ok (startPoint, endPoint)
      end
  end.

(** [calculateNodePosition]: the edge point moved 10 m along the normal of
    the frontage, on whichever side falls inside the polygon.  The arithmetic
    is exact here; rounding, and the division by a zero length, are not
    modelled. *)
Definition calculateNodePosition (startPoint endPoint : Coord)
    (polygonGeometry : Geometry) (side : Side) (ge : GeometryEngine) : Point :=
  let edgePoint := match side with leftSide => startPoint | rightSide => endPoint end in
  let sr := spatialReference polygonGeometry in
  let edgePointGeom := pointOf edgePoint sr in
  let dx := (fst endPoint - fst startPoint)%Q in
  let dy := (snd endPoint - snd startPoint)%Q in
  let length := sqrt ge (dx * dx + dy * dy)%Q in
  let perpX := (- dy / length)%Q in
  let perpY := (dx / length)%Q in
  let testPoint1 :=
    {| x := (fst edgePoint + perpX * INSET_DISTANCE)%Q;
       y := (snd edgePoint + perpY * INSET_DISTANCE)%Q;
       pointSR := sr |} in
  let testPoint2 :=
    {| x := (fst edgePoint - perpX * INSET_DISTANCE)%Q;
       y := (snd edgePoint - perpY * INSET_DISTANCE)%Q;
       pointSR := sr |} in
  let isInside1 := contains ge polygonGeometry (GPoint testPoint1) in
  let isInside2 := contains ge polygonGeometry (GPoint testPoint2) in
  if isInside1 then testPoint1
  else if isInside2 then testPoint2
  else edgePointGeom.

Definition calculatePotentialNodePositions (frontageLines : list LineFeature)
    (workingPolygonGeometry : Geometry) (ge : GeometryEngine)
    : Result (list LabelledPosition) :=
  match frontageLines with
  | [] => Throw "TypeError"
  | firstFrontage :: _ =>
      let lastFrontage := List.last frontageLines firstFrontage in
      (firstEndpoints <- getConvertedFrontageEndpoints firstFrontage ge ;;
       lastEndpoints <- getConvertedFrontageEndpoints lastFrontage ge ;;
       Ok [ {| pos := calculateNodePosition (fst firstEndpoints) (snd firstEndpoints)
                        workingPolygonGeometry leftSide ge;
               label := "first-left" |};
            {| pos := calculateNodePosition (fst firstEndpoints) (snd firstEndpoints)
                        workingPolygonGeometry rightSide ge;
               label := "first-right" |};
            {| pos := calculateNodePosition (fst lastEndpoints) (snd lastEndpoints)
                        workingPolygonGeometry leftSide ge;
               label := "last-left" |};
            {| pos := calculateNodePosition (fst lastEndpoints) (snd lastEndpoints)
                        workingPolygonGeometry rightSide ge;
               label := "last-right" |} ])%result
  end.

(** [createElectricalNode].  [stamp] stands for the text
    [`${Date.now()}_${Math.random()...}`] the call generates. *)
Definition createElectricalNode (position : Point) (polygonId : jsval) (side : Side)
    (stamp : string) (isPotential : bool) : ElectricalNode :=
  {| nodeId := JStr ((if isPotential then "POTENTIAL_" else "NODE_") ++ stamp);
     nodeType := if isPotential then potential_service_point else service_point;
     position := position;
     properties := [polygonId];
     side := Some side;
     isPotential := isPotential;
     isPillar := false;
     propertyCentroids := None |}.

(** The attributes [renderElectricalNode] gives to the marker of a node. *)
Definition nodeGraphicOf (node : ElectricalNode) (isNearby : bool) : ElectricalGraphic :=
  NodeGraphic (nodeId node) (join (properties node)) (isPotential node) isNearby.

(** [unionFrontageLines]: [null] for no lines. *)
Definition unionFrontageLines (frontageLines : list LineFeature) (ge : GeometryEngine)
    : option Geometry :=
  let toMercator (line : LineFeature) : Geometry :=
    if negb (wkid (polylineSR (geometry line)) =? 102100)%Z
    then project ge (GPolyline (geometry line)) WEB_MERCATOR
    else GPolyline (geometry line) in
  match frontageLines with
  | [] => None
  | firstLine :: others =>
      Some (fold_left (fun frontageUnion line => union ge [frontageUnion; toMercator line])
                      others (toMercator firstLine))
  end.

(** State of the search for a node to share: a node that already serves the
    parcel ends the search at once; otherwise the best candidate so far and
    its distance ([None] for [Infinity]) are carried along. *)
Inductive Search :=
| Found (node : nat)
| Candidate (bestNode : option nat) (shortestDistance : option Q).

(** Step 3 of [findNearbyConnectionNode]: the loop over the nodes in memory. *)
Fixpoint scanMemory (ge : GeometryEngine) (r : Registry)
    (frontageBuffer frontageUnion : Geometry) (currentPolygonId : jsval)
    (nodes : list nat) (bestNode : option nat) (shortestDistance : option Q)
    : Search :=
  match nodes with
  | [] => Candidate bestNode shortestDistance
  | ref :: rest =>
      match heap r !! ref with
      | None =>
          scanMemory ge r frontageBuffer frontageUnion currentPolygonId rest
            bestNode shortestDistance
      | Some node =>
          if isPotential node then
            scanMemory ge r frontageBuffer frontageUnion currentPolygonId rest
              bestNode shortestDistance
          else if includes (properties node) currentPolygonId then Found ref
          else if contains ge frontageBuffer (GPoint (position node)) then
            let distance := distance ge (GPoint (position node)) frontageUnion in
            if closer distance shortestDistance
            then scanMemory ge r frontageBuffer frontageUnion currentPolygonId rest
                   (Some ref) (Some distance)
            else scanMemory ge r frontageBuffer frontageUnion currentPolygonId rest
                   bestNode shortestDistance
          else
            scanMemory ge r frontageBuffer frontageUnion currentPolygonId rest
              bestNode shortestDistance
      end
  end.

(** [electricalNodes.find(n => n.id === pickId)]. *)
Definition findById (r : Registry) (pickId : jsval) : option nat :=
  List.find (fun ref => match heap r !! ref with
                        | Some n => strict_eq (nodeId n) pickId
                        | None => false
                        end)
            (electricalNodes r).

(** The node entry created for a pillar seen for the first time. *)
Definition newPillarNode (pillarFeature : PillarFeature) : ElectricalNode :=
  {| nodeId := pick_id pillarFeature;
     nodeType := pillar;
     position := pillarGeometry pillarFeature;
     properties := [];
     side := None;
     isPotential := false;
     isPillar := true;
     propertyCentroids := None |}.

(** Step 4: the loop over the pillars returned by the query. *)
Fixpoint scanPillars (ge : GeometryEngine) (frontageUnion : Geometry)
    (currentPolygonId : jsval) (features : list PillarFeature) (r : Registry)
    (bestNode : option nat) (shortestDistance : option Q) : Registry * Search :=
  match features with
  | [] => (r, Candidate bestNode shortestDistance)
  | pillarFeature :: rest =>
      let pickId := pick_id pillarFeature in
      match findById r pickId with
      | Some existingPillar =>
          match heap r !! existingPillar with
          | None => scanPillars ge frontageUnion currentPolygonId rest r
                      bestNode shortestDistance
          | Some node =>
              if includes (properties node) currentPolygonId
              then (r, Found existingPillar)
              else
                let distance := distance ge (GPoint (position node)) frontageUnion in
                if closer distance shortestDistance
                then scanPillars ge frontageUnion currentPolygonId rest r
                       (Some existingPillar) (Some distance)
                else scanPillars ge frontageUnion currentPolygonId rest r
                       bestNode shortestDistance
          end
      | None =>
          let '(r1, newPillar) := pushNew (newPillarNode pillarFeature) r in
          let distance :=
            distance ge (GPoint (pillarGeometry pillarFeature)) frontageUnion in
          if closer distance shortestDistance
          then scanPillars ge frontageUnion currentPolygonId rest r1
                 (Some newPillar) (Some distance)
          else scanPillars ge frontageUnion currentPolygonId rest r1
                 bestNode shortestDistance
      end
  end.

(** [bestNode.properties.push(currentPolygonId)]. *)
Definition addProperty (polygonId : jsval) (node : ElectricalNode) : ElectricalNode :=
  {| nodeId := nodeId node;
     nodeType := nodeType node;
     position := position node;
     properties := properties node ++ [polygonId];
     side := side node;
     isPotential := isPotential node;
     isPillar := isPillar node;
     propertyCentroids := propertyCentroids node |}.

(** The pillar query of step 4; a rejected query is caught and logged. *)
Definition queryPillars (ge : GeometryEngine) (pillarsLayer : PillarsLayer)
    (frontageBuffer frontageUnion : Geometry) (currentPolygonId : jsval)
    (r : Registry) (bestNode : option nat) (shortestDistance : option Q)
    : Registry * Search :=
  match pillarsLayer with
  | None => (r, Candidate bestNode shortestDistance)
  | Some queryFeatures =>
      match queryFeatures frontageBuffer with
      | Throw _ => (r, Candidate bestNode shortestDistance)
      | Ok features =>
          scanPillars ge frontageUnion currentPolygonId features r
            bestNode shortestDistance
      end
  end.

Definition findNearbyConnectionNode (ge : GeometryEngine) (pillarsLayer : PillarsLayer)
    (frontageLines : list LineFeature) (polygonGeometry : Geometry)
    (currentPolygonId : jsval) (r : Registry) : Registry * option nat :=
  match unionFrontageLines frontageLines ge with
  | None => (r, None)
  | Some frontageUnion =>
      let frontageBuffer := buffer ge frontageUnion SHARING_THRESHOLD in
      match scanMemory ge r frontageBuffer frontageUnion currentPolygonId
              (electricalNodes r) None None with
      | Found node => (r, Some node)
      | Candidate bestNode shortestDistance =>
          match queryPillars ge pillarsLayer frontageBuffer frontageUnion
                  currentPolygonId r bestNode shortestDistance with
          | (r1, Found node) => (r1, Some node)
          | (r1, Candidate (Some bestNode) _) =>
              match heap r1 !! bestNode with
              | Some node =>
                  if includes (properties node) currentPolygonId
                  then (r1, Some bestNode)
                  else (modify (addProperty currentPolygonId) bestNode r1, Some bestNode)
              | None => (r1, Some bestNode)
              end
          | (r1, Candidate None _) => (r1, None)
          end
      end
  end.

Definition isPotentialFor (polygonId : jsval) (node : ElectricalNode) : bool :=
  isPotential node && includes (properties node) polygonId.

(** The predicate of the filter applied to [electricalNodes]. *)
Definition keptByRemoval (r : Registry) (polygonId : jsval) (ref : nat) : bool :=
  match heap r !! ref with
  | Some node => negb (isPotentialFor polygonId node)
  | None => true
  end.

Definition isPotentialGraphic (graphic : ElectricalGraphic) : bool :=
  match graphic with
  | NodeGraphic _ _ potential _ => potential
  | _ => false
  end.

(** The predicate given to [removeElectricalGraphics], once
    [polygonId.toString()] has been evaluated to [idText]. *)
Definition isPotentialGraphicFor (idText : string) (graphic : ElectricalGraphic) : bool :=
  match graphic with
  | NodeGraphic _ nodeProperties true _ => existsb (String.eqb idText) (split nodeProperties)
  | _ => false
  end.

(** [removePotentialNodesForProperty].  The array is filtered first; the
    marker filter then evaluates [polygonId.toString()] on the first marker
    of a potential node it meets, which raises for [undefined] and [null]
    before any graphic is removed. *)
Definition removePotentialNodesForProperty (polygonId : jsval) (r : Registry)
    : Registry * Result unit :=
  let r1 := withNodes (List.filter (keptByRemoval r polygonId) (electricalNodes r)) r in
  match electricalLayer r1 with
  | None => (r1, Ok tt)
  | Some graphics =>
      match toString polygonId with
      | Some idText =>
          (withGraphics
             (List.filter (fun g => negb (isPotentialGraphicFor idText g)) graphics) r1,
           Ok tt)
      | None =>
          if existsb isPotentialGraphic graphics then (r1, Throw "TypeError")
          else (r1, Ok tt)
      end
  end.

(** [removeAllPotentialNodes]. *)
Definition removeAllPotentialNodes (r : Registry) : Registry :=
  let isPotentialRef ref :=
    match heap r !! ref with
    | Some node => isPotential node
    | None => false
    end in
  if (length (List.filter isPotentialRef (electricalNodes r)) =? 0)%nat then r
  else
    let r1 :=
      withNodes (List.filter (fun ref => negb (isPotentialRef ref)) (electricalNodes r)) r in
    match electricalLayer r1 with
    | None => r1
    | Some graphics =>
        withGraphics (List.filter (fun g => negb (isPotentialGraphic g)) graphics) r1
    end.

(** [createAndRenderPotentialNode]: the new node's reference is returned. *)
Definition createAndRenderPotentialNode (potentialPositions : list LabelledPosition)
    (polygonId : jsval) (stamp : string) (r : Registry) : Registry * Result nat :=
  match removePotentialNodesForProperty polygonId r with
  | (r1, Throw message) => (r1, Throw message)
  | (r1, Ok _) =>
      match potentialPositions !! 1%nat with
      | None => (r1, Throw "TypeError")
      | Some chosen =>
          let chosenPosition := pos chosen in
          let chosenSide := rightSide in
          let potentialNode :=
            createElectricalNode chosenPosition polygonId chosenSide stamp true in
          let '(r2, ref) := pushNew potentialNode r1 in
          (r2, Ok ref)
      end
  end.

(** [node.propertyCentroids[polygonId] = propertyCentroid], creating the
    table when the node has none. *)
Definition storeCentroid (polygonId : jsval) (propertyCentroid : Point)
    (node : ElectricalNode) : ElectricalNode :=
  {| nodeId := nodeId node;
     nodeType := nodeType node;
     position := position node;
     properties := properties node;
     side := side node;
     isPotential := isPotential node;
     isPillar := isPillar node;
     propertyCentroids :=
       Some (<[to_string polygonId := propertyCentroid]>
               (default ∅ (propertyCentroids node))) |}.

(** [generateOrFindConnectionNode], run to completion: the registry it
    leaves, and the node reference it resolves to ([None] for [null]) or the
    error it rejects with. *)
Definition generateOrFindConnectionNode (ge : GeometryEngine)
    (pillarsLayer : PillarsLayer) (stamp : string) (polygonGraphic : PolygonGraphic)
    (frontageLines : list LineFeature) (r : Registry)
    : Registry * Result (option nat) :=
  match frontageLines with
  | [] => (r, Ok None)
  | _ =>
      let polygonId := Cadastral.polygonId (polygonAttributes polygonGraphic) in
      let workingPolygonGeometry :=
        ensureWebMercator (GPolygon (polygonGeometry polygonGraphic)) ge in
      let propertyCentroid := centroid ge workingPolygonGeometry in
      match calculatePotentialNodePositions frontageLines workingPolygonGeometry ge with
      | Throw message => (r, Throw message)
      | Ok potentialPositions =>
          match findNearbyConnectionNode ge pillarsLayer frontageLines
                  workingPolygonGeometry polygonId r with
          | (r1, Some nearbyNode) =>
              let r2 := modify (storeCentroid polygonId propertyCentroid) nearbyNode r1 in
              match removePotentialNodesForProperty polygonId r2 with
              | (r3, Throw message) => (r3, Throw message)
              | (r3, Ok _) => (r3, Ok (Some nearbyNode))
              end
          | (r1, None) =>
              match createAndRenderPotentialNode potentialPositions polygonId stamp r1 with
              | (r2, Throw message) => (r2, Throw message)
              | (r2, Ok potentialNode) =>
                  (modify (storeCentroid polygonId propertyCentroid) potentialNode r2,
                   Ok (Some potentialNode))
              end
          end
      end
  end.

(** *** Vocabulary of the statements *)

(** Every reference held in the array points at an object. *)
Definition wellFormed (r : Registry) : Prop :=
  Forall (fun ref => ref < length (heap r))%nat (electricalNodes r).

(** Whether the node object [ref] lists [polygonId] among its parcels. *)
Definition serves (r : Registry) (polygonId : jsval) (ref : nat) : bool :=
  match heap r !! ref with
  | Some node => includes (properties node) polygonId
  | None => false
  end.

(** No node in memory that a returned pillar is matched with lists the
    parcel already, so that the pillar loop is not cut short. *)
Definition matchesUnserved (r : Registry) (polygonId : jsval)
    (features : list PillarFeature) : Prop :=
  forall f ref node,
    In f features -> In ref (electricalNodes r) -> heap r !! ref = Some node ->
    strict_eq (nodeId node) (pick_id f) = true ->
    includes (properties node) polygonId = false.

Definition isPotentialRef (r : Registry) (ref : nat) : bool :=
  match heap r !! ref with
  | Some node => isPotential node
  | None => false
  end.



(** No node in memory lists a parcel twice. *)
Definition noRepeatedProperties (r : Registry) : Prop :=
  forall ref node polygonId,
    In ref (electricalNodes r) -> heap r !! ref = Some node ->
    (occurrences (properties node) polygonId <= 1)%nat.

(** Whether [ref] is a pillar or service node that lists [polygonId]. *)
Definition activeServing (r : Registry) (polygonId : jsval) (ref : nat) : bool :=
  negb (isPotentialRef r ref) && serves r polygonId ref.

(** The node the scan of the memory stops at, if any. *)
Definition firstServing (r : Registry) (polygonId : jsval) : option nat :=
  List.find (activeServing r polygonId) (electricalNodes r).

(** None of the pillar or service nodes among [nodes] serves the parcel or
    lies inside the sharing buffer. *)
Definition noCandidate (ge : GeometryEngine) (r : Registry) (frontageBuffer : Geometry)
    (polygonId : jsval) (nodes : list nat) : Prop :=
  forall ref node,
    In ref nodes -> heap r !! ref = Some node -> isPotential node = false ->
    includes (properties node) polygonId = false
    /\ contains ge frontageBuffer (GPoint (position node)) = false.

(** [r'] is [r] with one pillar entry allocated and registered for each
    feature of [added], in that order. *)
Definition grownBy (r r' : Registry) (added : list PillarFeature) : Prop :=
  heap r' = (heap r ++ map newPillarNode added)%list
  /\ electricalNodes r'
     = (electricalNodes r ++ seq (length (heap r)) (length added))%list
  /\ electricalLayer r' = electricalLayer r.

(** The pillar query contributes nothing: there is no pillar layer, or the
    query fails, or it returns no feature. *)
Definition pillarsSilent (pillarsLayer : PillarsLayer) (frontageBuffer : Geometry)
    : Prop :=
  forall queryFeatures features,
    pillarsLayer = Some queryFeatures ->
    queryFeatures frontageBuffer = Ok features ->
    features = [].

(** The marker filter of the removal cannot raise: the identifier has a
    [toString], or the layer shows no marker of a potential node. *)
Definition removalSafe (polygonId : jsval) (layer : option (list ElectricalGraphic))
    : Prop :=
  toString polygonId = None ->
  forall graphics, layer = Some graphics -> existsb isPotentialGraphic graphics = false.


End Electrical.

(** ** electrical-infrastructure.js: the graphics of the electrical layer *)

Module Rendering.
Import Js Geo Electrical.

(** metres - limit node visualization updates to nearby nodes *)
Definition SEARCH_RADIUS : Q := 400.

(** [graphic.attributes && graphic.attributes.electricalNode]. *)
Definition isNodeGraphic (graphic : ElectricalGraphic) : bool :=
  match graphic with
  | NodeGraphic _ _ _ _ => true
  | _ => false
  end.

(** [graphic.attributes && graphic.attributes.distanceLabel]. *)
Definition isDistanceLabel (graphic : ElectricalGraphic) : bool :=
  match graphic with
  | DistanceLabel _ => true
  | _ => false
  end.

(** [graphic.attributes && graphic.attributes.connectionLine]. *)
Definition isConnectionLine (graphic : ElectricalGraphic) : bool :=
  match graphic with
  | ConnectionLine _ _ => true
  | _ => false
  end.

(** [removeElectricalGraphics(filterFn)]: the registry without the graphics
    the filter selects, and their number; 0 when the layer is not set. *)
Definition removeElectricalGraphics (filterFn : ElectricalGraphic -> bool)
    (r : Registry) : Registry * nat :=
  match electricalLayer r with
  | None => (r, 0%nat)
  | Some graphics =>
      (withGraphics (List.filter (fun g => negb (filterFn g)) graphics) r,
       length (List.filter filterFn graphics))
  end.

(** [clearAllElectricalNodeGraphics]: node markers first, then labels. *)
Definition clearAllElectricalNodeGraphics (r : Registry) : Registry :=
  match electricalLayer r with
  | None => r
  | Some _ =>
      let r1 := fst (removeElectricalGraphics isNodeGraphic r) in
      fst (removeElectricalGraphics isDistanceLabel r1)
  end.

(** [clearConnectionLines], as far as the layer goes: the references kept
    in [node.connectionLines] are among the display-only fields the node
    record leaves out. *)
Definition clearConnectionLines (r : Registry) : Registry :=
  match electricalLayer r with
  | None => r
  | Some graphics =>
      withGraphics (List.filter (fun g => negb (isConnectionLine g)) graphics) r
  end.

(** [drawConnectionLines(node, currentPropertyId, modules)]; [node] is
    [None] for [null].  The centroid is looked up under the identifier
    converted to a property key, among the centroids stored in the node
    (the properties every JavaScript object inherits are not looked at).
    Adding to a layer that is not set raises inside the [try] block, whose
    [catch] only logs. *)
Definition drawConnectionLines (node : option nat) (currentPropertyId : jsval)
    (r : Registry) : Registry :=
  match node with
  | None => r
  | Some ref =>
      match heap r !! ref with
      | None => r
      | Some n =>
          if isPotential n then r
          else
            match propertyCentroids n with
            | None => r
            | Some centroids =>
                if negb (truthy currentPropertyId) then r
                else
                  match centroids !! to_string currentPropertyId with
                  | None => r
                  | Some propertyCentroid =>
                      match electricalLayer r with
                      | None => r
                      | Some graphics =>
                          withGraphics
                            (graphics
                             ++ [ConnectionLine (nodeId n) currentPropertyId])
                            r
                      end
                  end
            end
      end
  end.

(** [renderElectricalNode(node, modules, isPrimary, isNearby)]: the marker
    is added unless the layer is not set; [isPrimary] only picks the colour
    of the symbol.  The popup text formats [node.latitude] and
    [node.longitude], which the node record leaves out: they are taken to be
    numbers, as the map library gives them for a position in Web Mercator
    or geographic coordinates. *)
Definition renderElectricalNode (node : ElectricalNode) (isPrimary isNearby : bool)
    (r : Registry) : Registry :=
  match electricalLayer r with
  | None => r
  | Some graphics => withGraphics (graphics ++ [nodeGraphicOf node isNearby]) r
  end.

(** [addDistanceLabel(node, distance, modules)]: a text graphic carrying
    [distanceLabel: true] and the node id. *)
Definition addDistanceLabel (node : ElectricalNode) (distance : Q) (r : Registry)
    : Registry :=
  match electricalLayer r with
  | None => r
  | Some graphics => withGraphics (graphics ++ [DistanceLabel (nodeId node)]) r
  end.

(** [addPropertyLabel(node, modules)]: the "On Site" text, under the same
    attribute. *)
Definition addPropertyLabel (node : ElectricalNode) (r : Registry) : Registry :=
  match electricalLayer r with
  | None => r
  | Some graphics => withGraphics (graphics ++ [DistanceLabel (nodeId node)]) r
  end.

(** [n => n.id === id] on a node reference. *)
Definition hasId (r : Registry) (id : jsval) (ref : nat) : bool :=
  match heap r !! ref with
  | Some n => strict_eq (nodeId n) id
  | None => false
  end.

(** [electricalNodes.filter(node => geometryEngine.contains(searchBuffer,
    node.position))]. *)
Definition nearbyNodes (ge : GeometryEngine) (searchBuffer : Geometry) (r : Registry)
    : list nat :=
  List.filter (fun ref => match heap r !! ref with
                          | Some node => contains ge searchBuffer (GPoint (position node))
                          | None => false
                          end)
              (electricalNodes r).

(** The primary node is added to the nodes to process when none of them
    carries its id. *)
Definition withPrimary (r : Registry) (primaryNodeId : jsval) (nearby : list nat)
    : list nat :=
  if truthy primaryNodeId then
    match findById r primaryNodeId with
    | Some primaryNode =>
        if existsb (hasId r primaryNodeId) nearby then nearby
        else nearby ++ [primaryNode]
    | None => nearby
    end
  else nearby.

(** The body of the rendering loop for one node. *)
Definition renderNearby (ge : GeometryEngine) (frontageBuffer workingPolygon : Geometry)
    (primaryNodeId : jsval) (r : Registry) (ref : nat) : Registry :=
  match heap r !! ref with
  | None => r
  | Some node =>
      let isPrimary := truthy primaryNodeId && strict_eq (nodeId node) primaryNodeId in
      let isWithin30m := contains ge frontageBuffer (GPoint (position node)) in
      let shouldRender := isPrimary || isWithin30m in
      if shouldRender then
        let isOutsidePolygon := negb (contains ge workingPolygon (GPoint (position node))) in
        let r1 := renderElectricalNode node isPrimary true r in
        if isOutsidePolygon
        then addDistanceLabel node
               (distance ge (GPoint (position node)) workingPolygon) r1
        else addPropertyLabel node r1
      else r
  end.

(** [updateNodeVisualizationForProperty(frontageLines, polygonGeometry,
    modules, primaryNodeId)]: the registry it leaves and the value of
    [appState.currentFrontageLines] afterwards.  The cable highlighting
    started at the end works on the cable layer only and is left out. *)
Definition updateNodeVisualizationForProperty (ge : GeometryEngine)
    (frontageLines : list LineFeature) (polygonGeometry : Geometry)
    (primaryNodeId : jsval) (r : Registry)
    (currentFrontageLines : option (list LineFeature))
    : Registry * option (list LineFeature) :=
  match frontageLines with
  | [] => (r, currentFrontageLines)
  | _ =>
      match electricalLayer r with
      | None => (r, currentFrontageLines)
      | Some _ =>
          let r1 := fst (removeElectricalGraphics isDistanceLabel r) in
          match unionFrontageLines frontageLines ge with
          | None => (r1, Some frontageLines)
          | Some frontageUnion =>
              let frontageBuffer := buffer ge frontageUnion SHARING_THRESHOLD in
              let searchBuffer := buffer ge frontageUnion SEARCH_RADIUS in
              let nearby := withPrimary r1 primaryNodeId (nearbyNodes ge searchBuffer r1) in
              let workingPolygon :=
                if negb (wkid (spatialReference polygonGeometry) =? 102100)%Z
                then project ge polygonGeometry WEB_MERCATOR
                else polygonGeometry in
              (fold_left (renderNearby ge frontageBuffer workingPolygon primaryNodeId)
                         nearby r1,
               Some frontageLines)
          end
      end
  end.

(** The statements that open [highlightCadastralFrontage] and
    [highlightSubPolygonFrontage], on the registry: all node graphics are
    cleared, the potential nodes are dropped, the connection lines are
    cleared. *)
Definition clearPreviousSelection (r : Registry) : Registry :=
  clearConnectionLines (removeAllPotentialNodes (clearAllElectricalNodeGraphics r)).

(** The calls the other modules make into this one. *)
Inductive Operation :=
| GenerateOrFindConnectionNode (pillarsLayer : PillarsLayer) (stamp : string)
    (polygonGraphic : PolygonGraphic) (frontageLines : list LineFeature)
| RemoveAllPotentialNodes
| ClearAllElectricalNodeGraphics
| ClearConnectionLines
| DrawConnectionLines (node : option nat) (currentPropertyId : jsval)
| UpdateNodeVisualizationForProperty (frontageLines : list LineFeature)
    (polygonGeometry : Geometry) (primaryNodeId : jsval).

(** The registry one call leaves, whether it returns or raises. *)
Definition run (ge : GeometryEngine) (r : Registry) (op : Operation) : Registry :=
  match op with
  | GenerateOrFindConnectionNode pillarsLayer stamp polygonGraphic frontageLines =>
      fst (generateOrFindConnectionNode ge pillarsLayer stamp polygonGraphic
             frontageLines r)
  | RemoveAllPotentialNodes => removeAllPotentialNodes r
  | ClearAllElectricalNodeGraphics => clearAllElectricalNodeGraphics r
  | ClearConnectionLines => clearConnectionLines r
  | DrawConnectionLines node currentPropertyId =>
      drawConnectionLines node currentPropertyId r
  | UpdateNodeVisualizationForProperty frontageLines polygonGeometry primaryNodeId =>
      fst (updateNodeVisualizationForProperty ge frontageLines polygonGeometry
             primaryNodeId r None)
  end.

(** *** Vocabulary of the statements *)

(** The potential nodes in memory. *)
Definition potentialNodes (r : Registry) : list nat :=
  List.filter (isPotentialRef r) (electricalNodes r).

(** The frontage line has a first path with at least one vertex, so that
    its end points can be read. *)
Definition hasEndpoints (line : LineFeature) : bool :=
  match head (paths (geometry line)) with
  | Some (_ :: _) => true
  | _ => false
  end.

(** The marker filter of the removal raises: the identifier is [undefined]
    or [null] and the layer shows a marker of a potential node. *)
Definition removalRaises (polygonId : jsval) (layer : option (list ElectricalGraphic))
    : Prop :=
  toString polygonId = None
  /\ exists graphics,
       layer = Some graphics /\ existsb isPotentialGraphic graphics = true.

(** The markers a visualisation refresh adds for one node: the marker of
    the node and its label. *)
Definition markersOf (node : ElectricalNode) : list ElectricalGraphic :=
  [nodeGraphicOf node true; DistanceLabel (nodeId node)].

(** Whether the refresh draws the node [ref]. *)
Definition shouldRender (ge : GeometryEngine) (frontageBuffer : Geometry)
    (primaryNodeId : jsval) (r : Registry) (ref : nat) : bool :=
  match heap r !! ref with
  | Some node =>
      truthy primaryNodeId && strict_eq (nodeId node) primaryNodeId
      || contains ge frontageBuffer (GPoint (position node))
  | None => false
  end.

(** [node] keeps its identity, kind and position and has only gained
    parcels in [node']. *)
Definition extendsNode (node node' : ElectricalNode) : Prop :=
  nodeId node' = nodeId node
  /\ nodeType node' = nodeType node
  /\ position node' = position node
  /\ isPotential node' = isPotential node
  /\ isPillar node' = isPillar node
  /\ exists gained, properties node' = (properties node ++ gained)%list.

(** Every pillar or service node in memory in [r] is still there in [r'],
    with the parcels it served and possibly more. *)
Definition keepsActiveNodes (r r' : Registry) : Prop :=
  forall ref node,
    In ref (electricalNodes r) -> heap r !! ref = Some node ->
    isPotential node = false ->
    In ref (electricalNodes r')
    /\ exists node', heap r' !! ref = Some node' /\ extendsNode node node'.

End Rendering.

(** ** Sub-polygons after a completed subdivision

    The handling of a click on a sub-polygon,
    [checkAndHandleSubPolygonClick] (cadastral-features.js). *)

Module SubPolygons.
Import Js Geo Subdivision.

(** A graphic a hit test can return, by the layer it lies on.  The
    features of the data layers carry the attributes of the data set; only
    the graphics [renderSubPolygons] creates carry [subPolygon]. *)
Inductive Graphic :=
| OfSubdivision (graphic : LayerGraphic)
| OfElectrical (graphic : Electrical.ElectricalGraphic)
| OfCadastre (feature : PolygonGraphic)
| OfCadastreLines (feature : LineFeature)
| OfOtherLayer.

(** An element of [hitTestResult.results]; [result.graphic] may be absent. *)
Definition HitResult : Type := option Graphic.

(** The temporary graphic built for the clicked sub-polygon. *)
Definition clickedSubPolygonGraphic (geometry : Polygon) (subIndex : nat)
    (subData : SubPolygonResult) : PolygonGraphic :=
  {| polygonGeometry := geometry;
     polygonAttributes :=
       {[ "__OBJECTID" := JStr ("SUB_" ++ string_of_Z (Z.of_nat subIndex));
          "subPolygon" := JBool true;
          "subIndex" := JNum (Z.of_nat subIndex);
          "originalPolygonId" := Js.or (originalPolygonId subData) (JStr "Unknown") ]} |}.

(** The loop over the hit results: the first sub-polygon graphic whose
    index has data is handled; one whose index has none is skipped. *)
Fixpoint firstSubPolygonHit (subPolygonData : list SubPolygonResult)
    (results : list HitResult) : option (PolygonGraphic * list LineFeature) :=
  match results with
  | [] => None
  | result :: rest =>
      match result with
      | Some (OfSubdivision (SubPolygonGraphic geometry subIndex _ _ _)) =>
          match subPolygonData !! subIndex with
          | Some subData =>
              Some (clickedSubPolygonGraphic geometry subIndex subData,
                    frontageLines subData)
          | None => firstSubPolygonHit subPolygonData rest
          end
      | _ => firstSubPolygonHit subPolygonData rest
      end
  end.

(** [checkAndHandleSubPolygonClick]: [None] for [false]; otherwise the
    arguments [highlightSubPolygonFrontage] is called with before [true] is
    returned. *)
Definition checkAndHandleSubPolygonClick
    (subPolygonData : option (list SubPolygonResult))
    (hitTestResult : option (list HitResult))
    : option (PolygonGraphic * list LineFeature) :=
  match subPolygonData with
  | None => None
  | Some data =>
      match hitTestResult with
      | None => None
      | Some results => firstSubPolygonHit data results
      end
  end.

(** *** Vocabulary of the statements *)

(** The points of a line under construction: the first one lies on the
    boundary, the others are midpoints. *)
Definition pendingLine (points : list PointData) : Prop :=
  match points with
  | [] => True
  | first :: others =>
      type first = boundary /\ Forall (fun pd => type pd = midpoint) others
  end.

(** A finished line: built from a boundary point, midpoints and a closing
    boundary point. *)
Definition finishedLine (line : LineGraphic) : Prop :=
  exists first midpoints last,
    line = lineGraphicOf (pointSR (point first)) (first :: midpoints ++ [last])
    /\ type first = boundary
    /\ Forall (fun pd => type pd = midpoint) midpoints
    /\ type last = boundary.

(** The hit is a sub-polygon graphic. *)
Definition isSubPolygonHit (result : HitResult) : bool :=
  match result with
  | Some (OfSubdivision (SubPolygonGraphic _ _ _ _ _)) => true
  | _ => false
  end.

Definition isDigit (c : ascii) : bool :=
  let n := nat_of_ascii c in (48 <=? n)%nat && (n <=? 57)%nat.

(** The text consists of decimal digits only. *)
Fixpoint allDigits (s : string) : bool :=
  match s with
  | EmptyString => true
  | String c rest => isDigit c && allDigits rest
  end.

(** The point markers on the subdivision layer. *)
Definition pointMarkers {W : Type} (st : State W) : list LayerGraphic :=
  List.filter (fun g => match g with PointMarker _ _ => true | _ => false end)
              (subdivisionLayer (appState st)).

End SubPolygons.

(** ** cadastral-features.js: selecting a parcel or a sub-polygon *)

Module Selection.
Import Js Geo Cadastral Electrical Rendering.

(** The part of the application state a selection writes: the selected
    graphic, the frontage lines cached for it, and the node registry with
    its layer. *)
Record Selected := {
  currentPolygon : option PolygonGraphic;
  currentFrontageLines : option (list LineFeature);
  registry : Registry
}.

(** [electricalNode ? electricalNode.id : null]. *)
Definition primaryIdOf (r : Registry) (electricalNode : option nat) : jsval :=
  match electricalNode with
  | Some ref =>
      match heap r !! ref with
      | Some node => nodeId node
      | None => JNull
      end
  | None => JNull
  end.

(** The continuation of the node assignment in [highlightCadastralFrontage]:
    the connection line is drawn for the node found, then the display is
    refreshed around it.  A rejected assignment is caught and logged. *)
Definition showAssignedNode (ge : GeometryEngine) (polygonGraphic : PolygonGraphic)
    (frontageLines : list LineFeature) (polygonId : jsval) (drawLine : bool)
    (assigned : Registry * Result (option nat)) : Registry :=
  match assigned with
  | (r1, Ok electricalNode) =>
      let r2 :=
        match electricalNode with
        | Some _ => if drawLine then drawConnectionLines electricalNode polygonId r1
                    else r1
        | None => r1
        end in
      fst (updateNodeVisualizationForProperty ge frontageLines
             (GPolygon (polygonGeometry polygonGraphic))
             (primaryIdOf r2 electricalNode) r2 (Some frontageLines))
  | (r1, Throw _) => r1
  end.

(** A function passed as [reverseGeocodeCallback].  The click handler
    passes [reverseGeocode] (location-services.js), which starts an address
    lookup and returns at once; [searchPolygonByPIN] passes [null], which
    is [None] here. *)
Inductive Callback := reverseGeocode.

(** [value.toFixed(2)] is a method of numbers only. *)
Definition hasToFixed (value : jsval) : bool :=
  match value with
  | JNum _ | JNaN => true
  | _ => false
  end.

(** [updatePolygonMetadata] (utils.js), as far as it can raise; [panel]
    tells whether the page has the two elements of the metadata panel,
    without which the function returns at once.  With the panel, [toFixed]
    is called on a truthy [legal_area] and on a truthy [calc_area], and the
    vertices of the first ring are counted; the lines are only counted, and
    read behind guards. *)
Definition updatePolygonMetadata (panel : bool) (polygonGraphic : PolygonGraphic)
    : Result unit :=
  if negb panel then Ok tt
  else
    let attrs := polygonAttributes polygonGraphic in
    if truthy (get attrs "legal_area") && negb (hasToFixed (get attrs "legal_area"))
    then Throw "TypeError"
    else if truthy (get attrs "calc_area") && negb (hasToFixed (get attrs "calc_area"))
    then Throw "TypeError"
    else
      match head (rings (polygonGeometry polygonGraphic)) with
      | None => Throw "TypeError"
      | Some _ => Ok tt
      end.

(** [highlightCadastralFrontage], on the state above and run to completion;
    [queried] is what the query for the boundary lines around the parcel
    resolves to.  With a valid line, the callback is called before the
    frontage lines are cached, and the metadata panel is filled after that
    and before the node is assigned: a [null] callback, or a panel that
    cannot be filled, raises there, and the [catch] of the query only logs.
    The highlight graphics, the marker and the setback zone live on other
    layers and are left out; the click point is a point of the map view,
    whose latitude and longitude are numbers. *)
Definition highlightCadastralFrontage (ge : GeometryEngine)
    (pillarsLayer : PillarsLayer) (stamp : string) (panel : bool)
    (polygonGraphic : PolygonGraphic) (reverseGeocodeCallback : option Callback)
    (queried : Result (list LineFeature)) (s : Selected) : Selected :=
  let polygonId := polygonId (polygonAttributes polygonGraphic) in
  let r0 := clearPreviousSelection (registry s) in
  let cleared :=
    {| currentPolygon := Some polygonGraphic;
       currentFrontageLines := currentFrontageLines s;
       registry := r0 |} in
  match queried with
  | Throw _ => cleared
  | Ok features =>
      match validLines ge (polygonGeometry polygonGraphic) features with
      | [] => cleared
      | validLines =>
          let frontageLines := List.filter isFrontageLine validLines in
          match reverseGeocodeCallback with
          | None => cleared
          | Some _ =>
              let cached :=
                {| currentPolygon := Some polygonGraphic;
                   currentFrontageLines := Some frontageLines;
                   registry := r0 |} in
              match updatePolygonMetadata panel polygonGraphic with
              | Throw _ => cached
              | Ok _ =>
                  {| currentPolygon := Some polygonGraphic;
                     currentFrontageLines := Some frontageLines;
                     registry :=
                       match frontageLines with
                       | [] => r0
                       | _ =>
                           showAssignedNode ge polygonGraphic frontageLines polygonId
                             true
                             (generateOrFindConnectionNode ge pillarsLayer stamp
                                polygonGraphic frontageLines r0)
                       end |}
              end
          end
      end
  end.

(** [highlightSubPolygonFrontage]: the state it leaves and whether it
    raises.  The callback is called, the edges of the first ring are
    counted ([new Array(n)] raises a [RangeError] for [n = -1]) and the
    metadata panel is filled before the frontage lines are looked at.  No
    connection line is drawn for a sub-polygon. *)
Definition highlightSubPolygonFrontage (ge : GeometryEngine)
    (pillarsLayer : PillarsLayer) (stamp : string) (panel : bool)
    (subPolygonGraphic : PolygonGraphic) (reverseGeocodeCallback : option Callback)
    (frontageLines : list LineFeature) (s : Selected) : Selected * Result unit :=
  let r0 := clearPreviousSelection (registry s) in
  let cleared :=
    {| currentPolygon := Some subPolygonGraphic;
       currentFrontageLines := currentFrontageLines s;
       registry := r0 |} in
  match reverseGeocodeCallback with
  | None => (cleared, Throw "TypeError")
  | Some _ =>
      match head (rings (polygonGeometry subPolygonGraphic)) with
      | None => (cleared, Throw "TypeError")
      | Some [] => (cleared, Throw "RangeError")
      | Some (_ :: _) =>
          match updatePolygonMetadata panel subPolygonGraphic with
          | Throw message => (cleared, Throw message)
          | Ok _ =>
              match frontageLines with
              | [] =>
                  ({| currentPolygon := Some subPolygonGraphic;
                      currentFrontageLines := Some [];
                      registry := r0 |}, Ok tt)
              | _ =>
                  ({| currentPolygon := Some subPolygonGraphic;
                      currentFrontageLines := Some frontageLines;
                      registry :=
                        showAssignedNode ge subPolygonGraphic frontageLines
                          (polygonId (polygonAttributes subPolygonGraphic)) false
                          (generateOrFindConnectionNode ge pillarsLayer stamp
                             subPolygonGraphic frontageLines r0) |}, Ok tt)
              end
          end
      end
  end.

End Selection.

(** ** map-setup.js: the map click handler *)

Module MapSetup.
Import Js Geo Subdivision Electrical Rendering SubPolygons.

(** The layers a hit graphic is compared with. *)
Inductive LayerRef :=
| SubdivisionLayer
| ElectricalLayer
| CadastreLayer
| CadastreLinesLayer
| OtherLayer.

#[export] Instance LayerRef_eq_dec : EqDecision LayerRef.
Proof. solve_decision. Defined.

(** [graphic.layer]. *)
Definition layerOf (graphic : Graphic) : LayerRef :=
  match graphic with
  | OfSubdivision _ => SubdivisionLayer
  | OfElectrical _ => ElectricalLayer
  | OfCadastre _ => CadastreLayer
  | OfCadastreLines _ => CadastreLinesLayer
  | OfOtherLayer => OtherLayer
  end.

(** The [layers] argument of the handler; a layer that was not created is
    [None]. *)
Record Layers := {
  cadastreLayer : option LayerRef;
  cadastreLinesLayer : option LayerRef;
  electricalLayer : option LayerRef
}.

(** [result.graphic && result.graphic.layer === layer]. *)
Definition onLayer (layer : option LayerRef) (result : HitResult) : bool :=
  match result with
  | Some graphic => bool_decide (Some (layerOf graphic) = layer)
  | None => false
  end.

Definition isElectricalNodeClick (results : list HitResult)
    (electricalLayer : option LayerRef) : bool :=
  existsb (onLayer electricalLayer) results.

Definition isCadastralLineClick (results : list HitResult)
    (cadastreLinesLayer : option LayerRef) : bool :=
  existsb (onLayer cadastreLinesLayer) results.

(** [findClickedCadastralPolygon]: the graphic of the first hit on the
    layer, [None] for [null]. *)
Definition findClickedCadastralPolygon (results : list HitResult)
    (cadastreLayer : option LayerRef) : option Graphic :=
  match List.find (onLayer cadastreLayer) results with
  | Some result => result
  | None => None
  end.

(** [polygonGraphic.attributes?.land_type]. *)
Definition landType (graphic : Graphic) : jsval :=
  match graphic with
  | OfCadastre feature => get (polygonAttributes feature) "land_type"
  | OfCadastreLines feature => get (attributes feature) "land_type"
  | _ => JUndefined
  end.

(** What a click amounts to. *)
Inductive Action :=
| SubdivisionPoint
| SubPolygonSelected (subPolygonGraphic : PolygonGraphic)
    (frontageLines : list LineFeature)
| PopupOnly
| RoadRejected
| ParcelSelected (polygonGraphic : Graphic)
| DefaultClick.

(** [handlePolygonClick]: roads cannot be selected; any other polygon is
    handed to the highlight callback. *)
Definition handlePolygonClick (polygonGraphic : Graphic) : Action :=
  if strict_eq (landType polygonGraphic) (JStr "ROAD") then RoadRejected
  else ParcelSelected polygonGraphic.

(** The callback given to [mapView.hitTest(event).then]. *)
Definition onHitTest (layers : Layers)
    (subPolygonData : option (list SubPolygonResult)) (results : list HitResult)
    : Action :=
  match checkAndHandleSubPolygonClick subPolygonData (Some results) with
  | Some (subPolygonGraphic, frontageLines) =>
      SubPolygonSelected subPolygonGraphic frontageLines
  | None =>
      if (0 <? length results)%nat
         && isElectricalNodeClick results (electricalLayer layers)
      then PopupOnly
      else if (0 <? length results)%nat
              && bool_decide (cadastreLinesLayer layers <> None)
              && isCadastralLineClick results (cadastreLinesLayer layers)
      then PopupOnly
      else
        match cadastreLayer layers with
        | Some _ =>
            match findClickedCadastralPolygon results (cadastreLayer layers) with
            | Some clickedPolygon => handlePolygonClick clickedPolygon
            | None => DefaultClick
            end
        | None => DefaultClick
        end
  end.

(** The click handler installed by [setupMapClickHandler], with the
    callbacks the application passes: the subdivision module is asked
    first; the hit test decides when it does not take the click. *)
Definition onClick {W : Type} (ge : GeometryEngine) (layers : Layers)
    (mapPoint : Point) (results : list HitResult) (st : State W)
    : Result (State W * Action) :=
  if isSubdivisionModeActive st then
    (handled <- handleSubdivisionClick ge mapPoint st ;;
     if snd handled then Ok (fst handled, SubdivisionPoint)
     else Ok (fst handled,
              onHitTest layers (subPolygonData (appState (fst handled))) results))%result
  else Ok (st, onHitTest layers (subPolygonData (appState st)) results).

(** A run of clicks, each with the hits under it, stopping at the first
    one that raises; the actions are listed in click order. *)
Fixpoint onClicks {W : Type} (ge : GeometryEngine) (layers : Layers)
    (events : list (Point * list HitResult)) (st : State W)
    : Result (State W * list Action) :=
  match events with
  | [] => Ok (st, [])
  | event :: rest =>
      (first <- onClick ge layers (fst event) (snd event) st ;;
       others <- onClicks ge layers rest (fst first) ;;
       Ok (fst others, snd first :: snd others))%result
  end.

(** [hidePolygonMetadata] (utils.js), on the registry: the connection
    lines are cleared. *)
Definition hidePolygonMetadata (r : Registry) : Registry := clearConnectionLines r.

(** [handleDefaultClick], on the registry: the metadata panel is hidden,
    then the node graphics are cleared and the potential nodes dropped.
    The marker, the address lookup and the setback layer are other parts
    of the page and are left out. *)
Definition handleDefaultClick (hidePolygonMetadataCallback : Registry -> Registry)
    (r : Registry) : Registry :=
  removeAllPotentialNodes
    (clearAllElectricalNodeGraphics (hidePolygonMetadataCallback r)).

End MapSetup.

(** ** A concrete engine for worked examples

    A planar engine that is exact on axis-parallel figures: distances are
    taken along the axes, a polygon contains what its bounding box contains,
    and a polygon is cut by a vertical line that crosses its bounding box. *)

Module Planar.
Import Geo.
Local Open Scope Q_scope.

Definition sr : SpatialReference := {| wkid := 102100 |}.

Definition clamp (lo hi v : Q) : Q := Qmax lo (Qmin hi v).

Definition coordDistance (a b : Coord) : Q :=
  Qabs (fst a - fst b) + Qabs (snd a - snd b).

Definition nearestOnSegment (a b p : Coord) : Coord :=
  (clamp (Qmin (fst a) (fst b)) (Qmax (fst a) (fst b)) (fst p),
   clamp (Qmin (snd a) (snd b)) (Qmax (snd a) (snd b)) (snd p)).

Fixpoint segments (path : list Coord) : list (Coord * Coord) :=
  match path with
  | a :: rest =>
      match rest with
      | b :: _ => (a, b) :: segments rest
      | [] => []
      end
  | [] => []
  end.

Definition coordsOf (g : Geometry) : list Coord :=
  match g with
  | GPoint p => [(x p, y p)]
  | GPolyline l => concat (paths l)
  | GPolygon g => concat (rings g)
  end.

Definition segmentsOf (g : Geometry) : list (Coord * Coord) :=
  match g with
  | GPoint p => [((x p, y p), (x p, y p))]
  | GPolyline l => flat_map segments (paths l)
  | GPolygon g => flat_map segments (rings g)
  end.

Definition minimum (ds : list Q) : Q :=
  match ds with
  | [] => 0
  | d :: rest => fold_left Qmin rest d
  end.

Definition boundingBox (cs : list Coord) : Q * Q * Q * Q :=
  (minimum (map fst cs), minimum (map snd cs),
   - minimum (map (fun c => - fst c) cs), - minimum (map (fun c => - snd c) cs)).

Definition inBox (box : Q * Q * Q * Q) (c : Coord) : bool :=
  let '(x0, y0, x1, y1) := box in
  Qle_bool x0 (fst c) && Qle_bool (fst c) x1
  && Qle_bool y0 (snd c) && Qle_bool (snd c) y1.

Definition planarContains (outer inner : Geometry) : bool :=
  forallb (inBox (boundingBox (coordsOf outer))) (coordsOf inner).

Definition distanceToSegments (c : Coord) (segs : list (Coord * Coord)) : Q :=
  minimum (map (fun s => coordDistance c (nearestOnSegment (fst s) (snd s) c)) segs).

Definition planarDistance (a b : Geometry) : Q :=
  match b with
  | GPolygon _ =>
      if planarContains b a then 0
      else minimum (map (fun c => distanceToSegments c (segmentsOf b)) (coordsOf a))
  | _ => minimum (map (fun c => distanceToSegments c (segmentsOf b)) (coordsOf a))
  end.

Definition rectangle (x0 y0 x1 y1 : Q) (s : SpatialReference) : Polygon :=
  {| rings := [[(x0, y0); (x1, y0); (x1, y1); (x0, y1); (x0, y0)]];
     polygonSR := s |}.

Definition planarBuffer (g : Geometry) (d : Q) : Geometry :=
  let '(x0, y0, x1, y1) := boundingBox (coordsOf g) in
  GPolygon (rectangle (x0 - d) (y0 - d) (x1 + d) (y1 + d) (spatialReference g)).

Definition planarUnion (gs : list Geometry) : Geometry :=
  match gs with
  | [] => GPolyline {| paths := []; polylineSR := sr |}
  | g :: _ =>
      GPolyline {| paths := flat_map (fun h => match h with
                                              | GPolyline l => paths l
                                              | _ => []
                                              end) gs;
                   polylineSR := spatialReference g |}
  end.

Definition planarProject (g : Geometry) (s : SpatialReference) : Geometry :=
  match g with
  | GPoint p => GPoint {| x := x p; y := y p; pointSR := s |}
  | GPolyline l => GPolyline {| paths := paths l; polylineSR := s |}
  | GPolygon g => GPolygon {| rings := rings g; polygonSR := s |}
  end.

Definition planarProjectPoint (p : Point) (s : SpatialReference) : Point :=
  {| x := x p; y := y p; pointSR := s |}.

Definition planarNearest (l : Polyline) (p : Point) : option NearestPointResult :=
  match flat_map segments (paths l) with
  | [] => None
  | s :: _ =>
      let c := nearestOnSegment (fst s) (snd s) (x p, y p) in
      Some {| coordinate := {| x := fst c; y := snd c; pointSR := polylineSR l |};
              nearestDistance := coordDistance (x p, y p) c |}
  end.

(** A vertical line at abscissa [c] strictly inside the bounding box splits
    the polygon into a left and a right rectangle; any other line cuts
    nothing. *)
Definition planarCut (g : Polygon) (l : Polyline) : Result (option (list Polygon)) :=
  match paths l with
  | [[a; b]] =>
      let '(x0, y0, x1, y1) := boundingBox (concat (rings g)) in
      if Qeq_bool (fst a) (fst b) && Qlt_bool x0 (fst a) && Qlt_bool (fst a) x1
      then Ok (Some [rectangle x0 y0 (fst a) y1 (polygonSR g);
                     rectangle (fst a) y0 x1 y1 (polygonSR g)])
      else Ok None
  | _ => Ok None
  end.

Definition planarCentroid (g : Geometry) : Point :=
  let '(x0, y0, x1, y1) := boundingBox (coordsOf g) in
  {| x := (x0 + x1) / 2; y := (y0 + y1) / 2; pointSR := spatialReference g |}.

(** Exact on squares of rationals. *)
Definition planarSqrt (q : Q) : Q :=
  Z.sqrt (Qnum q * Zpos (Qden q)) # Qden q.

Definition engine : GeometryEngine :=
  {| distance := planarDistance;
     contains := planarContains;
     buffer := planarBuffer;
     union := planarUnion;
     project := planarProject;
     projectPoint := planarProjectPoint;
     nearestCoordinate := planarNearest;
     cut := planarCut;
     centroid := planarCentroid;
     sqrt := planarSqrt |}.

(** The same engine with a [cut] that always raises. *)
Definition engineWithFailingCut : GeometryEngine :=
  {| distance := planarDistance;
     contains := planarContains;
     buffer := planarBuffer;
     union := planarUnion;
     project := planarProject;
     projectPoint := planarProjectPoint;
     nearestCoordinate := planarNearest;
     cut := fun _ _ => Throw "cut failed";
     centroid := planarCentroid;
     sqrt := planarSqrt |}.

(** A 100 m by 100 m parcel whose southern edge is its frontage. *)
Definition parcel : Polygon := rectangle 0 0 100 100 sr.

Definition parcelGraphic : PolygonGraphic :=
  {| polygonGeometry := parcel;
     polygonAttributes := {[ "objectid" := Js.JNum 42 ]} |}.

Definition southFrontage : LineFeature :=
  {| geometry := {| paths := [[(0, 0); (100, 0)]]; polylineSR := sr |};
     attributes := {[ "usage_code" := Js.JNum 1 ]} |}.

Definition at_ (px py : Q) : Point := {| x := px; y := py; pointSR := sr |}.

End Planar.

(** ** Worked subdivision sessions on the planar engine *)

Module SubdivisionExamples.
Import Js Geo Subdivision Planar.

(** The parcel is selected and its frontage cached; no session yet. *)
Definition selected : State unit :=
  {| subdivisionMode := false;
     currentPolygonGeometry := None;
     currentPolygonGraphic := None;
     drawingPoints := [];
     appState := {| subdivisionLayer := [];
               currentFrontageLines := Some [southFrontage];
               subPolygonData := None;
               world := tt |};
     alerts := [] |}.

Definition session : State unit :=
  enableSubdivisionMode parcel (Some parcelGraphic) selected.

Definition afterClicks (clicks : list Point) : State unit :=
  match handleClicks engine clicks session with
  | Ok st => st
  | Throw _ => session
  end.

(** One line drawn from south to north through the middle of the parcel. *)
Definition oneLineDrawn : State unit :=
  afterClicks [at_ 50 (-10); at_ 50 120].

Definition quietSteps : Collaborators unit :=
  {| startNodeAssignment := fun _ _ w => w;
     updateNodeVisualizationForSubPolygons := fun _ a => (a, None) |}.


Definition failingVisualization : Collaborators unit :=
  {| startNodeAssignment := fun _ _ w => w;
     updateNodeVisualizationForSubPolygons :=
       fun _ a => (a, Some "visualization failed") |}.

End SubdivisionExamples.

(** ** Worked parcels and boundary lines *)

Module CadastralExamples.
Import Js Geo Cadastral Planar.

(** A parcel record whose [objectid] is the number 0. *)
Definition zeroObjectId : Attributes :=
  {[ "objectid" := JNum 0; "__OBJECTID" := JNum 7 ]}.

(** A frontage-coded line lying 3 m south of the parcel. *)
Definition offsetFrontage : LineFeature :=
  {| geometry := {| paths := [[(0%Q, (-3)%Q); (100%Q, (-3)%Q)]]; polylineSR := sr |};
     attributes := {[ "usage_code" := JNum 1 ]} |}.

End CadastralExamples.

(** ** Worked node assignments on the planar engine *)

Module ElectricalExamples.
Import Js Geo Electrical Planar.

(** Nothing in memory, the electrical layer is set up and empty. *)
Definition emptyRegistry : Registry :=
  {| heap := []; electricalNodes := []; electricalLayer := Some [] |}.

(** Two pillars south of the parcel, 5 m and 20 m from its frontage. *)
Definition pillarA : PillarFeature :=
  {| pick_id := JStr "P-100"; pillarGeometry := at_ 10 (-5) |}.

Definition pillarB : PillarFeature :=
  {| pick_id := JStr "P-200"; pillarGeometry := at_ 50 (-20) |}.

(** A pillar layer answering a query with the pillars inside its geometry. *)
Definition pillarQuery (pillars : list PillarFeature) (area : Geometry)
    : Result (list PillarFeature) :=
  Ok (List.filter (fun p => planarContains area (GPoint (pillarGeometry p))) pillars).

Definition inventory (pillars : list PillarFeature) : PillarsLayer :=
  Some (pillarQuery pillars).

Definition noPillars : PillarsLayer := inventory [].

Definition twoPillars : PillarsLayer := inventory [pillarA; pillarB].

(** The frontage union and the sharing buffer computed for the parcel. *)
Definition frontageUnion : Geometry := GPolyline (geometry southFrontage).

Definition frontageBuffer : Geometry := planarBuffer frontageUnion 30.

(** The registry left by an assignment, whatever its outcome. *)
Definition registryAfter (layer : PillarsLayer) (stamp : string) (r : Registry)
    : Registry :=
  fst (generateOrFindConnectionNode engine layer stamp parcelGraphic [southFrontage] r).

(** The markers of all the nodes in memory put on the layer, as a
    visualisation refresh that has every node in scope leaves them. *)
Definition withMarkers (r : Registry) : Registry :=
  withGraphics
    (omap (fun ref => (fun node => nodeGraphicOf node true) <$> heap r !! ref)
          (electricalNodes r))
    r.

(** The registry after a first assignment without pillars, its potential
    node shown on the map. *)
Definition potentialShown : Registry :=
  withMarkers (registryAfter noPillars "1_a" emptyRegistry).




End ElectricalExamples.

(** ** Worked selections and clicks on the planar engine *)

Module SelectionExamples.
Import Js Geo Cadastral Electrical Rendering Selection Planar.

(** Two pillars in memory, the second serving no parcel; nothing drawn. *)
Definition pillarsInMemory : Registry :=
  ElectricalExamples.registryAfter ElectricalExamples.twoPillars "1_a"
    ElectricalExamples.emptyRegistry.

(** A potential node in memory, no pillar; nothing drawn. *)
Definition potentialInMemory : Registry :=
  ElectricalExamples.registryAfter ElectricalExamples.noPillars "1_a"
    ElectricalExamples.emptyRegistry.

(** A parcel record without any identifier. *)
Definition unidentifiedParcelGraphic : PolygonGraphic :=
  {| polygonGeometry := parcel; polygonAttributes := ∅ |}.

(** Nothing selected yet. *)
Definition nothingSelected : Selected :=
  {| currentPolygon := None;
     currentFrontageLines := None;
     registry := ElectricalExamples.emptyRegistry |}.

(** The operations of one selection followed by a click on empty ground. *)
Definition selectThenDeselect : list Operation :=
  [ ClearAllElectricalNodeGraphics;
    RemoveAllPotentialNodes;
    ClearConnectionLines;
    GenerateOrFindConnectionNode ElectricalExamples.twoPillars "1_a" parcelGraphic
      [southFrontage];
    DrawConnectionLines (Some 0%nat) (JNum 42);
    UpdateNodeVisualizationForProperty [southFrontage] (GPolygon parcel)
      (JStr "P-100");
    ClearConnectionLines;
    ClearAllElectricalNodeGraphics;
    RemoveAllPotentialNodes ].

End SelectionExamples.

(** ** Worked sub-polygons and hit tests *)

Module ClickExamples.
Import Js Geo Subdivision SubPolygons MapSetup Planar.

(** The two halves recorded when the line through the parcel is completed. *)
Definition halves : list SubPolygonResult :=
  default []
    (subPolygonData
       (appState (completeSubdivision engine SubdivisionExamples.quietSteps
                    SubdivisionExamples.oneLineDrawn))).

(** The application state after the two halves have been rendered. *)
Definition halvesRendered : AppState unit :=
  renderSubPolygons halves (appState SubdivisionExamples.session).

(** All the layers of the map are set up. *)
Definition allLayers : Layers :=
  {| cadastreLayer := Some CadastreLayer;
     cadastreLinesLayer := Some CadastreLinesLayer;
     electricalLayer := Some ElectricalLayer |}.

(** A road of the cadastre. *)
Definition roadGraphic : Geo.PolygonGraphic :=
  {| polygonGeometry := rectangle 0 (-20) 100 0 sr;
     polygonAttributes := {[ "objectid" := JNum 7; "land_type" := JStr "ROAD" ]} |}.

(** A click that hits a graphic without layer data, then the parcel, then
    the road under it. *)
Definition parcelOverRoad : list HitResult :=
  [None; Some (OfCadastre parcelGraphic); Some (OfCadastre roadGraphic)].

End ClickExamples.

(* ===================================================================== *)
(** * Part II: statements and proofs                                      *)
(* ===================================================================== *)

Section JsFacts.
Import Js.

Lemma strict_eq_spec (a b : jsval) :
  b <> JNaN -> strict_eq a b = true <-> a = b.
Proof.
  intros Hb. destruct a, b; simpl; split; intros H;
    try discriminate; try reflexivity; try congruence.
  - apply Bool.eqb_prop in H. congruence.
  - inversion H. apply Bool.eqb_reflx.
  - apply Z.eqb_eq in H. congruence.
  - inversion H. apply Z.eqb_refl.
  - apply String.eqb_eq in H. congruence.
  - inversion H. apply String.eqb_refl.
Qed.

End JsFacts.

Section CadastralFacts.
Import Js Geo Cadastral.

Lemma isFrontageLine_usageLabel (line : LineFeature) :
  isFrontageLine line = true <-> usageLabel line = FRONTAGE.
Proof.
  unfold isFrontageLine, usageLabel.
  destruct (_ || _ || _ || _ || _); [tauto |].
  split; [discriminate |].
  destruct (strict_eq _ (JNum 2)); discriminate.
Qed.

Lemma frontage_condition (usageCode renderNormal : jsval) :
  strict_eq usageCode (JNum 1) || strict_eq usageCode (JStr "1-Y")
  || strict_eq usageCode (JStr "1-N") || strict_eq renderNormal (JStr "1-Y")
  || strict_eq renderNormal (JStr "1-N") = true
  <-> (usageCode = JNum 1 \/ usageCode = JStr "1-Y" \/ usageCode = JStr "1-N"
       \/ renderNormal = JStr "1-Y" \/ renderNormal = JStr "1-N").
Proof.
  rewrite !orb_true_iff, !strict_eq_spec by discriminate. tauto.
Qed.

(** C3.  Every boundary line gets exactly one label: FRONTAGE exactly when
    its usage code is the number 1 or one of the strings "1-Y", "1-N", or
    its render_normal is "1-Y" or "1-N"; INTERIOR exactly when its usage
    code is the number 2 and it is not frontage; OTHER in every remaining
    case.  The frontage filter applied afterwards selects exactly the lines
    labelled FRONTAGE. *)
Theorem usageLabel_classification (line : LineFeature) :
  let usageCode := get (attributes line) "usage_code" in
  let renderNormal := get (attributes line) "render_normal" in
  let frontage :=
    usageCode = JNum 1 \/ usageCode = JStr "1-Y" \/ usageCode = JStr "1-N"
    \/ renderNormal = JStr "1-Y" \/ renderNormal = JStr "1-N" in
  (usageLabel line = FRONTAGE <-> frontage)
  /\ (usageLabel line = INTERIOR <-> usageCode = JNum 2 /\ ~ frontage)
  /\ (usageLabel line = OTHER <-> usageCode <> JNum 2 /\ ~ frontage)
  /\ (isFrontageLine line = true <-> usageLabel line = FRONTAGE).
Proof.
  cbv zeta.
  pose proof (frontage_condition (get (attributes line) "usage_code")
                (get (attributes line) "render_normal")) as Hf.
  pose proof (strict_eq_spec (get (attributes line) "usage_code") (JNum 2)
                ltac:(discriminate)) as H2.
  split; [| split; [| split]]; [| | | apply isFrontageLine_usageLabel];
    unfold usageLabel;
    destruct (_ || _ || _ || _ || _);
    destruct (strict_eq _ (JNum 2));
    intuition (try discriminate; try congruence).
Qed.

End CadastralFacts.

Section MatcherFacts.
Import Js Geo Subdivision.

(** C4.  An edge matches a reference line exactly when the distance from
    its start point to the line and the distance from its end point to the
    line are both at most 2 metres (no other point of the edge is looked
    at), and the answer is the same for the edge taken in the other
    direction. *)
Theorem edgeMatchesFrontageLine_endpoints (ge : GeometryEngine) (edge : Edge)
    (referenceLine : Polyline) (sr : SpatialReference) :
  (edgeMatchesFrontageLine edge referenceLine ge sr = true
   <-> (distance ge (GPoint (pointOf (edgeStart edge) sr)) (GPolyline referenceLine) <= 2
        /\ distance ge (GPoint (pointOf (edgeEnd edge) sr)) (GPolyline referenceLine) <= 2)%Q)
  /\ edgeMatchesFrontageLine (reversed edge) referenceLine ge sr
     = edgeMatchesFrontageLine edge referenceLine ge sr.
Proof.
  unfold edgeMatchesFrontageLine, reversed, pointOf; simpl. split.
  - rewrite andb_true_iff, !Qle_bool_iff. reflexivity.
  - apply andb_comm.
Qed.

End MatcherFacts.

Section CuttingFacts.
Import Js Geo Subdivision.

Variable ge : GeometryEngine.






End CuttingFacts.

Section ClickFacts.
Import Js Geo Subdivision.

Context {W : Type}.
Variable ge : GeometryEngine.

Lemma getSubdivisionLines_withLayer_marker (st : State W) (p : Point) (t : PointType) :
  getSubdivisionLines
    (withLayer (subdivisionLayer (appState st) ++ [PointMarker p t]) st)
  = getSubdivisionLines st.
Proof.
  unfold getSubdivisionLines; simpl. rewrite omap_app; simpl.
  apply app_nil_r.
Qed.

Lemma typeClick_cases (pointsSoFar : nat) (isInside : bool) (d : Q)
    (nearestEdgePoint pointGeometry mapPoint : Point) :
  let snappedPoint :=
    {| point := nearestEdgePoint; type := boundary; snapped := true;
       originalClick := mapPoint |} in
  let rawPoint :=
    {| point := pointGeometry; type := midpoint; snapped := false;
       originalClick := mapPoint |} in
  let pd := typeClick pointsSoFar isInside d nearestEdgePoint pointGeometry mapPoint in
  (pointsSoFar = 0%nat -> pd = snappedPoint)
  /\ (isInside = false -> pd = snappedPoint)
  /\ (isInside = true -> (d < 5)%Q -> pd = snappedPoint)
  /\ (pointsSoFar <> 0%nat -> isInside = true -> (5 <= d)%Q -> pd = rawPoint).
Proof.
  cbv zeta. unfold typeClick, Qlt_bool.
  destruct (Nat.eqb_spec pointsSoFar 0) as [-> | Hn];
    [repeat split; intros; (reflexivity || contradiction) |].
  destruct isInside; simpl;
    [| repeat split; intros; (reflexivity || discriminate)].
  destruct (Qle_bool 5 d) eqn:Hd; simpl.
  - apply Qle_bool_iff in Hd.
    repeat split; intros; try reflexivity; try contradiction; try discriminate.
    exfalso. eapply Qlt_not_le; eassumption.
  - repeat split; intros; try reflexivity; try contradiction; try discriminate.
    match goal with H : (5 <= d)%Q |- _ => apply Qle_bool_iff in H end.
    congruence.
Qed.

(** One click of an active session, when the ring yields a nearest point. *)
Lemma handleSubdivisionClick_active (st : State W) (polygon : Polygon)
    (mapPoint nearestEdgePoint : Point) :
  subdivisionMode st = true ->
  currentPolygonGeometry st = Some polygon ->
  findNearestEdgePoint ge mapPoint polygon = Ok (Some nearestEdgePoint) ->
  let pointGeometry :=
    {| x := x mapPoint; y := y mapPoint; pointSR := pointSR mapPoint |} in
  let pd :=
    typeClick (length (drawingPoints st))
      (contains ge (GPolygon polygon) (GPoint pointGeometry))
      (distance ge (GPoint pointGeometry) (GPoint nearestEdgePoint))
      nearestEdgePoint pointGeometry mapPoint in
  exists st',
    handleSubdivisionClick ge mapPoint st = Ok (st', true)
    /\ subdivisionMode st' = true
    /\ currentPolygonGeometry st' = Some polygon
    /\ ((2 <= length (drawingPoints st ++ [pd]))%nat /\ type pd = boundary ->
        drawingPoints st' = []
        /\ exists first,
             head (drawingPoints st) = Some first
             /\ getSubdivisionLines st'
                = (getSubdivisionLines st
                   ++ [lineGraphicOf (pointSR (point first))
                         (drawingPoints st ++ [pd])])%list)
    /\ (~ ((2 <= length (drawingPoints st ++ [pd]))%nat /\ type pd = boundary) ->
        drawingPoints st' = (drawingPoints st ++ [pd])%list
        /\ getSubdivisionLines st' = getSubdivisionLines st).
Proof.
  intros Hmode Hpoly Hnear pointGeometry pd.
  unfold handleSubdivisionClick. rewrite Hpoly, Hmode. simpl negb. cbv iota.
  rewrite Hnear. unfold bind. cbv iota. fold pointGeometry. fold pd.
  cbn [drawingPoints withLayer withDrawingPoints].
  destruct ((2 <=? length (drawingPoints st ++ [pd]))%nat && isBoundary (type pd))
    eqn:Hfin.
  - apply andb_true_iff in Hfin as [Hlen Hb]. apply Nat.leb_le in Hlen.
    eexists; split; [reflexivity |].
    assert (Hty : type pd = boundary) by (destruct (type pd); [reflexivity | discriminate]).
    destruct (drawingPoints st) as [| first rest] eqn:Hpts.
    { simpl in Hlen. lia. }
    unfold drawSubdivisionLine.
    cbn [drawingPoints withLayer withDrawingPoints app subdivisionLayer].
    assert (Hdraw : exists second rest', (rest ++ [pd])%list = second :: rest').
    { destruct rest as [| second rest']; simpl; eauto. }
    destruct Hdraw as (second & rest' & Hdraw).
    unfold drawSubdivisionLine.
    cbn [drawingPoints withLayer withDrawingPoints].
    change ((first :: rest) ++ [pd])%list with (first :: rest ++ [pd])%list.
    rewrite Hdraw. rewrite <- Hdraw.
    cbn [subdivisionMode currentPolygonGeometry drawingPoints withLayer
         withDrawingPoints].
    split; [exact Hmode | split; [exact Hpoly | split]].
    + intros _. split; [reflexivity |]. exists first. split; [reflexivity |].
      unfold getSubdivisionLines.
      cbn [appState subdivisionLayer withLayer withDrawingPoints].
      rewrite !omap_app. simpl. rewrite app_nil_r. reflexivity.
    + intros Hno. exfalso. apply Hno. split; [exact Hlen | exact Hty].
  - eexists; split; [reflexivity |].
    cbn [subdivisionMode currentPolygonGeometry drawingPoints withLayer
         withDrawingPoints].
    split; [exact Hmode | split; [exact Hpoly | split]].
    + intros [Hlen Hty]. apply Nat.leb_le in Hlen. rewrite Hlen, Hty in Hfin.
      discriminate.
    + intros _. split; [reflexivity |].
      apply (getSubdivisionLines_withLayer_marker
               (withDrawingPoints (drawingPoints st ++ [pd]) st)).
Qed.

End ClickFacts.

Section SessionFacts.
Import Js Geo Subdivision.

Context {W : Type}.
Variable ge : GeometryEngine.

(** C5 (as the code has it).  In an active session every click whose
    nearest boundary point exists is accepted and typed: the first point of
    a line, a click outside the parcel, and a click inside at strictly less
    than 5 m from the boundary are snapped to the nearest boundary point
    and marked boundary; a later click inside at 5 m or more keeps its raw
    position and is marked midpoint.  The line is finalised exactly when
    the accumulator then holds at least two points and the point just added
    is boundary.  Starting a line with the clicks outside, inside far from
    the boundary, outside yields exactly one new line, built from three
    points tagged boundary, midpoint, boundary, described as
    "boundary to midpoint to boundary". *)
Theorem click_typing_and_line_completion (st : State W) (polygon : Polygon) :
  subdivisionMode st = true ->
  currentPolygonGeometry st = Some polygon ->
  (forall mapPoint nearestEdgePoint,
      findNearestEdgePoint ge mapPoint polygon = Ok (Some nearestEdgePoint) ->
      let pointGeometry :=
        {| x := x mapPoint; y := y mapPoint; pointSR := pointSR mapPoint |} in
      let isInside := contains ge (GPolygon polygon) (GPoint pointGeometry) in
      let d := distance ge (GPoint pointGeometry) (GPoint nearestEdgePoint) in
      let snappedPoint :=
        {| point := nearestEdgePoint; type := boundary; snapped := true;
           originalClick := mapPoint |} in
      let rawPoint :=
        {| point := pointGeometry; type := midpoint; snapped := false;
           originalClick := mapPoint |} in
      exists pd st',
        handleSubdivisionClick ge mapPoint st = Ok (st', true)
        /\ (drawingPoints st = [] -> pd = snappedPoint)
        /\ (isInside = false -> pd = snappedPoint)
        /\ (isInside = true -> (d < 5)%Q -> pd = snappedPoint)
        /\ (drawingPoints st <> [] -> isInside = true -> (5 <= d)%Q -> pd = rawPoint)
        /\ ((2 <= length (drawingPoints st ++ [pd]))%nat /\ type pd = boundary ->
            drawingPoints st' = []
            /\ exists first,
                 head (drawingPoints st) = Some first
                 /\ getSubdivisionLines st'
                    = (getSubdivisionLines st
                       ++ [lineGraphicOf (pointSR (point first))
                             (drawingPoints st ++ [pd])])%list)
        /\ (~ ((2 <= length (drawingPoints st ++ [pd]))%nat /\ type pd = boundary) ->
            drawingPoints st' = (drawingPoints st ++ [pd])%list
            /\ getSubdivisionLines st' = getSubdivisionLines st))
  /\ (drawingPoints st = [] ->
      forall c1 c2 c3 n1 n2 n3,
        findNearestEdgePoint ge c1 polygon = Ok (Some n1) ->
        findNearestEdgePoint ge c2 polygon = Ok (Some n2) ->
        findNearestEdgePoint ge c3 polygon = Ok (Some n3) ->
        let asPoint c := {| x := x c; y := y c; pointSR := pointSR c |} in
        contains ge (GPolygon polygon) (GPoint (asPoint c1)) = false ->
        contains ge (GPolygon polygon) (GPoint (asPoint c2)) = true ->
        (5 <= distance ge (GPoint (asPoint c2)) (GPoint n2))%Q ->
        contains ge (GPolygon polygon) (GPoint (asPoint c3)) = false ->
        exists st3 pd1 pd2 pd3 line,
          handleClicks ge [c1; c2; c3] st = Ok st3
          /\ map type [pd1; pd2; pd3] = [boundary; midpoint; boundary]
          /\ map point [pd1; pd2; pd3] = [n1; asPoint c2; n3]
          /\ line = lineGraphicOf (pointSR n1) [pd1; pd2; pd3]
          /\ getSubdivisionLines st3 = (getSubdivisionLines st ++ [line])%list
          /\ pointCount line = 3%nat
          /\ subdivisionType line = "boundary to midpoint to boundary"
          /\ drawingPoints st3 = []).
Proof.
  intros Hmode Hpoly. split.
  - intros mapPoint nearestEdgePoint Hnear. cbv zeta.
    destruct (handleSubdivisionClick_active ge st polygon mapPoint nearestEdgePoint
                Hmode Hpoly Hnear) as (st' & Hrun & _ & _ & Hfin & Hnot).
    eexists; exists st'. split; [exact Hrun |].
    pose proof (typeClick_cases (length (drawingPoints st))
                  (contains ge (GPolygon polygon)
                     (GPoint {| x := x mapPoint; y := y mapPoint;
                                pointSR := pointSR mapPoint |}))
                  (distance ge
                     (GPoint {| x := x mapPoint; y := y mapPoint;
                                pointSR := pointSR mapPoint |})
                     (GPoint nearestEdgePoint))
                  nearestEdgePoint
                  {| x := x mapPoint; y := y mapPoint; pointSR := pointSR mapPoint |}
                  mapPoint) as (T1 & T2 & T3 & T4).
    split; [| split; [exact T2 | split; [exact T3 | split; [| split]]]].
    + intros Hnil. apply T1. rewrite Hnil. reflexivity.
    + intros Hne. apply T4. destruct (drawingPoints st); [contradiction | discriminate].
    + exact Hfin.
    + exact Hnot.
  - intros Hnil c1 c2 c3 n1 n2 n3 N1 N2 N3 asPoint O1 I2 D2 O3.
    (* first click *)
    destruct (handleSubdivisionClick_active ge st polygon c1 n1 Hmode Hpoly N1)
      as (st1 & R1 & M1 & P1 & _ & K1).
    cbv zeta in K1. rewrite Hnil in K1. simpl length in K1. simpl app in K1.
    fold (asPoint c1) in K1. rewrite O1 in K1.
    destruct K1 as [Pts1 L1]; [simpl; lia |].
    change (typeClick 0 false (distance ge (GPoint (asPoint c1)) (GPoint n1)) n1
              (asPoint c1) c1)
      with {| point := n1; type := boundary; snapped := true; originalClick := c1 |}
      in Pts1.
    (* second click *)
    destruct (handleSubdivisionClick_active ge st1 polygon c2 n2 M1 P1 N2)
      as (st2 & R2 & M2 & P2 & _ & K2).
    cbv zeta in K2. rewrite Pts1 in K2. simpl length in K2.
    fold (asPoint c2) in K2. rewrite I2 in K2.
    assert (T2 : typeClick 1 true (distance ge (GPoint (asPoint c2)) (GPoint n2))
                   n2 (asPoint c2) c2
                 = {| point := asPoint c2; type := midpoint; snapped := false;
                      originalClick := c2 |}).
    { apply typeClick_cases; [discriminate | reflexivity | exact D2]. }
    rewrite T2 in K2.
    destruct K2 as [Pts2 L2]; [simpl; intros [_ Hb]; discriminate |].
    simpl app in Pts2.
    (* third click *)
    destruct (handleSubdivisionClick_active ge st2 polygon c3 n3 M2 P2 N3)
      as (st3 & R3 & _ & _ & K3 & _).
    cbv zeta in K3. rewrite Pts2 in K3. simpl length in K3.
    fold (asPoint c3) in K3. rewrite O3 in K3.
    change (typeClick 2 false (distance ge (GPoint (asPoint c3)) (GPoint n3)) n3
              (asPoint c3) c3)
      with {| point := n3; type := boundary; snapped := true; originalClick := c3 |}
      in K3.
    simpl app in K3.
    destruct K3 as [Pts3 (first & Hfirst & L3)]; [split; [simpl; lia | reflexivity] |].
    simpl in Hfirst. injection Hfirst as <-.
    exists st3,
      {| point := n1; type := boundary; snapped := true; originalClick := c1 |},
      {| point := asPoint c2; type := midpoint; snapped := false; originalClick := c2 |},
      {| point := n3; type := boundary; snapped := true; originalClick := c3 |}.
    eexists.
    split.
    { simpl. rewrite R1. simpl. rewrite R2. simpl. rewrite R3. reflexivity. }
    split; [reflexivity |].
    split; [reflexivity |].
    split; [reflexivity |].
    split; [rewrite L3, L2, L1; reflexivity |].
    split; [reflexivity |].
    split; [reflexivity | exact Pts3].
Qed.

End SessionFacts.

Section CompletionFacts.
Import Js Geo Subdivision.

Context {W : Type}.
Variable ge : GeometryEngine.
Variable steps : Collaborators W.

Lemma reportFailure_session (message : string) (a : AppState W) (st : State W) :
  let st' := reportFailure message (withApp a st) in
  alerts st' = (alerts st ++ [("Subdivision failed: " ++ message)%string])%list
  /\ subdivisionMode st' = subdivisionMode st
  /\ currentPolygonGeometry st' = currentPolygonGeometry st
  /\ currentPolygonGraphic st' = currentPolygonGraphic st
  /\ drawingPoints st' = drawingPoints st
  /\ appState st' = a.
Proof. cbv zeta. repeat split. Qed.

Lemma withApp_same (st : State W) : withApp (appState st) st = st.
Proof. destruct st; reflexivity. Qed.

(** Node generation starts one assignment for each sub-polygon that has
    frontage, in order, and writes nothing of [appState] but the world. *)
Lemma generateElectricalNodesForSubPolygons_world
    (results : list SubPolygonResult) (a : AppState W) :
  let a1 := generateElectricalNodesForSubPolygons steps results a in
  subdivisionLayer a1 = subdivisionLayer a
  /\ currentFrontageLines a1 = currentFrontageLines a
  /\ subPolygonData a1 = subPolygonData a
  /\ world a1
     = fold_left (fun w result =>
                    startNodeAssignment steps (subPolygonGraphic result)
                      (frontageLines result) w)
                 (List.filter hasFrontage results) (world a).
Proof.
  cbv zeta. unfold generateElectricalNodesForSubPolygons. revert a.
  induction results as [| result rest IH]; intros a; [repeat split |].
  simpl. destruct (hasFrontage result).
  - destruct (IH (withWorld (startNodeAssignment steps (subPolygonGraphic result)
                               (frontageLines result) (world a)) a))
      as (L & F & D & Wd).
    rewrite L, F, D, Wd. repeat split.
  - apply IH.
Qed.

(** What [completeSubdivision] returns when [stage] raises. *)
Lemma completeSubdivision_raises (st : State W) (stage : Stage) (message : string) :
  currentPolygonGraphic st <> None ->
  getSubdivisionLines st <> [] ->
  raises ge steps st stage message ->
  exists a,
    completeSubdivision ge steps st = reportFailure message (withApp a st)
    /\ (beforeRendering stage = true -> a = appState st)
    /\ (beforeRendering stage = false ->
        exists results,
          a = fst (updateNodeVisualizationForSubPolygons steps results
                     (generateElectricalNodesForSubPolygons steps results
                        (renderSubPolygons results (appState st))))).
Proof.
  intros Hgraphic Hlines Hraise. unfold completeSubdivision.
  destruct Hraise as [polygon msg Hp Hcut
                     | polygon graphic subs msg Hp Hg Hcut Hres
                     | polygon graphic subs results a' msg Hp Hg Hcut Hres Hupd].
  - rewrite Hp. destruct (currentPolygonGraphic st) as [graphic |]; [| contradiction].
    destruct (getSubdivisionLines st) as [| l ls] eqn:Hl; [contradiction |].
    rewrite Hcut. exists (appState st). rewrite withApp_same.
    split; [reflexivity | split; [reflexivity | discriminate]].
  - rewrite Hp, Hg.
    destruct (getSubdivisionLines st) as [| l ls] eqn:Hl; [contradiction |].
    rewrite Hcut, Hres. exists (appState st). rewrite withApp_same.
    split; [reflexivity | split; [reflexivity | discriminate]].
  - rewrite Hp, Hg.
    destruct (getSubdivisionLines st) as [| l ls] eqn:Hl; [contradiction |].
    rewrite Hcut, Hres. cbv zeta. rewrite Hupd. exists a'.
    split; [reflexivity | split; [discriminate |]].
    intros _. exists results. rewrite Hupd. reflexivity.
Qed.

(** A completion that has a polygon and lines either raises at one of the
    three stages or ends idle with the alert of a successful completion. *)
Lemma completeSubdivision_outcome (st : State W) (polygon : Polygon)
    (graphic : PolygonGraphic) :
  currentPolygonGeometry st = Some polygon ->
  currentPolygonGraphic st = Some graphic ->
  getSubdivisionLines st <> [] ->
  (exists stage message, raises ge steps st stage message)
  \/ (idle (completeSubdivision ge steps st)
      /\ exists count,
           alerts (completeSubdivision ge steps st)
           = (alerts st ++ [completeMessage count])%list).
Proof.
  intros Hp Hg Hlines.
  destruct (cutPolygons ge (getSubdivisionLines st) [polygon])
    as [subs | message] eqn:Hcut.
  2: { left. exists Cutting, message. apply (raises_cutting _ _ _ polygon); assumption. }
  destruct (subPolygonResultsFrom ge graphic
              (default [] (currentFrontageLines (appState st))) 0 subs)
    as [results | message] eqn:Hres.
  2: { left. exists FrontagePropagation, message.
       apply (raises_propagation _ _ _ polygon graphic subs); assumption. }
  destruct (updateNodeVisualizationForSubPolygons steps results
              (generateElectricalNodesForSubPolygons steps results
                 (renderSubPolygons results (appState st))))
    as [a' [message |]] eqn:Hupd.
  { left. exists Visualization, message.
    apply (raises_visualization _ _ _ polygon graphic subs results a'); assumption. }
  right. unfold completeSubdivision. rewrite Hp, Hg.
  destruct (getSubdivisionLines st) as [| l ls] eqn:Hl; [contradiction |].
  rewrite Hcut, Hres. cbv zeta. rewrite Hupd.
  split; [repeat split |]. exists (length subs). reflexivity.
Qed.

(** C2 (as the code has it).  When an exception is raised while cutting,
    propagating frontage or refreshing the visualisation, the completion
    stops there and the error is reported to the user; subdivision mode is
    not left: the mode flag, the selected polygon and the pending points
    stay as they were.  Nothing is rolled back: an exception raised while
    cutting or propagating frontage leaves [appState] untouched, and one
    raised after rendering leaves the sub-polygon results stored in
    [appState] and their graphics on the subdivision layer.  Node generation
    cannot stop the completion: it starts one assignment for each
    sub-polygon with frontage and awaits none, so an assignment that raises
    is not seen; a completion that is not stopped at one of the three stages
    ends with the alert of a successful completion and leaves the mode. *)
Theorem completeSubdivision_failure_keeps_session (st : State W)
    (polygon : Polygon) (graphic : PolygonGraphic) :
  keepSubPolygons steps ->
  currentPolygonGeometry st = Some polygon ->
  currentPolygonGraphic st = Some graphic ->
  getSubdivisionLines st <> [] ->
  let st' := completeSubdivision ge steps st in
  (forall stage message,
      raises ge steps st stage message ->
      alerts st' = (alerts st ++ [("Subdivision failed: " ++ message)%string])%list
      /\ subdivisionMode st' = subdivisionMode st
      /\ currentPolygonGeometry st' = Some polygon
      /\ currentPolygonGraphic st' = Some graphic
      /\ drawingPoints st' = drawingPoints st
      /\ (beforeRendering stage = true -> appState st' = appState st)
      /\ (beforeRendering stage = false ->
          exists results,
            subPolygonData (appState st') = Some results
            /\ subdivisionLayer (appState st')
               = (subdivisionLayer (appState st)
                  ++ imap subPolygonGraphicOf results)%list))
  /\ ((exists stage message, raises ge steps st stage message)
      \/ (idle st'
          /\ exists count,
               alerts st' = (alerts st ++ [completeMessage count])%list))
  /\ (forall results,
         let rendered := renderSubPolygons results (appState st) in
         let a := generateElectricalNodesForSubPolygons steps results rendered in
         subdivisionLayer a = subdivisionLayer rendered
         /\ currentFrontageLines a = currentFrontageLines rendered
         /\ subPolygonData a = Some results
         /\ world a
            = fold_left (fun w result =>
                           startNodeAssignment steps (subPolygonGraphic result)
                             (frontageLines result) w)
                        (List.filter hasFrontage results) (world (appState st))).
Proof.
  intros Hkeep Hp Hg Hlines. cbv zeta.
  split; [| split].
  - intros stage message Hraise.
    destruct (completeSubdivision_raises st stage message)
      as (a & -> & Hbefore & Hafter);
      [congruence | exact Hlines | exact Hraise |].
    destruct (reportFailure_session message a st) as (Ha & Hm & Hpg & Hgr & Hd & Happ).
    rewrite Ha, Hm, Hpg, Hgr, Hd, Happ, Hp, Hg.
    repeat (split; [reflexivity |]). split; [exact Hbefore |].
    intros Hstage. destruct (Hafter Hstage) as (results & ->).
    exists results.
    destruct (generateElectricalNodesForSubPolygons_world results
                (renderSubPolygons results (appState st))) as (L1 & _ & D1 & _).
    destruct (Hkeep results
                (generateElectricalNodesForSubPolygons steps results
                   (renderSubPolygons results (appState st)))) as (D2 & L2).
    rewrite D2, L2, D1, L1. split; reflexivity.
  - apply (completeSubdivision_outcome st polygon graphic Hp Hg Hlines).
  - intros results.
    destruct (generateElectricalNodesForSubPolygons_world results
                (renderSubPolygons results (appState st))) as (L1 & F1 & D1 & W1).
    repeat split; assumption.
Qed.

End CompletionFacts.

Section SubdivisionExamplesFacts.
Import Js Geo Subdivision Planar SubdivisionExamples.



(** C5, the claim as stated fails: a later click inside the parcel at
    exactly 5 m from the boundary is within 5 m of it, yet it keeps its raw
    position and is marked midpoint. *)
Lemma click_at_five_metres_is_midpoint :
  subdivisionMode (afterClicks [at_ 50 (-10)]) = true
  /\ map type (drawingPoints (afterClicks [at_ 50 (-10)])) = [boundary]
  /\ contains engine (GPolygon parcel) (GPoint (at_ 5 50)) = true
  /\ findNearestEdgePoint engine (at_ 5 50) parcel = Ok (Some (at_ 0 50))
  /\ (distance engine (GPoint (at_ 5 50)) (GPoint (at_ 0 50)) <= 5)%Q
  /\ exists st2,
       handleSubdivisionClick engine (at_ 5 50) (afterClicks [at_ 50 (-10)])
       = Ok (st2, true)
       /\ map type (drawingPoints st2) = [boundary; midpoint]
       /\ map snapped (drawingPoints st2) = [true; false]
       /\ map point (drawingPoints st2) = [at_ 50 0; at_ 5 50].
Proof.
  split; [reflexivity |]. split; [reflexivity |]. split; [reflexivity |].
  split; [reflexivity |].
  split; [apply Qle_bool_iff; reflexivity |].
  eexists. split; [vm_compute; reflexivity |].
  split; [reflexivity |]. split; reflexivity.
Qed.

Lemma click_typing_and_line_completion_witness :
  exists st3 line,
    handleClicks engine [at_ 50 (-10); at_ 50 50; at_ 50 120] session = Ok st3
    /\ getSubdivisionLines st3 = [line]
    /\ pointCount line = 3%nat
    /\ subdivisionType line = "boundary to midpoint to boundary"
    /\ drawingPoints st3 = [].
Proof.
  destruct (click_typing_and_line_completion engine session parcel
              eq_refl eq_refl) as [_ Hrun].
  destruct (Hrun eq_refl (at_ 50 (-10)) (at_ 50 50) (at_ 50 120)
              (at_ 50 0) (at_ 50 0) (at_ 50 100)
              eq_refl eq_refl eq_refl eq_refl eq_refl
              ltac:(apply Qle_bool_iff; reflexivity) eq_refl)
    as (st3 & pd1 & pd2 & pd3 & line & H1 & _ & _ & _ & H2 & H3 & H4 & H5).
  exists st3, line. repeat split; assumption.
Defined.

Lemma visualization_raises_after_rendering :
  raises engine failingVisualization oneLineDrawn Visualization "visualization failed".
Proof.
  apply (raises_visualization _ _ _ parcel parcelGraphic
           [rectangle 0 0 50 100 sr; rectangle 50 0 100 100 sr]
           ClickExamples.halves
           (renderSubPolygons ClickExamples.halves (appState oneLineDrawn))).
  - reflexivity.
  - reflexivity.
  - vm_compute. reflexivity.
  - vm_compute. reflexivity.
  - vm_compute. reflexivity.
Qed.

(** C2, the claim as stated fails.  With a cut that raises, the error is
    reported but the session is still in subdivision mode; with a
    visualisation step that raises, the sub-polygon results computed before
    it stay stored in [appState]. *)
Lemma failed_completion_stays_in_subdivision_mode :
  (raises engineWithFailingCut quietSteps oneLineDrawn Cutting "cut failed"
   /\ alerts (completeSubdivision engineWithFailingCut quietSteps oneLineDrawn)
      = ["Subdivision failed: cut failed"]
   /\ subdivisionMode (completeSubdivision engineWithFailingCut quietSteps oneLineDrawn)
      = true
   /\ ~ idle (completeSubdivision engineWithFailingCut quietSteps oneLineDrawn))
  /\ (raises engine failingVisualization oneLineDrawn Visualization
        "visualization failed"
      /\ subPolygonData (appState oneLineDrawn) = None
      /\ alerts (completeSubdivision engine failingVisualization oneLineDrawn)
         = ["Subdivision failed: visualization failed"]
      /\ option_map (map index)
           (subPolygonData
              (appState (completeSubdivision engine failingVisualization oneLineDrawn)))
         = Some [0%nat; 1%nat]
      /\ ~ idle (completeSubdivision engine failingVisualization oneLineDrawn)).
Proof.
  split.
  - split; [apply (raises_cutting _ _ _ parcel); reflexivity |].
    split; [reflexivity |]. split; [reflexivity |].
    intros [Hmode _]. discriminate.
  - split; [exact visualization_raises_after_rendering |].
    split; [reflexivity |]. split; [reflexivity |]. split; [reflexivity |].
    intros [Hmode _]. discriminate.
Qed.

(** The visualisation step raises after the two halves have been rendered:
    the failure is alerted, the session stays in subdivision mode and the
    halves stay recorded with their graphics on the layer. *)
Lemma completeSubdivision_failure_keeps_session_witness :
  alerts (completeSubdivision engine failingVisualization oneLineDrawn)
  = (alerts oneLineDrawn ++ [("Subdivision failed: " ++ "visualization failed")%string])%list
  /\ subdivisionMode (completeSubdivision engine failingVisualization oneLineDrawn)
     = subdivisionMode oneLineDrawn
  /\ currentPolygonGeometry (completeSubdivision engine failingVisualization oneLineDrawn)
     = Some parcel
  /\ drawingPoints (completeSubdivision engine failingVisualization oneLineDrawn)
     = drawingPoints oneLineDrawn
  /\ exists results,
       subPolygonData
         (appState (completeSubdivision engine failingVisualization oneLineDrawn))
       = Some results
       /\ subdivisionLayer
            (appState (completeSubdivision engine failingVisualization oneLineDrawn))
          = (subdivisionLayer (appState oneLineDrawn)
             ++ imap subPolygonGraphicOf results)%list.
Proof.
  destruct (completeSubdivision_failure_keeps_session engine failingVisualization
              oneLineDrawn parcel parcelGraphic) as (Hfail & _ & _).
  - intros results a. simpl. split; reflexivity.
  - reflexivity.
  - reflexivity.
  - vm_compute. discriminate.
  - destruct (Hfail Visualization "visualization failed"
                visualization_raises_after_rendering)
      as (Halerts & Hmode & Hpolygon & _ & Hpoints & _ & Hkept).
    split; [exact Halerts |]. split; [exact Hmode |]. split; [exact Hpolygon |].
    split; [exact Hpoints |]. apply Hkept. reflexivity.
Defined.

End SubdivisionExamplesFacts.

Section PrefilterFacts.
Import Js Geo Cadastral.

Variable ge : GeometryEngine.
Variable polygonGeometry : Polygon.

Lemma isValidLine_spec (line : LineFeature) :
  isValidLine ge polygonGeometry line = true
  <-> exists path startPoint,
        head (paths (geometry line)) = Some path
        /\ head path = Some startPoint
        /\ (2 <= length path)%nat
        /\ (distance ge (GPoint (pointOf startPoint (polylineSR (geometry line))))
              (GPolygon polygonGeometry) <= ENDPOINT_DISTANCE_THRESHOLD)%Q
        /\ (distance ge
              (GPoint (pointOf (List.last path startPoint) (polylineSR (geometry line))))
              (GPolygon polygonGeometry) <= ENDPOINT_DISTANCE_THRESHOLD)%Q.
Proof.
  unfold isValidLine.
  destruct (head (paths (geometry line))) as [path |].
  - destruct path as [| startPoint [| second rest]].
    + split; [discriminate | intros (p & s & [= <-] & [=] & _)].
    + split; [discriminate | intros (p & s & [= <-] & _ & Hlen & _)].
      simpl in Hlen. lia.
    + rewrite andb_true_iff, !Qle_bool_iff. split.
      * intros [Hs He]. exists (startPoint :: second :: rest), startPoint.
        repeat split; [simpl; lia | exact Hs | exact He].
      * intros (p & s & [= <-] & [= <-] & _ & Hs & He). split; assumption.
  - split; [discriminate | intros (p & s & [=] & _)].
Qed.

(** C7.  A queried line enters the valid set exactly when its first path
    has at least two vertices and the first and the last of them are both
    within 1.5 m of the parcel's polygon geometry; frontage lines are taken
    from the valid set only, so a line failing the test appears in neither,
    whatever its usage code. *)
Theorem validLines_need_both_endpoints_close (features : list LineFeature)
    (line : LineFeature) :
  (In line (validLines ge polygonGeometry features)
   <-> In line features
       /\ exists path startPoint,
            head (paths (geometry line)) = Some path
            /\ head path = Some startPoint
            /\ (2 <= length path)%nat
            /\ (distance ge (GPoint (pointOf startPoint (polylineSR (geometry line))))
                  (GPolygon polygonGeometry) <= 3 # 2)%Q
            /\ (distance ge
                  (GPoint (pointOf (List.last path startPoint)
                             (polylineSR (geometry line))))
                  (GPolygon polygonGeometry) <= 3 # 2)%Q)
  /\ (In line (frontageLines ge polygonGeometry features)
      <-> In line (validLines ge polygonGeometry features)
          /\ isFrontageLine line = true)
  /\ (isValidLine ge polygonGeometry line = false ->
      ~ In line (validLines ge polygonGeometry features)
      /\ ~ In line (frontageLines ge polygonGeometry features)).
Proof.
  unfold frontageLines, validLines. rewrite !filter_In.
  split; [| split].
  - rewrite isValidLine_spec. reflexivity.
  - reflexivity.
  - intros Hinvalid. rewrite Hinvalid.
    split; intros H; decompose [and] H; discriminate.
Qed.

End PrefilterFacts.

Section IdentifierFacts.
Import Js Geo Cadastral Subdivision CadastralExamples.

Lemma truthy_false_iff (v : jsval) :
  truthy v = false
  <-> v = JUndefined \/ v = JNull \/ v = JBool false \/ v = JNum 0 \/ v = JNaN
      \/ v = JStr "".
Proof.
  split.
  - destruct v as [| | [|] | n | | s]; simpl; intros H;
      try discriminate; try tauto.
    + apply negb_false_iff, Z.eqb_eq in H. subst. tauto.
    + apply negb_false_iff, String.eqb_eq in H. subst. tauto.
  - intros [-> | [-> | [-> | [-> | [-> | ->]]]]]; reflexivity.
Qed.

(** C8 (as the code has it).  The identifier is the first truthy value
    among the fields objectid, __OBJECTID, OBJECTID, taken in that order: a
    field that is missing, null, false, 0, NaN or the empty string is
    skipped.  When none is truthy the identifier is the value of OBJECTID,
    and the identifier recorded for sub-polygons is then "Unknown".  In
    particular the value 0 in objectid is passed over: the identifier is
    then what __OBJECTID and OBJECTID give, and it is 0 only when
    __OBJECTID is falsy and OBJECTID holds 0 itself. *)
Theorem polygonId_first_truthy (attributes : Attributes) :
  (truthy (get attributes "objectid") = true ->
   polygonId attributes = get attributes "objectid")
  /\ (truthy (get attributes "objectid") = false ->
      truthy (get attributes "__OBJECTID") = true ->
      polygonId attributes = get attributes "__OBJECTID")
  /\ (truthy (get attributes "objectid") = false ->
      truthy (get attributes "__OBJECTID") = false ->
      polygonId attributes = get attributes "OBJECTID")
  /\ (forall v, truthy v = false
                <-> v = JUndefined \/ v = JNull \/ v = JBool false \/ v = JNum 0
                    \/ v = JNaN \/ v = JStr "")
  /\ (forall geometry,
         originalPolygonIdOf {| polygonGeometry := geometry;
                                polygonAttributes := attributes |}
         = if truthy (polygonId attributes) then polygonId attributes
           else JStr "Unknown")
  /\ (get attributes "objectid" = JNum 0 ->
      polygonId attributes
      = Js.or (get attributes "__OBJECTID") (get attributes "OBJECTID")
      /\ (polygonId attributes = JNum 0
          <-> truthy (get attributes "__OBJECTID") = false
              /\ get attributes "OBJECTID" = JNum 0)).
Proof.
  unfold polygonId, originalPolygonIdOf, Js.or; simpl.
  split; [intros H; rewrite H; cbn; rewrite ?H; reflexivity |].
  split; [intros H1 H2; rewrite H1; cbn; rewrite H2; reflexivity |].
  split; [intros H1 H2; rewrite H1; cbn; rewrite H2; reflexivity |].
  split; [apply truthy_false_iff |].
  split; [intros geometry; reflexivity |].
  intros Hzero. rewrite Hzero. cbn. split; [reflexivity |].
  destruct (truthy (get attributes "__OBJECTID")) eqn:Hsecond.
  - split.
    + intros Heq. rewrite Heq in Hsecond. discriminate.
    + intros [Hfalse _]. discriminate.
  - split.
    + intros Heq. split; [reflexivity | exact Heq].
    + intros [_ Heq]. exact Heq.
Qed.

(** C8, the claim as stated fails: the objectid field holds the non-null
    value 0, yet the identifier resolves to the value of __OBJECTID. *)
Lemma objectid_zero_is_skipped :
  get zeroObjectId "objectid" = JNum 0
  /\ polygonId zeroObjectId = JNum 7
  /\ polygonId zeroObjectId <> JNum 0.
Proof.
  split; [reflexivity |]. split; [reflexivity |]. discriminate.
Qed.

End IdentifierFacts.

Section RegistryFacts.
Import Js Geo Electrical.
Local Open Scope list_scope.

Lemma strict_eq_eq (a b : jsval) : strict_eq a b = true -> a = b.
Proof.
  destruct a, b; simpl; intros H; try discriminate; try reflexivity.
  - apply Bool.eqb_prop in H. congruence.
  - apply Z.eqb_eq in H. congruence.
  - apply String.eqb_eq in H. congruence.
Qed.

Lemma same_value_zero_eq (a b : jsval) : same_value_zero a b = true <-> a = b.
Proof.
  split.
  - intros H. destruct a, b; try reflexivity;
      try (apply strict_eq_eq; exact H); discriminate H.
  - intros <-. destruct a; simpl; try reflexivity.
    + apply Bool.eqb_reflx.
    + apply Z.eqb_refl.
    + apply String.eqb_refl.
Qed.

Lemma includes_In (arr : list jsval) (v : jsval) : includes arr v = true <-> In v arr.
Proof.
  unfold includes. rewrite existsb_exists. split.
  - intros (w & Hw & Heq). apply same_value_zero_eq in Heq. congruence.
  - intros Hin. exists v. split; [exact Hin | apply same_value_zero_eq; reflexivity].
Qed.

Lemma occurrences_app (a b : list jsval) (v : jsval) :
  occurrences (a ++ b) v = (occurrences a v + occurrences b v)%nat.
Proof.
  unfold occurrences. rewrite List.filter_app, length_app. reflexivity.
Qed.

Lemma occurrences_zero (arr : list jsval) (v : jsval) :
  includes arr v = false -> occurrences arr v = 0%nat.
Proof.
  unfold includes, occurrences. induction arr as [| w rest IH]; simpl; [reflexivity |].
  intros H. apply orb_false_iff in H as [Hw Hrest]. rewrite Hw. apply IH, Hrest.
Qed.

Lemma occurrences_positive (arr : list jsval) (v : jsval) :
  includes arr v = true -> (1 <= occurrences arr v)%nat.
Proof.
  unfold includes, occurrences. induction arr as [| w rest IH]; simpl; [discriminate |].
  destruct (same_value_zero v w); simpl; [lia | exact IH].
Qed.

Lemma occurrences_self (v : jsval) : occurrences [v] v = 1%nat.
Proof.
  unfold occurrences. simpl.
  rewrite (proj2 (same_value_zero_eq v v) eq_refl). reflexivity.
Qed.

(** Looking an old reference up is not affected by allocation. *)
Lemma lookup_pushNew_old (node : ElectricalNode) (r : Registry) (ref : nat) :
  (ref < length (heap r))%nat ->
  heap (fst (pushNew node r)) !! ref = heap r !! ref.
Proof. intros Hlt. simpl. apply lookup_app_l. exact Hlt. Qed.

Lemma lookup_pushNew_new (node : ElectricalNode) (r : Registry) :
  heap (fst (pushNew node r)) !! length (heap r) = Some node.
Proof.
  simpl. rewrite lookup_app_r by lia. rewrite Nat.sub_diag. reflexivity.
Qed.

Lemma wellFormed_pushNew (node : ElectricalNode) (r : Registry) :
  wellFormed r -> wellFormed (fst (pushNew node r)).
Proof.
  unfold wellFormed. simpl. intros Hwf. rewrite length_app. simpl.
  apply Forall_app. split.
  - eapply Forall_impl; [exact Hwf |]. simpl. intros; lia.
  - constructor; [lia | constructor].
Qed.

Lemma wellFormed_valid (r : Registry) (ref : nat) :
  wellFormed r -> In ref (electricalNodes r) -> (ref < length (heap r))%nat.
Proof.
  unfold wellFormed. rewrite Forall_forall. intros Hwf Hin.
  apply Hwf. apply list_elem_of_In. exact Hin.
Qed.

Lemma find_ext_in {A : Type} (f g : A -> bool) (l : list A) :
  (forall a, In a l -> f a = g a) -> List.find f l = List.find g l.
Proof.
  induction l as [| a rest IH]; simpl; intros H; [reflexivity |].
  rewrite (H a) by (left; reflexivity).
  destruct (g a); [reflexivity |]. apply IH. intros b Hb. apply H. right. exact Hb.
Qed.

Lemma find_app_none {A : Type} (f : A -> bool) (l1 l2 : list A) :
  List.find f (l1 ++ l2) = None <-> List.find f l1 = None /\ List.find f l2 = None.
Proof.
  induction l1 as [| a rest IH]; simpl.
  - split; [intros H; split; [reflexivity | exact H] | intros [_ H]; exact H].
  - destruct (f a); [split; [discriminate | intros [H _]; discriminate] | exact IH].
Qed.

(** What [findById] sees of the old references after an allocation. *)
Lemma findById_pushNew (node : ElectricalNode) (r : Registry) (pickId : jsval) :
  wellFormed r ->
  findById (fst (pushNew node r)) pickId = None
  <-> findById r pickId = None /\ strict_eq (nodeId node) pickId = false.
Proof.
  intros Hwf. unfold findById, pushNew. simpl.
  rewrite find_app_none.
  rewrite (find_ext_in
             (fun ref => match (heap r ++ [node]) !! ref with
                         | Some n => strict_eq (nodeId n) pickId
                         | None => false
                         end)
             (fun ref => match heap r !! ref with
                         | Some n => strict_eq (nodeId n) pickId
                         | None => false
                         end)).
  2:{ intros ref Hin. rewrite lookup_app_l; [reflexivity |].
      apply wellFormed_valid; assumption. }
  simpl List.find. rewrite lookup_app_r by lia. rewrite Nat.sub_diag. simpl.
  destruct (strict_eq (nodeId node) pickId); intuition congruence.
Qed.

Lemma findById_some (r : Registry) (pickId : jsval) (ref : nat) :
  findById r pickId = Some ref ->
  In ref (electricalNodes r)
  /\ exists node, heap r !! ref = Some node
                  /\ strict_eq (nodeId node) pickId = true.
Proof.
  unfold findById. intros H. apply find_some in H as [Hin Hp].
  split; [exact Hin |].
  destruct (heap r !! ref) as [node |]; [| discriminate].
  exists node. split; [reflexivity | exact Hp].
Qed.


Lemma lookup_map {A B : Type} (f : A -> B) (l : list A) (i : nat) :
  map f l !! i = f <$> l !! i.
Proof.
  revert i. induction l as [| a rest IH]; intros [| i]; simpl; try reflexivity.
  apply IH.
Qed.

End RegistryFacts.




Section SplitFacts.
Import Js.






End SplitFacts.

Section PotentialNodeFacts.
Import Js Geo Electrical.
Local Open Scope list_scope.



Lemma removePotentialNodesForProperty_registry (polygonId : jsval) (r : Registry) :
  heap (fst (removePotentialNodesForProperty polygonId r)) = heap r
  /\ electricalNodes (fst (removePotentialNodesForProperty polygonId r))
     = List.filter (keptByRemoval r polygonId) (electricalNodes r).
Proof.
  unfold removePotentialNodesForProperty. simpl.
  destruct (electricalLayer r) as [graphics |]; [| split; reflexivity].
  destruct (toString polygonId); [split; reflexivity |].
  destruct (existsb isPotentialGraphic graphics); split; reflexivity.
Qed.



Lemma keptByRemoval_potentialFor (r : Registry) (polygonId : jsval) (ref : nat) :
  keptByRemoval r polygonId ref
  = negb (isPotentialRef r ref && serves r polygonId ref).
Proof.
  unfold keptByRemoval, isPotentialFor, isPotentialRef, serves.
  destruct (heap r !! ref); reflexivity.
Qed.

Lemma filter_filter_negb {A : Type} (p : A -> bool) (l : list A) :
  List.filter p (List.filter (fun a => negb (p a)) l) = [].
Proof.
  induction l as [| a rest IH]; simpl; [reflexivity |].
  destruct (p a) eqn:Hp; simpl; [exact IH | rewrite Hp; exact IH].
Qed.




End PotentialNodeFacts.

Section ScanFacts.
Import Js Geo Electrical.
Local Open Scope list_scope.

Variable ge : GeometryEngine.

(** The scan of the memory stops at the first pillar or service node that
    serves the parcel; without one it ends with a candidate. *)
Lemma scanMemory_find (r : Registry) (frontageBuffer frontageUnion : Geometry)
    (polygonId : jsval) (nodes : list nat) :
  forall bestNode shortestDistance,
    match List.find (activeServing r polygonId) nodes with
    | Some ref =>
        scanMemory ge r frontageBuffer frontageUnion polygonId nodes
          bestNode shortestDistance = Found ref
    | None =>
        exists bestNode' shortestDistance',
          scanMemory ge r frontageBuffer frontageUnion polygonId nodes
            bestNode shortestDistance = Candidate bestNode' shortestDistance'
          /\ (bestNode' = bestNode
              \/ exists ref, bestNode' = Some ref /\ In ref nodes
                             /\ isPotentialRef r ref = false)
    end.
Proof.
  induction nodes as [| ref rest IH]; intros bestNode shortestDistance.
  - simpl. eauto.
  - simpl. unfold activeServing at 1. unfold isPotentialRef at 1. unfold serves at 1.
    assert (Hkeep : forall b s,
               (b = bestNode \/ b = Some ref /\ isPotentialRef r ref = false) ->
               match List.find (activeServing r polygonId) rest with
               | Some ref' =>
                   scanMemory ge r frontageBuffer frontageUnion polygonId rest b s
                   = Found ref'
               | None =>
                   exists b' s',
                     scanMemory ge r frontageBuffer frontageUnion polygonId rest b s
                     = Candidate b' s'
                     /\ (b' = bestNode
                         \/ exists ref', b' = Some ref' /\ In ref' (ref :: rest)
                                         /\ isPotentialRef r ref' = false)
               end).
    { intros b s Hb. specialize (IH b s).
      destruct (List.find (activeServing r polygonId) rest); [exact IH |].
      destruct IH as (b' & s' & -> & Hb'). exists b', s'. split; [reflexivity |].
      destruct Hb' as [-> | (ref' & -> & Hin & Hact)].
      - destruct Hb as [-> | [-> Hact]]; [left; reflexivity |].
        right. exists ref. split; [reflexivity |].
        split; [left; reflexivity | exact Hact].
      - right. exists ref'. split; [reflexivity |].
        split; [right; exact Hin | exact Hact]. }
    destruct (heap r !! ref) as [node |] eqn:Hnode; simpl.
    2:{ apply Hkeep. left. reflexivity. }
    destruct (isPotential node) eqn:Hpot; simpl; [apply Hkeep; left; reflexivity |].
    destruct (includes (properties node) polygonId); [reflexivity |].
    assert (Hact : isPotentialRef r ref = false)
      by (unfold isPotentialRef; rewrite Hnode; exact Hpot).
    destruct (contains ge frontageBuffer (GPoint (position node)));
      [| apply Hkeep; left; reflexivity].
    destruct (closer _ shortestDistance);
      [apply Hkeep; right; split; [reflexivity | exact Hact]
      | apply Hkeep; left; reflexivity].
Qed.

Lemma scanMemory_keeps_best (r : Registry) (frontageBuffer frontageUnion : Geometry)
    (polygonId : jsval) (nodes : list nat) :
  forall best shortestDistance shortestDistance',
    scanMemory ge r frontageBuffer frontageUnion polygonId nodes
      (Some best) shortestDistance
    <> Candidate None shortestDistance'.
Proof.
  induction nodes as [| ref rest IH]; intros best s s'; simpl; [discriminate |].
  destruct (heap r !! ref) as [node |]; [| apply IH].
  destruct (isPotential node); [apply IH |].
  destruct (includes (properties node) polygonId); [discriminate |].
  destruct (contains ge frontageBuffer (GPoint (position node))); [| apply IH].
  destruct (closer _ s); apply IH.
Qed.

(** The scan ends without a candidate exactly when no pillar or service node
    serves the parcel or lies in the buffer. *)
Lemma scanMemory_none (r : Registry) (frontageBuffer frontageUnion : Geometry)
    (polygonId : jsval) (nodes : list nat) :
  (exists shortestDistance,
      scanMemory ge r frontageBuffer frontageUnion polygonId nodes None None
      = Candidate None shortestDistance)
  <-> noCandidate ge r frontageBuffer polygonId nodes.
Proof.
  induction nodes as [| ref rest IH]; simpl.
  - split; [intros _ ref node [] | eauto].
  - split.
    + intros [s Hscan] ref' node' Hin Hnode' Hactive.
      destruct (heap r !! ref) as [node |] eqn:Hnode.
      2:{ destruct Hin as [<- | Hin]; [congruence |].
          apply (proj1 IH (ex_intro _ s Hscan) ref' node' Hin Hnode' Hactive). }
      destruct (isPotential node) eqn:Hpot.
      { destruct Hin as [<- | Hin]; [congruence |].
        apply (proj1 IH (ex_intro _ s Hscan) ref' node' Hin Hnode' Hactive). }
      destruct (includes (properties node) polygonId) eqn:Hinc; [discriminate |].
      destruct (contains ge frontageBuffer (GPoint (position node))) eqn:Hcont.
      { simpl in Hscan. exfalso. eapply scanMemory_keeps_best. exact Hscan. }
      destruct Hin as [<- | Hin].
      * rewrite Hnode in Hnode'. injection Hnode' as <-. split; assumption.
      * apply (proj1 IH (ex_intro _ s Hscan) ref' node' Hin Hnode' Hactive).
    + intros Hno.
      assert (Hrest : noCandidate ge r frontageBuffer polygonId rest).
      { intros ref' node' Hin. apply Hno. right. exact Hin. }
      destruct (heap r !! ref) as [node |] eqn:Hnode; [| apply IH, Hrest].
      destruct (isPotential node) eqn:Hpot; [apply IH, Hrest |].
      destruct (Hno ref node (or_introl eq_refl) Hnode Hpot) as [-> ->].
      apply IH, Hrest.
Qed.

Lemma scanMemory_none_shortest (r : Registry) (frontageBuffer frontageUnion : Geometry)
    (polygonId : jsval) (nodes : list nat) (shortestDistance : option Q) :
  scanMemory ge r frontageBuffer frontageUnion polygonId nodes None None
  = Candidate None shortestDistance ->
  shortestDistance = None.
Proof.
  induction nodes as [| ref rest IH]; simpl; [intros [= <-]; reflexivity |].
  destruct (heap r !! ref) as [node |]; [| exact IH].
  destruct (isPotential node); [exact IH |].
  destruct (includes (properties node) polygonId); [discriminate |].
  destruct (contains ge frontageBuffer (GPoint (position node))); [| exact IH].
  simpl. intros Hscan. exfalso. eapply scanMemory_keeps_best. exact Hscan.
Qed.

End ScanFacts.

Section PillarLoopFacts.
Import Js Geo Electrical.
Local Open Scope list_scope.

Variable ge : GeometryEngine.

Lemma grownBy_refl (r : Registry) : grownBy r r [].
Proof. unfold grownBy. simpl. rewrite !app_nil_r. repeat split. Qed.

Lemma grownBy_wellFormed (r r' : Registry) (added : list PillarFeature) :
  wellFormed r -> grownBy r r' added -> wellFormed r'.
Proof.
  intros Hwf (Hheap & Hrefs & _). unfold wellFormed.
  rewrite Hrefs, Hheap, length_app, length_map. apply Forall_app. split.
  - eapply Forall_impl; [exact Hwf |]. simpl. intros; lia.
  - apply Forall_forall. intros ref Hin. apply list_elem_of_In, in_seq in Hin. lia.
Qed.

Lemma grownBy_old (r r' : Registry) (added : list PillarFeature) (ref : nat) :
  grownBy r r' added -> (ref < length (heap r))%nat -> heap r' !! ref = heap r !! ref.
Proof. intros (Hheap & _ & _) Hlt. rewrite Hheap. apply lookup_app_l, Hlt. Qed.

Lemma grownBy_new (r r' : Registry) (added : list PillarFeature) (ref : nat)
    (node : ElectricalNode) :
  grownBy r r' added -> (length (heap r) <= ref)%nat -> heap r' !! ref = Some node ->
  isPotential node = false /\ properties node = [].
Proof.
  intros (Hheap & _ & _) Hge Hnode. rewrite Hheap, lookup_app_r in Hnode by exact Hge.
  rewrite lookup_map in Hnode.
  destruct (added !! (ref - length (heap r))); [| discriminate].
  injection Hnode as <-. split; reflexivity.
Qed.

Lemma grownBy_push (r : Registry) (f : PillarFeature) (r' : Registry)
    (added : list PillarFeature) :
  grownBy (fst (pushNew (newPillarNode f) r)) r' added -> grownBy r r' (f :: added).
Proof.
  unfold grownBy, pushNew. simpl. intros (Hheap & Hrefs & Hlayer).
  rewrite Hheap, Hrefs, Hlayer, <- !app_assoc, length_app. simpl.
  rewrite Nat.add_1_r. repeat split.
Qed.

(** The pillar loop in general: it only allocates pillar entries; it can stop
    only at a node that was in memory before it started and lists the parcel. *)
Lemma scanPillars_grows (frontageUnion : Geometry) (polygonId : jsval)
    (features : list PillarFeature) :
  forall r bestNode shortestDistance,
    wellFormed r ->
    exists added r' search,
      scanPillars ge frontageUnion polygonId features r bestNode shortestDistance
      = (r', search)
      /\ grownBy r r' added
      /\ match search with
         | Found ref => In ref (electricalNodes r) /\ serves r polygonId ref = true
         | Candidate bestNode' _ =>
             bestNode' = bestNode
             \/ exists ref, bestNode' = Some ref /\ In ref (electricalNodes r')
         end.
Proof.
  induction features as [| f rest IH]; intros r bestNode shortestDistance Hwf.
  - exists [], r, (Candidate bestNode shortestDistance).
    split; [reflexivity |]. split; [apply grownBy_refl | left; reflexivity].
  - simpl. destruct (findById r (pick_id f)) as [existing |] eqn:Hfind.
    + destruct (findById_some r (pick_id f) existing Hfind) as (Hin & node & Hnode & _).
      rewrite Hnode.
      destruct (includes (properties node) polygonId) eqn:Hinc.
      { exists [], r, (Found existing). split; [reflexivity |].
        split; [apply grownBy_refl |]. split; [exact Hin |].
        unfold serves. rewrite Hnode. exact Hinc. }
      assert (Hstep : forall b s,
                 (b = bestNode \/ b = Some existing) ->
                 exists added r' search,
                   scanPillars ge frontageUnion polygonId rest r b s = (r', search)
                   /\ grownBy r r' added
                   /\ match search with
                      | Found ref =>
                          In ref (electricalNodes r) /\ serves r polygonId ref = true
                      | Candidate bestNode' _ =>
                          bestNode' = bestNode
                          \/ exists ref, bestNode' = Some ref
                                         /\ In ref (electricalNodes r')
                      end).
      { intros b s Hb. destruct (IH r b s Hwf) as (added & r' & search & Hrun & Hg & Hs).
        exists added, r', search. split; [exact Hrun |]. split; [exact Hg |].
        destruct search as [ref | b' s']; [exact Hs |].
        destruct Hs as [-> | Href]; [| right; exact Href].
        destruct Hb as [-> | ->]; [left; reflexivity |].
        right. exists existing. split; [reflexivity |].
        destruct Hg as (_ & Hrefs & _). rewrite Hrefs. apply in_or_app. left. exact Hin. }
      destruct (closer _ shortestDistance);
        [apply Hstep; right; reflexivity | apply Hstep; left; reflexivity].
    + set (r1 := fst (pushNew (newPillarNode f) r)).
      assert (Hwf1 : wellFormed r1) by (apply wellFormed_pushNew; exact Hwf).
      assert (Hstep : forall b s,
                 (b = bestNode \/ b = Some (length (heap r))) ->
                 exists added r' search,
                   scanPillars ge frontageUnion polygonId rest r1 b s = (r', search)
                   /\ grownBy r r' added
                   /\ match search with
                      | Found ref =>
                          In ref (electricalNodes r) /\ serves r polygonId ref = true
                      | Candidate bestNode' _ =>
                          bestNode' = bestNode
                          \/ exists ref, bestNode' = Some ref
                                         /\ In ref (electricalNodes r')
                      end).
      { intros b s Hb. destruct (IH r1 b s Hwf1) as (added & r' & search & Hrun & Hg & Hs).
        exists (f :: added), r', search. split; [exact Hrun |].
        split; [apply grownBy_push; exact Hg |].
        destruct search as [ref | b' s'].
        - destruct Hs as [Hin Hserves]. subst r1. simpl in Hin.
          apply in_app_or in Hin as [Hold | [<- | []]].
          + split; [exact Hold |]. unfold serves in Hserves |- *.
            cbn [pushNew fst heap] in Hserves.
            rewrite lookup_app_l in Hserves by (apply wellFormed_valid; assumption).
            exact Hserves.
          + unfold serves in Hserves. cbn [pushNew fst heap] in Hserves.
            rewrite lookup_app_r in Hserves by lia.
            rewrite Nat.sub_diag in Hserves. discriminate.
        - destruct Hs as [-> | Href]; [| right; exact Href].
          destruct Hb as [-> | ->]; [left; reflexivity |].
          right. exists (length (heap r)). split; [reflexivity |].
          destruct Hg as (_ & Hrefs & _). rewrite Hrefs. apply in_or_app. left.
          subst r1. simpl. apply in_or_app. right. left. reflexivity. }
      unfold pushNew in r1. simpl in r1. unfold pushNew.
      destruct (closer _ shortestDistance);
        [apply Hstep; right; reflexivity | apply Hstep; left; reflexivity].
Qed.

Lemma scanPillars_keeps_best (frontageUnion : Geometry) (polygonId : jsval)
    (features : list PillarFeature) :
  forall r best shortestDistance r' shortestDistance',
    scanPillars ge frontageUnion polygonId features r (Some best) shortestDistance
    <> (r', Candidate None shortestDistance').
Proof.
  induction features as [| f rest IH]; intros r best s r' s'; simpl; [discriminate |].
  destruct (findById r (pick_id f)) as [existing |].
  - destruct (heap r !! existing) as [node |]; [| apply IH].
    destruct (includes (properties node) polygonId); [discriminate |].
    destruct (closer _ s); apply IH.
  - unfold pushNew. destruct (closer _ s); apply IH.
Qed.

(** Starting without a candidate, the loop ends without one only when there
    is no feature at all. *)
Lemma scanPillars_none (frontageUnion : Geometry) (polygonId : jsval)
    (features : list PillarFeature) (r r' : Registry) (shortestDistance : option Q) :
  scanPillars ge frontageUnion polygonId features r None None
  = (r', Candidate None shortestDistance) ->
  features = [].
Proof.
  destruct features as [| f rest]; [reflexivity |]. simpl.
  destruct (findById r (pick_id f)) as [existing |] eqn:Hfind.
  - destruct (findById_some r (pick_id f) existing Hfind) as (_ & node & -> & _).
    destruct (includes (properties node) polygonId); [discriminate |].
    simpl. intros Hrun. exfalso. eapply scanPillars_keeps_best. exact Hrun.
  - unfold pushNew. simpl. intros Hrun. exfalso.
    eapply scanPillars_keeps_best. exact Hrun.
Qed.

(** The pillar query as a whole, whatever the layer answers. *)
Lemma queryPillars_grows (pillarsLayer : PillarsLayer)
    (frontageBuffer frontageUnion : Geometry) (polygonId : jsval) (r : Registry)
    (bestNode : option nat) (shortestDistance : option Q) :
  wellFormed r ->
  exists added r' search,
    queryPillars ge pillarsLayer frontageBuffer frontageUnion polygonId r
      bestNode shortestDistance = (r', search)
    /\ grownBy r r' added
    /\ match search with
       | Found ref => In ref (electricalNodes r) /\ serves r polygonId ref = true
       | Candidate bestNode' _ =>
           bestNode' = bestNode
           \/ exists ref, bestNode' = Some ref /\ In ref (electricalNodes r')
       end.
Proof.
  intros Hwf. unfold queryPillars.
  destruct pillarsLayer as [queryFeatures |].
  - destruct (queryFeatures frontageBuffer) as [features | message].
    + apply scanPillars_grows, Hwf.
    + exists [], r, (Candidate bestNode shortestDistance).
      split; [reflexivity |]. split; [apply grownBy_refl | left; reflexivity].
  - exists [], r, (Candidate bestNode shortestDistance).
    split; [reflexivity |]. split; [apply grownBy_refl | left; reflexivity].
Qed.

Lemma queryPillars_none (pillarsLayer : PillarsLayer)
    (frontageBuffer frontageUnion : Geometry) (polygonId : jsval) (r r' : Registry)
    (shortestDistance : option Q) :
  queryPillars ge pillarsLayer frontageBuffer frontageUnion polygonId r None None
  = (r', Candidate None shortestDistance) ->
  r' = r /\ pillarsSilent pillarsLayer frontageBuffer.
Proof.
  unfold queryPillars, pillarsSilent.
  destruct pillarsLayer as [queryFeatures |].
  - destruct (queryFeatures frontageBuffer) as [features | message] eqn:Hq.
    + intros Hrun. pose proof (scanPillars_none _ _ _ _ _ _ Hrun) as ->.
      simpl in Hrun. injection Hrun as <- _. split; [reflexivity |].
      intros q fs [= <-] Hfs. congruence.
    + intros [= <- _]. split; [reflexivity |]. intros q fs [= <-] Hfs. congruence.
  - intros [= <- _]. split; [reflexivity |]. intros q fs [=].
Qed.

Lemma queryPillars_silent (pillarsLayer : PillarsLayer)
    (frontageBuffer frontageUnion : Geometry) (polygonId : jsval) (r : Registry)
    (bestNode : option nat) (shortestDistance : option Q) :
  pillarsSilent pillarsLayer frontageBuffer ->
  queryPillars ge pillarsLayer frontageBuffer frontageUnion polygonId r
    bestNode shortestDistance = (r, Candidate bestNode shortestDistance).
Proof.
  unfold queryPillars, pillarsSilent. intros Hsilent.
  destruct pillarsLayer as [queryFeatures |]; [| reflexivity].
  destruct (queryFeatures frontageBuffer) as [features | message] eqn:Hq;
    [| reflexivity].
  rewrite (Hsilent queryFeatures features eq_refl Hq). reflexivity.
Qed.

End PillarLoopFacts.

Section NearbyFacts.
Import Js Geo Electrical.
Local Open Scope list_scope.

Variable ge : GeometryEngine.

Lemma find_unique {A : Type} (p : A -> bool) (l : list A) (x : A) :
  In x l -> p x = true -> (forall y, In y l -> p y = true -> y = x) ->
  List.find p l = Some x.
Proof.
  induction l as [| a rest IH]; intros Hin Hx Huniq; [contradiction |].
  simpl. destruct (p a) eqn:Ha.
  - f_equal. apply Huniq; [left; reflexivity | exact Ha].
  - destruct Hin as [-> | Hin]; [congruence |].
    apply IH; [exact Hin | exact Hx |].
    intros y Hy. apply Huniq. right. exact Hy.
Qed.

Lemma find_filter_keep {A : Type} (p k : A -> bool) (l : list A) :
  (forall y, p y = true -> k y = true) ->
  List.find p (List.filter k l) = List.find p l.
Proof.
  intros Hpk. induction l as [| a rest IH]; [reflexivity |]. simpl.
  destruct (k a) eqn:Hk; simpl.
  - destruct (p a); [reflexivity | exact IH].
  - destruct (p a) eqn:Hp; [rewrite (Hpk a Hp) in Hk; discriminate | exact IH].
Qed.

Lemma lookup_modify (f : ElectricalNode -> ElectricalNode) (target ref : nat)
    (r : Registry) :
  heap (modify f target r) !! ref
  = if decide (target = ref) then f <$> heap r !! ref else heap r !! ref.
Proof.
  unfold modify. simpl. rewrite list_lookup_alter.
  destruct (decide (target = ref)) as [-> |]; reflexivity.
Qed.

Lemma wellFormed_modify (f : ElectricalNode -> ElectricalNode) (target : nat)
    (r : Registry) :
  wellFormed r -> wellFormed (modify f target r).
Proof. unfold wellFormed, modify. simpl. rewrite length_alter. trivial. Qed.

(** Storing a centroid changes neither the kind of a node nor its parcels. *)
Lemma isPotentialRef_storeCentroid (polygonId : jsval) (c : Point) (target ref : nat)
    (r : Registry) :
  isPotentialRef (modify (storeCentroid polygonId c) target r) ref = isPotentialRef r ref.
Proof.
  unfold isPotentialRef. rewrite lookup_modify.
  destruct (decide (target = ref)); [| reflexivity].
  destruct (heap r !! ref); reflexivity.
Qed.

Lemma serves_storeCentroid (polygonId q : jsval) (c : Point) (target ref : nat)
    (r : Registry) :
  serves (modify (storeCentroid polygonId c) target r) q ref = serves r q ref.
Proof.
  unfold serves. rewrite lookup_modify.
  destruct (decide (target = ref)); [| reflexivity].
  destruct (heap r !! ref); reflexivity.
Qed.

Lemma firstServing_storeCentroid (polygonId q : jsval) (c : Point) (target : nat)
    (r : Registry) :
  firstServing (modify (storeCentroid polygonId c) target r) q = firstServing r q.
Proof.
  unfold firstServing. apply find_ext_in. intros ref _. unfold activeServing.
  rewrite isPotentialRef_storeCentroid, serves_storeCentroid. reflexivity.
Qed.

Lemma firstServing_removal (polygonId q : jsval) (r : Registry) :
  firstServing (fst (removePotentialNodesForProperty polygonId r)) q = firstServing r q.
Proof.
  destruct (removePotentialNodesForProperty_registry polygonId r) as [Hh Hn].
  unfold firstServing. rewrite Hn.
  rewrite (find_ext_in
             (activeServing (fst (removePotentialNodesForProperty polygonId r)) q)
             (activeServing r q)).
  2:{ intros ref _. unfold activeServing, isPotentialRef, serves. rewrite Hh.
      reflexivity. }
  apply find_filter_keep. intros ref Hactive.
  rewrite keptByRemoval_potentialFor. unfold activeServing in Hactive.
  apply andb_true_iff in Hactive as [Hpot _]. apply negb_true_iff in Hpot.
  rewrite Hpot. reflexivity.
Qed.

(** A node that already serves the parcel is returned as it is. *)
Lemma findNearby_first_serving (pillarsLayer : PillarsLayer)
    (frontageLines : list LineFeature) (polygonGeometry frontageUnion : Geometry)
    (polygonId : jsval) (r : Registry) (ref : nat) :
  unionFrontageLines frontageLines ge = Some frontageUnion ->
  firstServing r polygonId = Some ref ->
  findNearbyConnectionNode ge pillarsLayer frontageLines polygonGeometry polygonId r
  = (r, Some ref).
Proof.
  intros Hunion Hfirst. unfold findNearbyConnectionNode. rewrite Hunion.
  pose proof (scanMemory_find ge r (buffer ge frontageUnion SHARING_THRESHOLD)
                frontageUnion polygonId (electricalNodes r) None None) as Hscan.
  unfold firstServing in Hfirst. rewrite Hfirst in Hscan. rewrite Hscan. reflexivity.
Qed.

(** The call resolves to nothing exactly when the memory holds no candidate
    and the pillar query contributes nothing; the registry is then as before. *)
Lemma findNearby_nothing (pillarsLayer : PillarsLayer)
    (frontageLines : list LineFeature) (polygonGeometry frontageUnion : Geometry)
    (polygonId : jsval) (r : Registry) :
  unionFrontageLines frontageLines ge = Some frontageUnion ->
  (exists r', findNearbyConnectionNode ge pillarsLayer frontageLines polygonGeometry
                polygonId r = (r', None))
  <-> (findNearbyConnectionNode ge pillarsLayer frontageLines polygonGeometry
         polygonId r = (r, None)
       /\ noCandidate ge r (buffer ge frontageUnion SHARING_THRESHOLD) polygonId
            (electricalNodes r)
       /\ pillarsSilent pillarsLayer (buffer ge frontageUnion SHARING_THRESHOLD)).
Proof.
  intros Hunion. split.
  - intros [r' Hrun]. assert (Hrun' := Hrun).
    unfold findNearbyConnectionNode in Hrun. rewrite Hunion in Hrun.
    destruct (scanMemory ge r _ frontageUnion polygonId (electricalNodes r) None None)
      as [found | b s] eqn:Hscan; [discriminate |].
    destruct (queryPillars ge pillarsLayer _ frontageUnion polygonId r b s)
      as [r1 [found | [best |] s1]] eqn:Hq; [discriminate | | ].
    { destruct (heap r1 !! best) as [node |]; [| discriminate].
      destruct (includes (properties node) polygonId); discriminate. }
    injection Hrun as <-.
    destruct b as [b |].
    { exfalso. unfold queryPillars in Hq.
      destruct pillarsLayer as [queryFeatures |]; [| discriminate].
      destruct (queryFeatures _) as [features | message]; [| discriminate].
      eapply scanPillars_keeps_best. exact Hq. }
    pose proof (scanMemory_none_shortest ge _ _ _ _ _ _ Hscan) as ->.
    destruct (queryPillars_none ge _ _ _ _ _ _ _ Hq) as [-> Hsilent].
    split; [exact Hrun' |]. split; [| exact Hsilent].
    apply (scanMemory_none ge r _ frontageUnion). eauto.
  - intros (Hrun & _ & _). eauto.
Qed.

Lemma findNearby_nothing_from (pillarsLayer : PillarsLayer)
    (frontageLines : list LineFeature) (polygonGeometry frontageUnion : Geometry)
    (polygonId : jsval) (r : Registry) :
  unionFrontageLines frontageLines ge = Some frontageUnion ->
  noCandidate ge r (buffer ge frontageUnion SHARING_THRESHOLD) polygonId
    (electricalNodes r) ->
  pillarsSilent pillarsLayer (buffer ge frontageUnion SHARING_THRESHOLD) ->
  findNearbyConnectionNode ge pillarsLayer frontageLines polygonGeometry polygonId r
  = (r, None).
Proof.
  intros Hunion Hno Hsilent. unfold findNearbyConnectionNode. rewrite Hunion.
  destruct (proj2 (scanMemory_none ge r (buffer ge frontageUnion SHARING_THRESHOLD)
                     frontageUnion polygonId (electricalNodes r)) Hno) as [s Hscan].
  rewrite Hscan.
  rewrite (queryPillars_silent ge pillarsLayer _ frontageUnion polygonId r None s Hsilent).
  reflexivity.
Qed.

End NearbyFacts.

Section SharedNodeFacts.
Import Js Geo Electrical.
Local Open Scope list_scope.

Variable ge : GeometryEngine.

Lemma isPotentialRef_addProperty (polygonId : jsval) (target ref : nat) (r : Registry) :
  isPotentialRef (modify (addProperty polygonId) target r) ref = isPotentialRef r ref.
Proof.
  unfold isPotentialRef. rewrite lookup_modify.
  destruct (decide (target = ref)); [| reflexivity].
  destruct (heap r !! ref); reflexivity.
Qed.

Lemma grownBy_In (r r' : Registry) (added : list PillarFeature) (ref : nat) :
  wellFormed r -> grownBy r r' added -> In ref (electricalNodes r') ->
  (In ref (electricalNodes r) /\ (ref < length (heap r))%nat)
  \/ (length (heap r) <= ref)%nat.
Proof.
  intros Hwf (_ & Hrefs & _) Hin. rewrite Hrefs in Hin.
  apply in_app_or in Hin as [Hold | Hnew].
  - left. split; [exact Hold | apply wellFormed_valid; assumption].
  - right. apply in_seq in Hnew. lia.
Qed.

(** What a pillar or service node in the grown registry can say about the
    parcel when none in the old registry served it. *)
Lemma grownBy_not_serving (r r' : Registry) (added : list PillarFeature)
    (polygonId : jsval) (ref : nat) :
  wellFormed r -> grownBy r r' added ->
  List.find (activeServing r polygonId) (electricalNodes r) = None ->
  In ref (electricalNodes r') ->
  activeServing r' polygonId ref = false.
Proof.
  intros Hwf Hg Hnone Hin. unfold activeServing, isPotentialRef, serves.
  destruct (grownBy_In r r' added ref Hwf Hg Hin) as [[Hold Hlt] | Hge].
  - rewrite (grownBy_old r r' added ref Hg Hlt).
    apply (find_none _ _ Hnone ref Hold).
  - destruct (heap r' !! ref) as [node |] eqn:Hnode; [| reflexivity].
    destruct (grownBy_new r r' added ref node Hg Hge Hnode) as [-> ->]. reflexivity.
Qed.

(** The registry and the returned node after a search that resolves to a
    pillar or service node: that node is the first one in memory serving the
    parcel, and it lists the parcel once. *)
Lemma findNearby_shared (pillarsLayer : PillarsLayer)
    (frontageLines : list LineFeature) (polygonGeometry frontageUnion : Geometry)
    (polygonId : jsval) (r ra : Registry) (ref : nat) :
  wellFormed r ->
  unionFrontageLines frontageLines ge = Some frontageUnion ->
  findNearbyConnectionNode ge pillarsLayer frontageLines polygonGeometry polygonId r
  = (ra, Some ref) ->
  isPotentialRef ra ref = false ->
  wellFormed ra
  /\ electricalLayer ra = electricalLayer r
  /\ firstServing ra polygonId = Some ref
  /\ (noRepeatedProperties r ->
      exists node, heap ra !! ref = Some node
                   /\ occurrences (properties node) polygonId = 1%nat).
Proof.
  intros Hwf Hunion Hrun Hactive. unfold findNearbyConnectionNode in Hrun.
  rewrite Hunion in Hrun.
  pose proof (scanMemory_find ge r (buffer ge frontageUnion SHARING_THRESHOLD)
                frontageUnion polygonId (electricalNodes r) None None) as Hscan.
  destruct (List.find (activeServing r polygonId) (electricalNodes r))
    as [found |] eqn:Hfind.
  - rewrite Hscan in Hrun. injection Hrun as <- <-.
    split; [exact Hwf |]. split; [reflexivity |]. split; [exact Hfind |].
    intros Hnr. apply find_some in Hfind as [Hin Hserving].
    unfold activeServing, serves in Hserving.
    apply andb_true_iff in Hserving as [_ Hserves].
    destruct (heap r !! found) as [node |] eqn:Hnode; [| discriminate].
    exists node. split; [reflexivity |].
    pose proof (Hnr found node polygonId Hin Hnode).
    pose proof (occurrences_positive _ _ Hserves). lia.
  - destruct Hscan as (b & s & Hscan & Hb). rewrite Hscan in Hrun.
    destruct (queryPillars_grows ge pillarsLayer
                (buffer ge frontageUnion SHARING_THRESHOLD) frontageUnion polygonId
                r b s Hwf) as (added & r1 & search & Hq & Hg & Hsearch).
    rewrite Hq in Hrun.
    pose proof (grownBy_wellFormed r r1 added Hwf Hg) as Hwf1.
    destruct search as [found | [best |] s1].
    + (* stopped at a node that lists the parcel: it can only be potential *)
      injection Hrun as <- <-. destruct Hsearch as [Hin Hserves]. exfalso.
      pose proof (find_none _ _ Hfind found Hin) as Hnot.
      unfold activeServing in Hnot. rewrite Hserves, andb_true_r in Hnot.
      apply negb_false_iff in Hnot.
      unfold isPotentialRef in Hactive, Hnot.
      rewrite (grownBy_old r r1 added found Hg) in Hactive
        by (apply wellFormed_valid; assumption).
      congruence.
    + assert (Hbin : In best (electricalNodes r1)).
      { destruct Hsearch as [<- | (ref0 & [= ->] & Hin)]; [| exact Hin].
        destruct Hb as [[=] | (ref0 & [= ->] & Hin & _)].
        destruct Hg as (_ & Hrefs & _). rewrite Hrefs. apply in_or_app. left. exact Hin. }
      pose proof (grownBy_not_serving r r1 added polygonId best Hwf Hg Hfind Hbin)
        as Hbest.
      destruct (heap r1 !! best) as [node |] eqn:Hnode.
      2:{ exfalso. apply (wellFormed_valid r1 best Hwf1) in Hbin.
          apply lookup_ge_None in Hnode. lia. }
      destruct (includes (properties node) polygonId) eqn:Hinc.
      * injection Hrun as <- <-. exfalso.
        unfold activeServing, serves in Hbest. rewrite Hnode, Hinc, andb_true_r in Hbest.
        apply negb_false_iff in Hbest. congruence.
      * injection Hrun as <- <-.
        rewrite isPotentialRef_addProperty in Hactive.
        assert (Hlook : heap (modify (addProperty polygonId) best r1) !! best
                        = Some (addProperty polygonId node)).
        { rewrite lookup_modify. destruct (decide (best = best)); [| contradiction].
          rewrite Hnode. reflexivity. }
        split; [apply wellFormed_modify; exact Hwf1 |].
        split; [apply Hg |]. split.
        -- unfold firstServing. cbn [modify electricalNodes].
           apply find_unique; [exact Hbin | |].
           ++ unfold activeServing, serves.
              rewrite isPotentialRef_addProperty, Hactive, Hlook. simpl.
              apply includes_In. apply in_or_app. right. left. reflexivity.
           ++ intros y Hy Hserving. destruct (decide (best = y)) as [<- | Hne];
                [reflexivity | exfalso].
              pose proof (grownBy_not_serving r r1 added polygonId y Hwf Hg Hfind Hy)
                as Hynot.
              unfold activeServing, serves in Hserving, Hynot.
              rewrite isPotentialRef_addProperty, lookup_modify in Hserving.
              destruct (decide (best = y)); [contradiction | congruence].
        -- intros _. exists (addProperty polygonId node). split; [exact Hlook |].
           simpl. rewrite occurrences_app, (occurrences_zero _ _ Hinc), occurrences_self.
           reflexivity.
    + discriminate.
Qed.

(** A node the search itself allocated is a pillar entry, never a potential
    node. *)
Lemma findNearby_new_is_active (pillarsLayer : PillarsLayer)
    (frontageLines : list LineFeature) (polygonGeometry : Geometry)
    (polygonId : jsval) (r ra : Registry) (ref : nat) :
  wellFormed r ->
  findNearbyConnectionNode ge pillarsLayer frontageLines polygonGeometry polygonId r
  = (ra, Some ref) ->
  (length (heap r) <= ref)%nat ->
  isPotentialRef ra ref = false.
Proof.
  intros Hwf Hrun Hnew. unfold findNearbyConnectionNode in Hrun.
  destruct (unionFrontageLines frontageLines ge) as [frontageUnion |]; [| discriminate].
  pose proof (scanMemory_find ge r (buffer ge frontageUnion SHARING_THRESHOLD)
                frontageUnion polygonId (electricalNodes r) None None) as Hscan.
  destruct (List.find (activeServing r polygonId) (electricalNodes r))
    as [found |] eqn:Hfind.
  - rewrite Hscan in Hrun. injection Hrun as <- <-.
    apply find_some in Hfind as [Hin _].
    apply (wellFormed_valid r found Hwf) in Hin. lia.
  - destruct Hscan as (b & s & Hscan & Hb). rewrite Hscan in Hrun.
    destruct (queryPillars_grows ge pillarsLayer
                (buffer ge frontageUnion SHARING_THRESHOLD) frontageUnion polygonId
                r b s Hwf) as (added & r1 & search & Hq & Hg & Hsearch).
    rewrite Hq in Hrun.
    assert (Hfresh : isPotentialRef r1 ref = false).
    { unfold isPotentialRef. destruct (heap r1 !! ref) as [node |] eqn:Hnode;
        [| reflexivity].
      apply (grownBy_new r r1 added ref node Hg Hnew Hnode). }
    destruct search as [found | [best |] s1].
    + injection Hrun as <- <-. exact Hfresh.
    + destruct (heap r1 !! best) as [node |].
      * destruct (includes (properties node) polygonId); injection Hrun as <- <-;
          [exact Hfresh | rewrite isPotentialRef_addProperty; exact Hfresh].
      * injection Hrun as <- <-. exact Hfresh.
    + discriminate.
Qed.

End SharedNodeFacts.

Section PillarQueryFacts.
Import Js Geo Electrical.
Local Open Scope list_scope.

Variable ge : GeometryEngine.

Lemma grownBy_keeps_unserved (r r' : Registry) (added : list PillarFeature)
    (polygonId : jsval) (ref : nat) :
  grownBy r r' added -> serves r polygonId ref = false ->
  serves r' polygonId ref = false.
Proof.
  intros Hg Hs. unfold serves in *.
  destruct (Nat.lt_ge_cases ref (length (heap r))) as [Hlt | Hge].
  - rewrite (grownBy_old r r' added ref Hg Hlt). exact Hs.
  - destruct (heap r' !! ref) as [node |] eqn:Hnode; [| reflexivity].
    destruct (grownBy_new r r' added ref node Hg Hge Hnode) as [_ ->]. reflexivity.
Qed.

Lemma matchesUnserved_rest (r : Registry) (polygonId : jsval) (f : PillarFeature)
    (rest : list PillarFeature) :
  matchesUnserved r polygonId (f :: rest) -> matchesUnserved r polygonId rest.
Proof. intros H g ref node Hg. apply H. right. exact Hg. Qed.

Lemma matchesUnserved_pushNew (r : Registry) (polygonId : jsval) (f : PillarFeature)
    (features : list PillarFeature) :
  wellFormed r -> matchesUnserved r polygonId features ->
  matchesUnserved (fst (pushNew (newPillarNode f) r)) polygonId features.
Proof.
  intros Hwf H g ref node Hg Hin Hnode Hid. unfold pushNew in Hin, Hnode.
  simpl in Hin, Hnode. apply in_app_or in Hin as [Hold | [<- | []]].
  - rewrite lookup_app_l in Hnode by (apply wellFormed_valid; assumption).
    apply (H g ref node Hg Hold Hnode Hid).
  - rewrite lookup_app_r, Nat.sub_diag in Hnode by lia.
    injection Hnode as <-. reflexivity.
Qed.

(** When the scan of the memory found no node serving the parcel, and no
    potential node carries the identifier of a returned pillar, the pillar
    loop is not cut short. *)
Lemma matchesUnserved_of_ids (r : Registry) (polygonId : jsval)
    (features : list PillarFeature) :
  firstServing r polygonId = None ->
  (forall f ref node,
      In f features -> In ref (electricalNodes r) -> heap r !! ref = Some node ->
      isPotential node = true -> strict_eq (nodeId node) (pick_id f) = false) ->
  matchesUnserved r polygonId features.
Proof.
  intros Hnone Hids f ref node Hf Hin Hnode Hid.
  pose proof (find_none _ _ Hnone ref Hin) as Hact.
  unfold activeServing, isPotentialRef, serves in Hact. rewrite Hnode in Hact.
  destruct (isPotential node) eqn:Hpot; [| exact Hact].
  rewrite (Hids f ref node Hf Hin Hnode Hpot) in Hid. discriminate.
Qed.

(** The pillar loop only allocates: it appends one pillar entry per feature
    it does not find in memory, and its candidate never lists the parcel. *)
Lemma scanPillars_registers (frontageUnion : Geometry) (polygonId : jsval)
    (features : list PillarFeature) :
  forall r bestNode shortestDistance,
    wellFormed r -> matchesUnserved r polygonId features ->
    (forall ref, bestNode = Some ref -> serves r polygonId ref = false) ->
    exists added bestNode' shortestDistance' r',
      scanPillars ge frontageUnion polygonId features r bestNode shortestDistance
      = (r', Candidate bestNode' shortestDistance')
      /\ grownBy r r' added
      /\ (forall f, In f added -> In f features /\ findById r (pick_id f) = None)
      /\ (forall f, In f features -> findById r (pick_id f) = None ->
                    exists f', In f' added /\ pick_id f' = pick_id f)
      /\ (forall ref, bestNode' = Some ref -> serves r' polygonId ref = false).
Proof.
  induction features as [| f rest IH]; intros r bestNode shortestDistance Hwf Hun Hbest.
  - exists [], bestNode, shortestDistance, r. simpl.
    split; [reflexivity |]. split; [apply grownBy_refl |].
    split; [intros g [] |]. split; [intros g [] | exact Hbest].
  - simpl. destruct (findById r (pick_id f)) as [existing |] eqn:Hfind.
    + destruct (findById_some r (pick_id f) existing Hfind) as (Hin & node & Hnode & Hid).
      rewrite Hnode.
      pose proof (Hun f existing node (or_introl eq_refl) Hin Hnode Hid) as Hserve.
      rewrite Hserve.
      assert (Hstep : forall b s,
                 (b = bestNode \/ b = Some existing) ->
                 exists added bestNode' shortestDistance' r',
                   scanPillars ge frontageUnion polygonId rest r b s
                   = (r', Candidate bestNode' shortestDistance')
                   /\ grownBy r r' added
                   /\ (forall g, In g added ->
                                 In g (f :: rest) /\ findById r (pick_id g) = None)
                   /\ (forall g, In g (f :: rest) -> findById r (pick_id g) = None ->
                                 exists g', In g' added /\ pick_id g' = pick_id g)
                   /\ (forall ref, bestNode' = Some ref ->
                                   serves r' polygonId ref = false)).
      { intros b s Hb.
        assert (Hb' : forall ref, b = Some ref -> serves r polygonId ref = false).
        { intros ref Href. destruct Hb as [-> | ->]; [apply Hbest, Href |].
          injection Href as <-. unfold serves. rewrite Hnode. exact Hserve. }
        destruct (IH r b s Hwf (matchesUnserved_rest r polygonId f rest Hun) Hb')
          as (added & b' & s' & r' & Hrun & Hg & Hadded & Hcover & Hfinal).
        exists added, b', s', r'. split; [exact Hrun |]. split; [exact Hg |].
        split; [| split; [| exact Hfinal]].
        - intros g Hg'. destruct (Hadded g Hg') as [Hgin Hgnone].
          split; [right; exact Hgin | exact Hgnone].
        - intros g [<- | Hg'] Hgnone; [congruence | apply (Hcover g Hg' Hgnone)]. }
      destruct (closer _ shortestDistance);
        [apply Hstep; right; reflexivity | apply Hstep; left; reflexivity].
    + set (r1 := fst (pushNew (newPillarNode f) r)).
      assert (Hwf1 : wellFormed r1) by (apply wellFormed_pushNew; exact Hwf).
      assert (Hun1 : matchesUnserved r1 polygonId rest).
      { apply matchesUnserved_pushNew; [exact Hwf |].
        apply (matchesUnserved_rest r polygonId f rest Hun). }
      assert (Hg1 : grownBy r r1 [f]) by (apply grownBy_push, grownBy_refl).
      assert (Hstep : forall b s,
                 (b = bestNode \/ b = Some (length (heap r))) ->
                 exists added bestNode' shortestDistance' r',
                   scanPillars ge frontageUnion polygonId rest r1 b s
                   = (r', Candidate bestNode' shortestDistance')
                   /\ grownBy r r' added
                   /\ (forall g, In g added ->
                                 In g (f :: rest) /\ findById r (pick_id g) = None)
                   /\ (forall g, In g (f :: rest) -> findById r (pick_id g) = None ->
                                 exists g', In g' added /\ pick_id g' = pick_id g)
                   /\ (forall ref, bestNode' = Some ref ->
                                   serves r' polygonId ref = false)).
      { intros b s Hb.
        assert (Hb' : forall ref, b = Some ref -> serves r1 polygonId ref = false).
        { intros ref Href. destruct Hb as [-> | ->].
          - apply (grownBy_keeps_unserved r r1 [f] polygonId ref Hg1), Hbest, Href.
          - injection Href as <-. unfold serves. subst r1. unfold pushNew. simpl.
            rewrite lookup_app_r, Nat.sub_diag by lia. reflexivity. }
        destruct (IH r1 b s Hwf1 Hun1 Hb')
          as (added & b' & s' & r' & Hrun & Hg & Hadded & Hcover & Hfinal).
        exists (f :: added), b', s', r'. split; [exact Hrun |].
        split; [apply grownBy_push; exact Hg |].
        split; [| split; [| exact Hfinal]].
        - intros g [<- | Hg'].
          + split; [left; reflexivity | exact Hfind].
          + destruct (Hadded g Hg') as [Hgin Hgnone]. split; [right; exact Hgin |].
            apply (findById_pushNew (newPillarNode f) r (pick_id g) Hwf) in Hgnone.
            apply Hgnone.
        - intros g [<- | Hg'] Hgnone.
          + exists f. split; [left; reflexivity | reflexivity].
          + destruct (findById r1 (pick_id g)) eqn:Hfind1.
            * exists f. split; [left; reflexivity |].
              destruct (strict_eq (nodeId (newPillarNode f)) (pick_id g)) eqn:Heq.
              -- apply strict_eq_eq in Heq. exact Heq.
              -- assert (Hnone : findById r1 (pick_id g) = None)
                   by (apply findById_pushNew; [exact Hwf | split; assumption]).
                 congruence.
            * destruct (Hcover g Hg' Hfind1) as (g' & Hg'' & Hid).
              exists g'. split; [right; exact Hg'' | exact Hid]. }
      unfold pushNew in r1. simpl in r1. unfold pushNew.
      destruct (closer _ shortestDistance);
        [apply Hstep; right; reflexivity | apply Hstep; left; reflexivity].
Qed.

(** C10.  When the scan of the memory finds no pillar or service node
    serving the parcel and the pillar query answers, every returned pillar
    that is not tracked in memory is appended to the registry as a pillar
    node, whether or not it ends up as the best candidate; the appended nodes
    have an empty served-parcel list, except the one the call returns, which
    serves exactly the parcel. *)
Theorem pillar_query_registers_untracked_pillars
    (queryFeatures : Geometry -> Result (list PillarFeature))
    (frontageLines : list LineFeature) (polygonGeometry frontageUnion : Geometry)
    (polygonId : jsval) (r : Registry) (features : list PillarFeature) :
  wellFormed r ->
  firstServing r polygonId = None ->
  unionFrontageLines frontageLines ge = Some frontageUnion ->
  queryFeatures (buffer ge frontageUnion SHARING_THRESHOLD) = Ok features ->
  matchesUnserved r polygonId features ->
  exists added r' returned,
    findNearbyConnectionNode ge (Some queryFeatures) frontageLines polygonGeometry
      polygonId r = (r', returned)
    /\ electricalNodes r' = electricalNodes r ++ seq (length (heap r)) (length added)
    /\ length (heap r') = (length (heap r) + length added)%nat
    /\ (forall f, In f features -> findById r (pick_id f) = None ->
                  exists f', In f' added /\ pick_id f' = pick_id f)
    /\ (forall i f, added !! i = Some f ->
          In f features
          /\ findById r (pick_id f) = None
          /\ exists node,
               heap r' !! (length (heap r) + i)%nat = Some node
               /\ nodeId node = pick_id f
               /\ nodeType node = pillar
               /\ position node = pillarGeometry f
               /\ isPotential node = false
               /\ isPillar node = true
               /\ properties node
                  = if decide (returned = Some (length (heap r) + i)%nat)
                    then [polygonId] else []).
Proof.
  intros Hwf Hfirst Hunion Hquery Hun. unfold findNearbyConnectionNode. rewrite Hunion.
  pose proof (scanMemory_find ge r (buffer ge frontageUnion SHARING_THRESHOLD)
                frontageUnion polygonId (electricalNodes r) None None) as Hscan.
  unfold firstServing in Hfirst. rewrite Hfirst in Hscan.
  destruct Hscan as (b & s & -> & Hb).
  assert (Hbs : forall ref, b = Some ref -> serves r polygonId ref = false).
  { intros ref ->. destruct Hb as [[=] | (ref0 & [= <-] & Hin & Hact)].
    pose proof (find_none _ _ Hfirst ref Hin) as Hnone.
    unfold activeServing in Hnone. rewrite Hact in Hnone. exact Hnone. }
  unfold queryPillars. rewrite Hquery.
  destruct (scanPillars_registers frontageUnion polygonId features r b s Hwf Hun Hbs)
    as (added & b' & s' & r1 & -> & Hg & Hadded & Hcover & Hb').
  pose proof Hg as (Hheap & Hrefs & _).
  assert (Hnew : forall i f, added !! i = Some f ->
                   heap r1 !! (length (heap r) + i)%nat = Some (newPillarNode f)).
  { intros i f Hi. rewrite Hheap, lookup_app_r by lia.
    replace (length (heap r) + i - length (heap r))%nat with i by lia.
    rewrite lookup_map, Hi. reflexivity. }
  exists added.
  destruct b' as [best |].
  - destruct (heap r1 !! best) as [node |] eqn:Hbest.
    + destruct (includes (properties node) polygonId) eqn:Hinc.
      * (* the best candidate cannot list the parcel already *)
        exfalso. pose proof (Hb' best eq_refl) as Hs.
        unfold serves in Hs. rewrite Hbest in Hs. congruence.
      * exists (modify (addProperty polygonId) best r1), (Some best).
        split; [reflexivity |]. simpl. rewrite length_alter, Hheap, length_app, length_map.
        split; [exact Hrefs |]. split; [reflexivity |]. split; [exact Hcover |].
        intros i f Hi. destruct (Hadded f) as [Hf Hnone].
        { apply list_elem_of_In. eapply list_elem_of_lookup_2. exact Hi. }
        split; [exact Hf |]. split; [exact Hnone |].
        rewrite <- Hheap.
        destruct (decide (Some best = Some (length (heap r) + i)%nat)) as [Heq | Hne].
        -- injection Heq as ->. rewrite list_lookup_alter_eq, (Hnew i f Hi). simpl.
           eexists. split; [reflexivity |]. repeat split.
        -- rewrite list_lookup_alter_ne by congruence. rewrite (Hnew i f Hi).
           eexists. split; [reflexivity |]. repeat split.
    + exists r1, (Some best). split; [reflexivity |].
      rewrite Hheap, length_app, length_map.
      split; [exact Hrefs |]. split; [reflexivity |]. split; [exact Hcover |].
      intros i f Hi. destruct (Hadded f) as [Hf Hnone].
      { apply list_elem_of_In. eapply list_elem_of_lookup_2. exact Hi. }
      split; [exact Hf |]. split; [exact Hnone |].
      rewrite <- Hheap, (Hnew i f Hi).
      destruct (decide (Some best = Some (length (heap r) + i)%nat)) as [Heq | Hne].
      * injection Heq as ->. rewrite (Hnew i f Hi) in Hbest. discriminate.
      * eexists. split; [reflexivity |]. repeat split.
  - exists r1, None. split; [reflexivity |].
    rewrite Hheap, length_app, length_map.
    split; [exact Hrefs |]. split; [reflexivity |]. split; [exact Hcover |].
    intros i f Hi. destruct (Hadded f) as [Hf Hnone].
    { apply list_elem_of_In. eapply list_elem_of_lookup_2. exact Hi. }
    split; [exact Hf |]. split; [exact Hnone |].
    rewrite <- Hheap, (Hnew i f Hi).
    destruct (decide (None = Some (length (heap r) + i)%nat)) as [Heq | Hne];
      [discriminate |].
    eexists. split; [reflexivity |]. repeat split.
Qed.

End PillarQueryFacts.

Section PillarExamplesFacts.
Import Js Geo Electrical Planar ElectricalExamples.
Local Open Scope list_scope.

(** Both pillars of the inventory are within the sharing buffer and neither
    is tracked: one call registers both, and only the nearer one, which the
    call returns, gets the parcel. *)
Lemma pillar_query_registers_untracked_pillars_witness :
  exists added r' returned,
    findNearbyConnectionNode engine (Some (pillarQuery [pillarA; pillarB]))
      [southFrontage] (GPolygon parcel) (JNum 42) emptyRegistry = (r', returned)
    /\ added = [pillarA; pillarB]
    /\ electricalNodes r' = [0%nat; 1%nat]
    /\ returned = Some 0%nat
    /\ map nodeId (heap r') = [JStr "P-100"; JStr "P-200"]
    /\ map properties (heap r') = [[JNum 42]; []].
Proof.
  assert (Hwf : wellFormed emptyRegistry) by constructor.
  assert (Hun : matchesUnserved emptyRegistry (JNum 42) [pillarA; pillarB])
    by (intros f ref node _ []).
  destruct (pillar_query_registers_untracked_pillars engine
              (pillarQuery [pillarA; pillarB]) [southFrontage] (GPolygon parcel)
              frontageUnion (JNum 42) emptyRegistry [pillarA; pillarB]
              Hwf eq_refl eq_refl eq_refl Hun)
    as (added & r' & returned & Hrun & Hrefs & Hlen & Hcover & Hnodes).
  exists added, r', returned. split; [exact Hrun |].
  vm_compute in Hrun. injection Hrun as <- <-.
  assert (Hadded : added = [pillarA; pillarB]).
  { simpl in Hlen. destruct added as [| a [| b [| c rest]]]; simpl in Hlen;
      try discriminate.
    destruct (Hnodes 0%nat a eq_refl) as (_ & _ & na & Ha & Hida & _ & Hpa & _).
    destruct (Hnodes 1%nat b eq_refl) as (_ & _ & nb & Hb & Hidb & _ & Hpb & _).
    simpl in Ha, Hb. injection Ha as <-. injection Hb as <-.
    destruct a as [ida ga], b as [idb gb]. simpl in Hpa, Hpb, Hida, Hidb.
    subst. reflexivity. }
  split; [exact Hadded |]. repeat split; reflexivity.
Defined.

End PillarExamplesFacts.

Section AssignFacts.
Import Js Geo Electrical.
Local Open Scope list_scope.

Variable ge : GeometryEngine.

(** The removal returns normally exactly when its marker filter cannot
    raise, and it leaves a layer on which it would return normally again. *)
Lemma removal_ok_iff (polygonId : jsval) (r : Registry) :
  snd (removePotentialNodesForProperty polygonId r) = Ok tt
  <-> removalSafe polygonId (electricalLayer r).
Proof.
  unfold removePotentialNodesForProperty, removalSafe. simpl.
  destruct (electricalLayer r) as [graphics |].
  - destruct (toString polygonId) as [idText |]; simpl.
    + split; [discriminate | reflexivity].
    + destruct (existsb isPotentialGraphic graphics) eqn:Hany; simpl.
      * split; [discriminate |]. intros H. specialize (H eq_refl graphics eq_refl).
        congruence.
      * split; [| reflexivity]. intros _ _ g [= <-]. exact Hany.
  - simpl. split; [discriminate | reflexivity].
Qed.

Lemma removal_keeps_safe (polygonId : jsval) (r : Registry) :
  removalSafe polygonId (electricalLayer r) ->
  removalSafe polygonId
    (electricalLayer (fst (removePotentialNodesForProperty polygonId r))).
Proof.
  unfold removePotentialNodesForProperty, removalSafe. simpl. intros Hsafe Hid.
  rewrite Hid. destruct (electricalLayer r) as [graphics |] eqn:Hl; simpl.
  - destruct (existsb isPotentialGraphic graphics); simpl; rewrite Hl;
      apply (Hsafe Hid).
  - rewrite Hl. apply (Hsafe Hid).
Qed.

Lemma createAndRender_inv (potentialPositions : list LabelledPosition)
    (polygonId : jsval) (stamp : string) (r r' : Registry) (created : nat) :
  createAndRenderPotentialNode potentialPositions polygonId stamp r = (r', Ok created) ->
  exists rc chosen,
    removePotentialNodesForProperty polygonId r = (rc, Ok tt)
    /\ potentialPositions !! 1%nat = Some chosen
    /\ r' = fst (pushNew (createElectricalNode (pos chosen) polygonId rightSide
                            stamp true) rc)
    /\ created = length (heap r).
Proof.
  unfold createAndRenderPotentialNode. intros Hrun.
  destruct (removePotentialNodesForProperty polygonId r) as [rc [[] | message]] eqn:Hrem;
    [| discriminate].
  destruct (potentialPositions !! 1%nat) as [chosen |]; [| discriminate].
  unfold pushNew in Hrun. simpl in Hrun. injection Hrun as <- <-.
  exists rc, chosen. repeat split.
  pose proof (removePotentialNodesForProperty_registry polygonId r) as [Hh _].
  rewrite Hrem in Hh. simpl in Hh. rewrite Hh. reflexivity.
Qed.

Lemma createAndRender_run (potentialPositions : list LabelledPosition)
    (polygonId : jsval) (stamp : string) (r rc : Registry) (chosen : LabelledPosition) :
  removePotentialNodesForProperty polygonId r = (rc, Ok tt) ->
  potentialPositions !! 1%nat = Some chosen ->
  createAndRenderPotentialNode potentialPositions polygonId stamp r
  = (fst (pushNew (createElectricalNode (pos chosen) polygonId rightSide stamp true) rc),
     Ok (length (heap r))).
Proof.
  intros Hrem Hpos. unfold createAndRenderPotentialNode. rewrite Hrem, Hpos.
  unfold pushNew. simpl.
  pose proof (removePotentialNodesForProperty_registry polygonId r) as [Hh _].
  rewrite Hrem in Hh. simpl in Hh. rewrite Hh. reflexivity.
Qed.

Lemma union_of_lines (line : LineFeature) (rest : list LineFeature) :
  exists frontageUnion, unionFrontageLines (line :: rest) ge = Some frontageUnion.
Proof. simpl. eauto. Qed.

End AssignFacts.

Section IdempotenceFacts.
Import Js Geo Electrical.
Local Open Scope list_scope.

Variable ge : GeometryEngine.

(** An assignment on a registry in which a pillar or service node already
    serves the parcel. *)
Lemma assign_again_shared (pillarsLayer : PillarsLayer) (stamp : string)
    (polygonGraphic : PolygonGraphic) (line : LineFeature) (rest : list LineFeature)
    (potentialPositions : list LabelledPosition) (r : Registry) (ref : nat)
    (node : ElectricalNode) :
  calculatePotentialNodePositions (line :: rest)
    (ensureWebMercator (GPolygon (polygonGeometry polygonGraphic)) ge) ge
  = Ok potentialPositions ->
  firstServing r (Cadastral.polygonId (polygonAttributes polygonGraphic)) = Some ref ->
  heap r !! ref = Some node ->
  removalSafe (Cadastral.polygonId (polygonAttributes polygonGraphic))
    (electricalLayer r) ->
  exists r2,
    generateOrFindConnectionNode ge pillarsLayer stamp polygonGraphic (line :: rest) r
    = (r2, Ok (Some ref))
    /\ heap r2 !! ref
       = Some (storeCentroid (Cadastral.polygonId (polygonAttributes polygonGraphic))
                 (centroid ge (ensureWebMercator
                                 (GPolygon (polygonGeometry polygonGraphic)) ge))
                 node).
Proof.
  set (polygonId := Cadastral.polygonId (polygonAttributes polygonGraphic)).
  set (working := ensureWebMercator (GPolygon (polygonGeometry polygonGraphic)) ge).
  intros Hpos Hfirst Hnode Hsafe.
  destruct (union_of_lines ge line rest) as [frontageUnion Hunion].
  unfold generateOrFindConnectionNode. fold polygonId. fold working.
  rewrite Hpos.
  rewrite (findNearby_first_serving ge pillarsLayer (line :: rest) working
             frontageUnion polygonId r ref Hunion Hfirst).
  set (r' := modify (storeCentroid polygonId (centroid ge working)) ref r).
  assert (Hok : snd (removePotentialNodesForProperty polygonId r') = Ok tt)
    by (apply removal_ok_iff; exact Hsafe).
  pose proof (removePotentialNodesForProperty_registry polygonId r') as [Hh _].
  destruct (removePotentialNodesForProperty polygonId r') as [r2 res].
  simpl in Hok, Hh. subst res. exists r2. split; [reflexivity |].
  rewrite Hh. subst r'. unfold modify. cbn [heap].
  rewrite list_lookup_alter_eq, Hnode. reflexivity.
Qed.

(** C1 (as the code has it).  Two assignments in a row for the same parcel
    and frontage.  When the first one resolves to a pillar or service node,
    the second one returns that same node, whatever the pillar inventory
    answers then, and the node lists the parcel exactly once.  When the first
    one creates a potential node, the second one removes it from the registry
    and returns a newly created potential node, which lists exactly the
    parcel.  The identifier of each potential node is built from the stamp
    (time and random number) drawn when it is created, so the two
    identifiers differ whenever the two stamps do. *)
Theorem assign_twice (pillarsLayer : PillarsLayer) (stamp1 stamp2 : string)
    (polygonGraphic : PolygonGraphic) (frontageLines : list LineFeature)
    (r r1 : Registry) (ref : nat) :
  wellFormed r ->
  noRepeatedProperties r ->
  generateOrFindConnectionNode ge pillarsLayer stamp1 polygonGraphic frontageLines r
  = (r1, Ok (Some ref)) ->
  (isPotentialRef r1 ref = false ->
   forall pillarsLayer',
   exists r2 node,
     generateOrFindConnectionNode ge pillarsLayer' stamp2 polygonGraphic
       frontageLines r1 = (r2, Ok (Some ref))
     /\ heap r2 !! ref = Some node
     /\ isPotential node = false
     /\ occurrences (properties node)
          (Cadastral.polygonId (polygonAttributes polygonGraphic)) = 1%nat)
  /\ (isPotentialRef r1 ref = true ->
      (length (heap r) <= ref)%nat ->
      exists r2 ref2 node1 node2,
        generateOrFindConnectionNode ge pillarsLayer stamp2 polygonGraphic
          frontageLines r1 = (r2, Ok (Some ref2))
        /\ ref2 <> ref
        /\ ~ In ref (electricalNodes r2)
        /\ heap r1 !! ref = Some node1
        /\ nodeId node1 = JStr ("POTENTIAL_" ++ stamp1)
        /\ heap r2 !! ref2 = Some node2
        /\ isPotential node2 = true
        /\ nodeId node2 = JStr ("POTENTIAL_" ++ stamp2)
        /\ (stamp2 <> stamp1 -> nodeId node2 <> nodeId node1)
        /\ properties node2
           = [Cadastral.polygonId (polygonAttributes polygonGraphic)]).
Proof.
  set (polygonId := Cadastral.polygonId (polygonAttributes polygonGraphic)).
  intros Hwf Hnr Hrun. assert (Hrun1 := Hrun).
  unfold generateOrFindConnectionNode in Hrun. fold polygonId in Hrun.
  destruct frontageLines as [| line rest]; [discriminate |].
  set (working := ensureWebMercator (GPolygon (polygonGeometry polygonGraphic)) ge) in *.
  destruct (calculatePotentialNodePositions (line :: rest) working ge)
    as [potentialPositions | message] eqn:Hpos; [| discriminate].
  destruct (union_of_lines ge line rest) as [frontageUnion Hunion].
  destruct (findNearbyConnectionNode ge pillarsLayer (line :: rest) working polygonId r)
    as [ra [shared |]] eqn:Hnear.
  - (* the first call found a node to share *)
    set (rb := modify (storeCentroid polygonId (centroid ge working)) shared ra) in *.
    pose proof (removePotentialNodesForProperty_registry polygonId rb) as [Hh Hn].
    pose proof (removal_ok_iff polygonId rb) as Hsafe.
    pose proof (firstServing_removal polygonId polygonId rb) as Hfirst1.
    pose proof (removal_keeps_safe polygonId rb) as Hkeep.
    destruct (removePotentialNodesForProperty polygonId rb) as [r3 [[] | message]];
      [| discriminate].
    injection Hrun as <- <-. simpl in Hh, Hn, Hsafe, Hfirst1, Hkeep.
    assert (Hsame : isPotentialRef r3 shared = isPotentialRef ra shared).
    { unfold isPotentialRef at 1. rewrite Hh. fold (isPotentialRef rb shared).
      subst rb. apply isPotentialRef_storeCentroid. }
    split.
    + intros Hactive pillarsLayer'. rewrite Hsame in Hactive.
      destruct (findNearby_shared ge pillarsLayer (line :: rest) working frontageUnion
                  polygonId r ra shared Hwf Hunion Hnear Hactive)
        as (Hwfa & _ & Hfirst & Hocc).
      destruct (Hocc Hnr) as (nodeA & HnodeA & HoccA).
      assert (Hnode3 : heap r3 !! shared
                       = Some (storeCentroid polygonId (centroid ge working) nodeA)).
      { rewrite Hh. subst rb. unfold modify. cbn [heap].
        rewrite list_lookup_alter_eq, HnodeA. reflexivity. }
      destruct (assign_again_shared pillarsLayer' stamp2 polygonGraphic line rest
                  potentialPositions r3 shared
                  (storeCentroid polygonId (centroid ge working) nodeA) Hpos)
        as (r2 & Hrun2 & Hnode2).
      * fold polygonId. rewrite Hfirst1. subst rb.
        rewrite firstServing_storeCentroid. exact Hfirst.
      * exact Hnode3.
      * fold polygonId. apply Hkeep, Hsafe. reflexivity.
      * exists r2. eexists. split; [exact Hrun2 |]. split; [exact Hnode2 |].
        split; [| exact HoccA]. simpl.
        unfold isPotentialRef in Hactive. rewrite HnodeA in Hactive. exact Hactive.
    + intros Hpot Hnew. exfalso. rewrite Hsame in Hpot.
      rewrite (findNearby_new_is_active ge pillarsLayer (line :: rest) working
                 polygonId r ra shared Hwf Hnear Hnew) in Hpot.
      discriminate.
  - (* the first call created a potential node *)
    destruct (createAndRenderPotentialNode potentialPositions polygonId stamp1 ra)
      as [rp [created | message]] eqn:Hcreate; [| discriminate].
    injection Hrun as <- <-.
    destruct (proj1 (findNearby_nothing ge pillarsLayer (line :: rest) working
                       frontageUnion polygonId r Hunion) (ex_intro _ ra Hnear))
      as (Hnear' & Hno & Hsilent).
    assert (ra = r) by congruence. subst ra.
    destruct (createAndRender_inv potentialPositions polygonId stamp1 r rp created
                Hcreate) as (rc & chosen & Hrem & Hchosen & -> & ->).
    pose proof (removePotentialNodesForProperty_registry polygonId r) as [Hh Hn].
    rewrite Hrem in Hh, Hn. simpl in Hh, Hn.
    set (node1 := createElectricalNode (pos chosen) polygonId rightSide stamp1 true) in *.
    set (c := centroid ge working) in *.
    set (r1 := modify (storeCentroid polygonId c) (length (heap r))
                 (fst (pushNew node1 rc))) in *.
    assert (Hheap1 : heap r1 = alter (storeCentroid polygonId c) (length (heap r))
                                 (heap r ++ [node1])).
    { subst r1. unfold modify, pushNew. simpl. rewrite Hh. reflexivity. }
    assert (Hrefs1 : electricalNodes r1
                     = List.filter (keptByRemoval r polygonId) (electricalNodes r)
                       ++ [length (heap r)]).
    { subst r1. unfold modify, pushNew. simpl. rewrite Hh, Hn. reflexivity. }
    assert (Hlook1 : heap r1 !! length (heap r)
                     = Some (storeCentroid polygonId c node1)).
    { rewrite Hheap1, list_lookup_alter_eq, lookup_app_r by lia.
      rewrite Nat.sub_diag. reflexivity. }
    assert (Hold1 : forall y, (y < length (heap r))%nat -> heap r1 !! y = heap r !! y).
    { intros y Hy. rewrite Hheap1, list_lookup_alter_ne by lia.
      apply lookup_app_l. exact Hy. }
    split.
    + intros Hactive. exfalso. unfold isPotentialRef in Hactive.
      rewrite Hlook1 in Hactive. discriminate.
    + intros _ _.
      (* the second call finds nothing to share either *)
      assert (Hno1 : noCandidate ge r1 (buffer ge frontageUnion SHARING_THRESHOLD)
                       polygonId (electricalNodes r1)).
      { intros y node Hy Hnode Hact. rewrite Hrefs1 in Hy.
        apply in_app_or in Hy as [Hy | [<- | []]].
        - apply filter_In in Hy as [Hy _].
          pose proof (wellFormed_valid r y Hwf Hy) as Hlt.
          rewrite (Hold1 y Hlt) in Hnode. apply (Hno y node Hy Hnode Hact).
        - rewrite Hlook1 in Hnode. injection Hnode as <-. discriminate. }
      pose proof (findNearby_nothing_from ge pillarsLayer (line :: rest) working
                    frontageUnion polygonId r1 Hunion Hno1 Hsilent) as Hnear1.
      (* and removes the first potential node before creating another *)
      assert (Hsafe1 : removalSafe polygonId (electricalLayer r1)).
      { pose proof (removal_keeps_safe polygonId r) as Hkeep.
        rewrite Hrem in Hkeep. simpl in Hkeep. apply Hkeep.
        apply removal_ok_iff. rewrite Hrem. reflexivity. }
      apply removal_ok_iff in Hsafe1.
      pose proof (removePotentialNodesForProperty_registry polygonId r1) as [Hh2 Hn2].
      destruct (removePotentialNodesForProperty polygonId r1) as [rd res] eqn:Hrem2.
      simpl in Hsafe1, Hh2, Hn2. subst res.
      pose proof (createAndRender_run potentialPositions polygonId stamp2 r1 rd chosen
                    Hrem2 Hchosen) as Hcreate2.
      set (node2 := createElectricalNode (pos chosen) polygonId rightSide stamp2 true) in *.
      exists (modify (storeCentroid polygonId c) (length (heap r1))
                (fst (pushNew node2 rd))),
        (length (heap r1)), (storeCentroid polygonId c node1),
        (storeCentroid polygonId c node2).
      assert (Hlen1 : length (heap r1) = S (length (heap r))).
      { rewrite Hheap1, length_alter, length_app. simpl. lia. }
      split.
      { unfold generateOrFindConnectionNode. fold polygonId. fold working.
        rewrite Hpos, Hnear1, Hcreate2. reflexivity. }
      split; [lia |]. split.
      { unfold modify, pushNew. simpl. rewrite Hn2. intros Hin.
        apply in_app_or in Hin as [Hin | [Heq | []]];
          [| rewrite Hh2, length_alter, length_app, Hh in Heq; simpl in Heq; lia].
        apply filter_In in Hin as [_ Hkept]. unfold keptByRemoval in Hkept.
        rewrite Hlook1 in Hkept. unfold isPotentialFor in Hkept. simpl in Hkept.
        rewrite (proj2 (same_value_zero_eq polygonId polygonId) eq_refl) in Hkept.
        discriminate. }
      split; [exact Hlook1 |]. split; [reflexivity |].
      split.
      { unfold modify, pushNew. simpl. rewrite Hh2, list_lookup_alter_eq.
        rewrite lookup_app_r by lia. rewrite Nat.sub_diag. reflexivity. }
      split; [reflexivity |]. split; [reflexivity |].
      split; [| reflexivity].
      intros Hne Heq. apply Hne. unfold node1, node2 in Heq. cbn in Heq.
      injection Heq as Heq. exact Heq.
Qed.

End IdempotenceFacts.

Section AssignExamplesFacts.
Import Js Geo Electrical Planar ElectricalExamples.
Local Open Scope list_scope.

(** C1, the claim as stated fails when no shareable node exists: the second
    assignment removes the potential node the first one created and returns
    another one, a different object with a different identifier. *)
Lemma second_assignment_replaces_potential_node :
  generateOrFindConnectionNode engine noPillars "1_a" parcelGraphic [southFrontage]
    emptyRegistry
  = (registryAfter noPillars "1_a" emptyRegistry, Ok (Some 0%nat))
  /\ generateOrFindConnectionNode engine noPillars "2_b" parcelGraphic [southFrontage]
       (registryAfter noPillars "1_a" emptyRegistry)
     = (registryAfter noPillars "2_b" (registryAfter noPillars "1_a" emptyRegistry),
        Ok (Some 1%nat))
  /\ 0%nat <> 1%nat
  /\ map nodeId (heap (registryAfter noPillars "2_b"
                         (registryAfter noPillars "1_a" emptyRegistry)))
     = [JStr "POTENTIAL_1_a"; JStr "POTENTIAL_2_b"]
  /\ electricalNodes (registryAfter noPillars "2_b"
                        (registryAfter noPillars "1_a" emptyRegistry))
     = [1%nat].
Proof.
  split; [vm_compute; reflexivity |]. split; [vm_compute; reflexivity |].
  split; [discriminate |]. split; reflexivity.
Qed.

Lemma assign_twice_witness :
  exists r2 node,
    generateOrFindConnectionNode engine twoPillars "2_b" parcelGraphic [southFrontage]
      (registryAfter twoPillars "1_a" emptyRegistry) = (r2, Ok (Some 0%nat))
    /\ heap r2 !! 0%nat = Some node
    /\ isPotential node = false
    /\ occurrences (properties node) (JNum 42) = 1%nat.
Proof.
  assert (Hwf : wellFormed emptyRegistry) by constructor.
  assert (Hnr : noRepeatedProperties emptyRegistry) by (intros ref node pid []).
  assert (Hrun : generateOrFindConnectionNode engine twoPillars "1_a" parcelGraphic
                   [southFrontage] emptyRegistry
                 = (registryAfter twoPillars "1_a" emptyRegistry, Ok (Some 0%nat)))
    by (vm_compute; reflexivity).
  destruct (assign_twice engine twoPillars "1_a" "2_b" parcelGraphic [southFrontage]
              emptyRegistry _ 0%nat Hwf Hnr Hrun) as [Hshared _].
  apply (Hshared eq_refl twoPillars).
Defined.



End AssignExamplesFacts.

(** ** The electrical display, the selection of a parcel and the click handler *)

Section DisplayFacts.
Import Js Geo Electrical Rendering.
Local Open Scope list_scope.

Lemma filter_none_negb {A : Type} (p : A -> bool) (l : list A) :
  List.filter p l = [] -> List.filter (fun a => negb (p a)) l = l.
Proof.
  induction l as [| a rest IH]; simpl; [reflexivity |].
  destruct (p a); simpl; [discriminate |]. intros H. f_equal. apply IH, H.
Qed.

Lemma filter_all_false {A : Type} (p : A -> bool) (l : list A) :
  (forall a, In a l -> p a = false) -> List.filter p l = [].
Proof.
  induction l as [| a rest IH]; simpl; intros H; [reflexivity |].
  rewrite (H a (or_introl eq_refl)). apply IH. intros b Hb. apply H. right. exact Hb.
Qed.

Lemma graphic_kinds (g : ElectricalGraphic) :
  negb (isConnectionLine g) && (negb (isDistanceLabel g) && negb (isNodeGraphic g))
  = false.
Proof. destruct g; reflexivity. Qed.

Lemma removeAllPotentialNodes_registry (r : Registry) :
  heap (removeAllPotentialNodes r) = heap r
  /\ electricalNodes (removeAllPotentialNodes r)
     = List.filter (fun ref => negb (isPotentialRef r ref)) (electricalNodes r).
Proof.
  unfold removeAllPotentialNodes.
  change (fun ref => match heap r !! ref with
                     | Some node => isPotential node
                     | None => false
                     end) with (isPotentialRef r).
  destruct (Nat.eqb_spec (length (List.filter (isPotentialRef r) (electricalNodes r))) 0)
    as [Hnone | Hsome].
  - split; [reflexivity |]. symmetry. apply filter_none_negb.
    apply length_zero_iff_nil, Hnone.
  - destruct (electricalLayer _); split; reflexivity.
Qed.

Lemma removeAllPotentialNodes_layer (r : Registry) :
  electricalLayer (removeAllPotentialNodes r)
  = if (length (potentialNodes r) =? 0)%nat then electricalLayer r
    else List.filter (fun g => negb (isPotentialGraphic g)) <$> electricalLayer r.
Proof.
  unfold removeAllPotentialNodes, potentialNodes.
  change (fun ref => match heap r !! ref with
                     | Some node => isPotential node
                     | None => false
                     end) with (isPotentialRef r).
  destruct (length (List.filter (isPotentialRef r) (electricalNodes r)) =? 0)%nat;
    [reflexivity |].
  cbv zeta. unfold withNodes. cbn [electricalLayer].
  destruct (electricalLayer r); reflexivity.
Qed.

Lemma potentialNodes_heap (r r' : Registry) (refs : list nat) :
  heap r' = heap r ->
  List.filter (isPotentialRef r') refs = List.filter (isPotentialRef r) refs.
Proof.
  intros Hheap. apply filter_ext. intros ref. unfold isPotentialRef.
  rewrite Hheap. reflexivity.
Qed.

Lemma clearAllElectricalNodeGraphics_registry (r : Registry) :
  heap (clearAllElectricalNodeGraphics r) = heap r
  /\ electricalNodes (clearAllElectricalNodeGraphics r) = electricalNodes r
  /\ electricalLayer (clearAllElectricalNodeGraphics r)
     = List.filter isConnectionLine <$> electricalLayer r.
Proof.
  unfold clearAllElectricalNodeGraphics, removeElectricalGraphics.
  destruct (electricalLayer r) as [graphics |] eqn:Hlayer.
  - cbn [fst withGraphics electricalLayer heap electricalNodes].
    split; [reflexivity |]. split; [reflexivity |]. simpl. f_equal.
    clear Hlayer. induction graphics as [| g rest IH]; [reflexivity |].
    destruct g; simpl; rewrite ?IH; reflexivity.
  - rewrite Hlayer. repeat split.
Qed.

Lemma clearConnectionLines_registry (r : Registry) :
  heap (clearConnectionLines r) = heap r
  /\ electricalNodes (clearConnectionLines r) = electricalNodes r
  /\ electricalLayer (clearConnectionLines r)
     = List.filter (fun g => negb (isConnectionLine g)) <$> electricalLayer r.
Proof.
  unfold clearConnectionLines.
  destruct (electricalLayer r) as [graphics |] eqn:Hlayer.
  - repeat split.
  - rewrite Hlayer. repeat split.
Qed.

Lemma potentialNodes_removed (r : Registry) (refs : list nat) :
  List.filter (isPotentialRef r)
    (List.filter (fun ref => negb (isPotentialRef r ref)) refs) = [].
Proof. apply filter_filter_negb. Qed.

(** X1.  removeAllPotentialNodes drops every potential node from memory
    and keeps the pillar and service nodes in their order, touching no node
    object.  The markers of potential nodes are taken off the map only when
    memory held a potential node: otherwise the call returns at once and
    the registry, markers included, is left as it was.  Calling it again
    changes nothing. *)
Theorem removeAllPotentialNodes_leaves_none (r : Registry) :
  let r' := removeAllPotentialNodes r in
  heap r' = heap r
  /\ electricalNodes r'
     = List.filter (fun ref => negb (isPotentialRef r ref)) (electricalNodes r)
  /\ potentialNodes r' = []
  /\ (potentialNodes r <> [] ->
      forall graphics,
        electricalLayer r' = Some graphics ->
        Forall (fun g => isPotentialGraphic g = false) graphics)
  /\ (potentialNodes r = [] -> r' = r)
  /\ removeAllPotentialNodes r' = r'.
Proof.
  cbv zeta. destruct (removeAllPotentialNodes_registry r) as [Hheap Hnodes].
  assert (Hnone : potentialNodes (removeAllPotentialNodes r) = []).
  { unfold potentialNodes. rewrite Hnodes.
    rewrite (potentialNodes_heap r _ _ Hheap). apply potentialNodes_removed. }
  assert (Hquiet : forall q, potentialNodes q = [] -> removeAllPotentialNodes q = q).
  { intros q Hq. unfold removeAllPotentialNodes.
    change (fun ref => match heap q !! ref with
                       | Some node => isPotential node
                       | None => false
                       end) with (isPotentialRef q).
    unfold potentialNodes in Hq. rewrite Hq. reflexivity. }
  split; [exact Hheap |]. split; [exact Hnodes |]. split; [exact Hnone |].
  split; [| split; [apply Hquiet | apply Hquiet, Hnone]].
  intros Hsome graphics Hlayer. rewrite removeAllPotentialNodes_layer in Hlayer.
  destruct (Nat.eqb_spec (length (potentialNodes r)) 0) as [Hzero | _].
  { apply length_zero_iff_nil in Hzero. contradiction. }
  destruct (electricalLayer r) as [old |]; [| discriminate].
  injection Hlayer as <-. apply Forall_forall. intros g Hg.
  apply list_elem_of_In, filter_In in Hg as [_ Hg].
  apply negb_true_iff, Hg.
Qed.

(** The display reset that opens a selection: the layer is emptied, the
    potential nodes are dropped, the other nodes are kept as they are. *)
Lemma clearPreviousSelection_registry (r : Registry) :
  let r' := clearPreviousSelection r in
  heap r' = heap r
  /\ electricalNodes r'
     = List.filter (fun ref => negb (isPotentialRef r ref)) (electricalNodes r)
  /\ electricalLayer r' = (fun _ => []) <$> electricalLayer r
  /\ potentialNodes r' = [].
Proof.
  cbv zeta. unfold clearPreviousSelection.
  destruct (clearAllElectricalNodeGraphics_registry r) as (H1 & N1 & L1).
  set (r1 := clearAllElectricalNodeGraphics r) in *.
  destruct (removeAllPotentialNodes_registry r1) as (H2 & N2).
  pose proof (removeAllPotentialNodes_layer r1) as L2.
  set (r2 := removeAllPotentialNodes r1) in *.
  destruct (clearConnectionLines_registry r2) as (H3 & N3 & L3).
  set (r3 := clearConnectionLines r2) in *.
  assert (Hheap : heap r3 = heap r) by congruence.
  assert (Hnodes : electricalNodes r3
                   = List.filter (fun ref => negb (isPotentialRef r ref))
                       (electricalNodes r)).
  { rewrite N3, N2, N1. apply filter_ext. intros ref. unfold isPotentialRef.
    rewrite H1. reflexivity. }
  split; [exact Hheap |]. split; [exact Hnodes |]. split.
  - rewrite L3, L2, L1.
    destruct (electricalLayer r) as [graphics |]; [| destruct (_ =? _)%nat; reflexivity].
    assert (Hempty : forall l,
               (forall g, In g l -> isConnectionLine g = true) ->
               List.filter (fun g => negb (isConnectionLine g)) l = []).
    { intros l Hl. apply filter_all_false. intros g Hg. rewrite (Hl g Hg). reflexivity. }
    destruct (_ =? _)%nat; simpl; f_equal; apply Hempty; intros g Hg.
    + apply filter_In in Hg. apply Hg.
    + apply filter_In in Hg as [Hg _]. apply filter_In in Hg. apply Hg.
  - unfold potentialNodes. rewrite Hnodes, (potentialNodes_heap r _ _ Hheap).
    apply potentialNodes_removed.
Qed.

End DisplayFacts.

Section ActiveNodeFacts.
Import Js Geo Electrical Rendering.
Local Open Scope list_scope.

Variable ge : GeometryEngine.

Lemma extendsNode_refl (node : ElectricalNode) : extendsNode node node.
Proof. repeat split. exists []. symmetry. apply app_nil_r. Qed.

Lemma extendsNode_trans (a b c : ElectricalNode) :
  extendsNode a b -> extendsNode b c -> extendsNode a c.
Proof.
  intros (I1 & T1 & P1 & O1 & L1 & g1 & G1) (I2 & T2 & P2 & O2 & L2 & g2 & G2).
  repeat split; try congruence.
  exists (g1 ++ g2). rewrite G2, G1, app_assoc. reflexivity.
Qed.

Lemma extendsNode_addProperty (polygonId : jsval) (node : ElectricalNode) :
  extendsNode node (addProperty polygonId node).
Proof. repeat split. exists [polygonId]. reflexivity. Qed.

Lemma extendsNode_storeCentroid (polygonId : jsval) (c : Point) (node : ElectricalNode) :
  extendsNode node (storeCentroid polygonId c node).
Proof. repeat split. exists []. simpl. symmetry. apply app_nil_r. Qed.

Lemma keepsActiveNodes_refl (r : Registry) : keepsActiveNodes r r.
Proof.
  intros ref node Hin Hnode _. split; [exact Hin |].
  exists node. split; [exact Hnode | apply extendsNode_refl].
Qed.

Lemma keepsActiveNodes_trans (a b c : Registry) :
  keepsActiveNodes a b -> keepsActiveNodes b c -> keepsActiveNodes a c.
Proof.
  intros Hab Hbc ref node Hin Hnode Hact.
  destruct (Hab ref node Hin Hnode Hact) as (Hin' & node' & Hnode' & Hext).
  assert (Hact' : isPotential node' = false).
  { destruct Hext as (_ & _ & _ & -> & _). exact Hact. }
  destruct (Hbc ref node' Hin' Hnode' Hact') as (Hin'' & node'' & Hnode'' & Hext').
  split; [exact Hin'' |]. exists node''. split; [exact Hnode'' |].
  eapply extendsNode_trans; eassumption.
Qed.

(** A call that leaves the node objects alone and drops potential nodes
    only. *)
Lemma keepsActiveNodes_same_heap (r r' : Registry) :
  heap r' = heap r ->
  (forall ref, In ref (electricalNodes r) -> isPotentialRef r ref = false ->
               In ref (electricalNodes r')) ->
  keepsActiveNodes r r'.
Proof.
  intros Hheap Hkeep ref node Hin Hnode Hact. split.
  - apply Hkeep; [exact Hin |]. unfold isPotentialRef. rewrite Hnode. exact Hact.
  - exists node. rewrite Hheap. split; [exact Hnode | apply extendsNode_refl].
Qed.

Lemma keepsActiveNodes_modify (f : ElectricalNode -> ElectricalNode) (target : nat)
    (r : Registry) :
  (forall node, extendsNode node (f node)) -> keepsActiveNodes r (modify f target r).
Proof.
  intros Hf ref node Hin Hnode _. split; [exact Hin |].
  rewrite lookup_modify, Hnode. destruct (decide (target = ref)); simpl.
  - exists (f node). split; [reflexivity | apply Hf].
  - exists node. split; [reflexivity | apply extendsNode_refl].
Qed.

Lemma keepsActiveNodes_grownBy (r r' : Registry) (added : list PillarFeature) :
  wellFormed r -> grownBy r r' added -> keepsActiveNodes r r'.
Proof.
  intros Hwf Hg ref node Hin Hnode _. pose proof Hg as (_ & Hrefs & _). split.
  - rewrite Hrefs. apply in_or_app. left. exact Hin.
  - exists node. split; [| apply extendsNode_refl].
    rewrite (grownBy_old r r' added ref Hg); [exact Hnode |].
    apply wellFormed_valid; assumption.
Qed.

Lemma keepsActiveNodes_pushNew (node : ElectricalNode) (r : Registry) :
  wellFormed r -> keepsActiveNodes r (fst (pushNew node r)).
Proof.
  intros Hwf ref old Hin Hold _. split.
  - simpl. apply in_or_app. left. exact Hin.
  - exists old. split; [| apply extendsNode_refl].
    rewrite lookup_pushNew_old; [exact Hold | apply wellFormed_valid; assumption].
Qed.

Lemma keepsActiveNodes_removal (polygonId : jsval) (r : Registry) :
  keepsActiveNodes r (fst (removePotentialNodesForProperty polygonId r)).
Proof.
  destruct (removePotentialNodesForProperty_registry polygonId r) as [Hheap Hnodes].
  apply keepsActiveNodes_same_heap; [exact Hheap |].
  intros ref Hin Hact. rewrite Hnodes. apply filter_In. split; [exact Hin |].
  rewrite keptByRemoval_potentialFor, Hact. reflexivity.
Qed.

Lemma wellFormed_same_heap (r r' : Registry) :
  heap r' = heap r -> incl (electricalNodes r') (electricalNodes r) ->
  wellFormed r -> wellFormed r'.
Proof.
  intros Hheap Hincl Hwf. unfold wellFormed. rewrite Hheap.
  apply Forall_forall. intros ref Hin. apply list_elem_of_In, Hincl in Hin.
  apply wellFormed_valid; assumption.
Qed.

Lemma wellFormed_removal (polygonId : jsval) (r : Registry) :
  wellFormed r -> wellFormed (fst (removePotentialNodesForProperty polygonId r)).
Proof.
  destruct (removePotentialNodesForProperty_registry polygonId r) as [Hheap Hnodes].
  apply wellFormed_same_heap; [exact Hheap |].
  rewrite Hnodes. intros ref Hin. apply filter_In in Hin. apply Hin.
Qed.

(** The search for a node to share only registers pillars and, at most,
    adds the parcel to the node it returns. *)
Lemma findNearby_structure (pillarsLayer : PillarsLayer)
    (frontageLines : list LineFeature) (polygonGeometry : Geometry)
    (polygonId : jsval) (r r1 : Registry) (found : option nat) :
  wellFormed r ->
  findNearbyConnectionNode ge pillarsLayer frontageLines polygonGeometry polygonId r
  = (r1, found) ->
  exists added rg,
    grownBy r rg added
    /\ (r1 = rg
        \/ exists best, found = Some best
                        /\ r1 = modify (addProperty polygonId) best rg).
Proof.
  intros Hwf. unfold findNearbyConnectionNode.
  destruct (unionFrontageLines frontageLines ge) as [frontageUnion |].
  2:{ intros [= <- <-]. exists [], r. split; [apply grownBy_refl | left; reflexivity]. }
  destruct (scanMemory ge r _ frontageUnion polygonId (electricalNodes r) None None)
    as [node | bestNode shortestDistance].
  { intros [= <- <-]. exists [], r. split; [apply grownBy_refl | left; reflexivity]. }
  destruct (queryPillars_grows ge pillarsLayer
              (buffer ge frontageUnion SHARING_THRESHOLD) frontageUnion polygonId r
              bestNode shortestDistance Hwf) as (added & rg & search & -> & Hg & _).
  destruct search as [node | [best |] s].
  - intros [= <- <-]. exists added, rg. split; [exact Hg | left; reflexivity].
  - destruct (heap rg !! best) as [node |].
    + destruct (includes (properties node) polygonId).
      * intros [= <- <-]. exists added, rg. split; [exact Hg | left; reflexivity].
      * intros [= <- <-]. exists added, rg. split; [exact Hg |]. right.
        exists best. split; reflexivity.
    + intros [= <- <-]. exists added, rg. split; [exact Hg | left; reflexivity].
  - intros [= <- <-]. exists added, rg. split; [exact Hg | left; reflexivity].
Qed.

Lemma findNearby_keeps (pillarsLayer : PillarsLayer)
    (frontageLines : list LineFeature) (polygonGeometry : Geometry)
    (polygonId : jsval) (r r1 : Registry) (found : option nat) :
  wellFormed r ->
  findNearbyConnectionNode ge pillarsLayer frontageLines polygonGeometry polygonId r
  = (r1, found) ->
  wellFormed r1
  /\ keepsActiveNodes r r1
  /\ electricalLayer r1 = electricalLayer r
  /\ potentialNodes r1 = potentialNodes r.
Proof.
  intros Hwf Hrun.
  destruct (findNearby_structure _ _ _ _ _ _ _ Hwf Hrun) as (added & rg & Hg & Hcase).
  assert (Hwfg : wellFormed rg) by (eapply grownBy_wellFormed; eassumption).
  assert (Hkg : keepsActiveNodes r rg) by (eapply keepsActiveNodes_grownBy; eassumption).
  assert (Hpg : potentialNodes rg = potentialNodes r).
  { unfold potentialNodes. pose proof Hg as (_ & -> & _). rewrite List.filter_app.
    rewrite (filter_all_false (isPotentialRef rg) (seq _ _)).
    - rewrite app_nil_r. apply filter_ext_in. intros ref Hin. unfold isPotentialRef.
      rewrite (grownBy_old r rg added ref Hg); [reflexivity |].
      apply wellFormed_valid; assumption.
    - intros ref Hin. apply in_seq in Hin. unfold isPotentialRef.
      destruct (heap rg !! ref) as [node |] eqn:Hnode; [| reflexivity].
      apply (grownBy_new r rg added ref node Hg); [lia | exact Hnode]. }
  destruct Hcase as [-> | (best & _ & ->)].
  - pose proof Hg as (_ & _ & Hl).
    split; [exact Hwfg |]. split; [exact Hkg |]. split; [exact Hl | exact Hpg].
  - split; [apply wellFormed_modify, Hwfg |]. split; [| split].
    + eapply keepsActiveNodes_trans; [exact Hkg |].
      apply keepsActiveNodes_modify. intros node. apply extendsNode_addProperty.
    + pose proof Hg as (_ & _ & Hl). exact Hl.
    + rewrite <- Hpg. unfold potentialNodes. cbn [modify electricalNodes].
      apply filter_ext. intros ref. apply isPotentialRef_addProperty.
Qed.

End ActiveNodeFacts.

Section AssignmentFacts.
Import Js Geo Electrical Rendering.
Local Open Scope list_scope.

Variable ge : GeometryEngine.

Lemma calculatePotentialNodePositions_four (frontageLines : list LineFeature)
    (workingPolygonGeometry : Geometry) (positions : list LabelledPosition) :
  calculatePotentialNodePositions frontageLines workingPolygonGeometry ge = Ok positions ->
  map label positions = ["first-left"; "first-right"; "last-left"; "last-right"].
Proof.
  unfold calculatePotentialNodePositions.
  destruct frontageLines as [| firstFrontage rest]; [discriminate |].
  destruct (getConvertedFrontageEndpoints firstFrontage ge); [| discriminate].
  unfold bind at 1. cbv beta iota.
  destruct (getConvertedFrontageEndpoints _ ge); [| discriminate].
  simpl. intros [= <-]. reflexivity.
Qed.

(** The outcomes of an assignment, branch by branch. *)
Lemma generateOrFind_cases (pillarsLayer : PillarsLayer) (stamp : string)
    (polygonGraphic : PolygonGraphic) (frontageLines : list LineFeature)
    (r : Registry) :
  let polygonId := Cadastral.polygonId (polygonAttributes polygonGraphic) in
  let working := ensureWebMercator (GPolygon (polygonGeometry polygonGraphic)) ge in
  let outcome :=
    generateOrFindConnectionNode ge pillarsLayer stamp polygonGraphic frontageLines r in
  (frontageLines = [] /\ outcome = (r, Ok None))
  \/ (frontageLines <> []
      /\ exists message,
           calculatePotentialNodePositions frontageLines working ge = Throw message
           /\ outcome = (r, Throw message))
  \/ (frontageLines <> []
      /\ exists positions r1 found,
           calculatePotentialNodePositions frontageLines working ge = Ok positions
           /\ findNearbyConnectionNode ge pillarsLayer frontageLines working polygonId r
              = (r1, found)
           /\ match found with
              | Some nearbyNode =>
                  let r2 :=
                    modify (storeCentroid polygonId (centroid ge working)) nearbyNode r1 in
                  outcome
                  = (fst (removePotentialNodesForProperty polygonId r2),
                     match snd (removePotentialNodesForProperty polygonId r2) with
                     | Ok _ => Ok (Some nearbyNode)
                     | Throw message => Throw message
                     end)
              | None =>
                  match snd (removePotentialNodesForProperty polygonId r1) with
                  | Throw message =>
                      outcome
                      = (fst (removePotentialNodesForProperty polygonId r1), Throw message)
                  | Ok _ =>
                      exists chosen,
                        positions !! 1%nat = Some chosen
                        /\ outcome
                           = (modify (storeCentroid polygonId (centroid ge working))
                                (length (heap r1))
                                (fst (pushNew
                                        (createElectricalNode (pos chosen) polygonId
                                           rightSide stamp true)
                                        (fst (removePotentialNodesForProperty
                                                polygonId r1)))),
                              Ok (Some (length (heap r1))))
                  end
              end).
Proof.
  cbv zeta. unfold generateOrFindConnectionNode.
  destruct frontageLines as [| line rest]; [left; split; reflexivity |]. right.
  set (frontageLines := line :: rest).
  destruct (calculatePotentialNodePositions frontageLines _ ge)
    as [positions | message] eqn:Hpos.
  2:{ left. split; [discriminate |]. exists message. split; reflexivity. }
  right. split; [discriminate |].
  destruct (findNearbyConnectionNode ge pillarsLayer frontageLines _ _ r)
    as [r1 found] eqn:Hfind.
  exists positions, r1, found. split; [reflexivity |]. split; [reflexivity |].
  destruct found as [nearbyNode |].
  - cbv zeta.
    destruct (removePotentialNodesForProperty _ (modify _ nearbyNode r1))
      as [r3 [[] | message]]; reflexivity.
  - unfold createAndRenderPotentialNode.
    pose proof (removePotentialNodesForProperty_registry
                  (Cadastral.polygonId (polygonAttributes polygonGraphic)) r1)
      as [Hheap _].
    destruct (removePotentialNodesForProperty _ r1) as [rc [[] | message]];
      cbn [fst snd] in *; [| reflexivity].
    pose proof (calculatePotentialNodePositions_four _ _ _ Hpos) as Hfour.
    destruct positions as [| p0 [| chosen others]]; try discriminate.
    exists chosen. split; [reflexivity |].
    cbn [lookup list_lookup]. unfold pushNew. cbn [fst]. rewrite Hheap. reflexivity.
Qed.

End AssignmentFacts.

Section VisualizationFacts.
Import Js Geo Electrical Rendering.
Local Open Scope list_scope.

Variable ge : GeometryEngine.

(** The markers the loop body adds for the node [ref]. *)
Lemma renderNearby_layer (frontageBuffer workingPolygon : Geometry)
    (primaryNodeId : jsval) (r : Registry) (ref : nat)
    (graphics : list ElectricalGraphic) :
  electricalLayer r = Some graphics ->
  renderNearby ge frontageBuffer workingPolygon primaryNodeId r ref
  = withGraphics
      (graphics
       ++ (if shouldRender ge frontageBuffer primaryNodeId r ref
           then match heap r !! ref with
                | Some node => markersOf node
                | None => []
                end
           else []))
      r.
Proof.
  intros Hlayer. unfold renderNearby, shouldRender.
  assert (Hsame : r = withGraphics (graphics ++ []) r).
  { destruct r as [h n l]. simpl in Hlayer. subst l. unfold withGraphics. simpl.
    rewrite app_nil_r. reflexivity. }
  destruct (heap r !! ref) as [node |]; [| exact Hsame].
  destruct (_ || _); [| exact Hsame].
  unfold renderElectricalNode, addDistanceLabel, addPropertyLabel. rewrite Hlayer.
  cbn [withGraphics electricalLayer heap electricalNodes].
  destruct (negb _); unfold withGraphics, markersOf; simpl;
    rewrite <- app_assoc; reflexivity.
Qed.

Lemma renderNearby_fold (frontageBuffer workingPolygon : Geometry)
    (primaryNodeId : jsval) (nearby : list nat) :
  forall (r : Registry) (graphics : list ElectricalGraphic),
    electricalLayer r = Some graphics ->
    fold_left (renderNearby ge frontageBuffer workingPolygon primaryNodeId) nearby r
    = withGraphics
        (graphics
         ++ flat_map (fun ref => match heap r !! ref with
                                 | Some node => markersOf node
                                 | None => []
                                 end)
              (List.filter (shouldRender ge frontageBuffer primaryNodeId r) nearby))
        r.
Proof.
  induction nearby as [| ref rest IH]; intros r graphics Hlayer.
  - simpl. destruct r as [h n l]. simpl in Hlayer. subst l.
    unfold withGraphics. simpl. rewrite app_nil_r. reflexivity.
  - cbn [fold_left]. rewrite (renderNearby_layer _ _ _ r ref graphics Hlayer).
    erewrite IH by reflexivity.
    unfold withGraphics. cbn [heap electricalNodes electricalLayer]. f_equal.
    rewrite <- app_assoc. f_equal. cbn [List.filter].
    assert (Hshould : forall q,
               shouldRender ge frontageBuffer primaryNodeId
                 {| heap := heap r; electricalNodes := electricalNodes r;
                    electricalLayer := q |}
               = shouldRender ge frontageBuffer primaryNodeId r) by reflexivity.
    rewrite Hshould.
    destruct (shouldRender ge frontageBuffer primaryNodeId r ref); reflexivity.
Qed.

Lemma removeLabels_layer (r : Registry) (graphics : list ElectricalGraphic) :
  electricalLayer r = Some graphics ->
  fst (removeElectricalGraphics isDistanceLabel r)
  = withGraphics (List.filter (fun g => negb (isDistanceLabel g)) graphics) r.
Proof. intros Hlayer. unfold removeElectricalGraphics. rewrite Hlayer. reflexivity. Qed.

(** X2.  A visualisation refresh for a parcel with frontage, on a layer
    that is set: the node objects and the registry array are left alone;
    the labels on the layer are removed while every node marker and
    connection line already there stays; and for each node to process that
    is the primary node or lies in the 30 m frontage buffer, in order, one
    marker flagged nearby followed by one label is appended.  The frontage
    lines become the current frontage lines.  Without frontage lines, or
    without a layer, nothing is changed. *)
Theorem updateNodeVisualization_layer (frontageLines : list LineFeature)
    (polygonGeometry : Geometry) (primaryNodeId : jsval) (r : Registry)
    (current : option (list LineFeature)) :
  let outcome :=
    updateNodeVisualizationForProperty ge frontageLines polygonGeometry
      primaryNodeId r current in
  (frontageLines = [] \/ electricalLayer r = None -> outcome = (r, current))
  /\ (forall graphics frontageUnion,
         electricalLayer r = Some graphics ->
         unionFrontageLines frontageLines ge = Some frontageUnion ->
         let frontageBuffer := buffer ge frontageUnion SHARING_THRESHOLD in
         let searchBuffer := buffer ge frontageUnion SEARCH_RADIUS in
         let nearby := withPrimary r primaryNodeId (nearbyNodes ge searchBuffer r) in
         heap (fst outcome) = heap r
         /\ electricalNodes (fst outcome) = electricalNodes r
         /\ electricalLayer (fst outcome)
            = Some (List.filter (fun g => negb (isDistanceLabel g)) graphics
                    ++ flat_map (fun ref => match heap r !! ref with
                                            | Some node => markersOf node
                                            | None => []
                                            end)
                         (List.filter
                            (shouldRender ge frontageBuffer primaryNodeId r) nearby))
         /\ snd outcome = Some frontageLines).
Proof.
  cbv zeta. unfold updateNodeVisualizationForProperty. split.
  - intros [-> | Hnone]; [reflexivity |].
    destruct frontageLines; [reflexivity |]. rewrite Hnone. reflexivity.
  - intros graphics frontageUnion Hlayer Hunion.
    destruct frontageLines as [| line rest]; [discriminate |].
    rewrite Hlayer, Hunion. rewrite (removeLabels_layer r graphics Hlayer).
    cbn [fst snd].
    erewrite renderNearby_fold by reflexivity.
    cbn [withGraphics heap electricalNodes electricalLayer].
    repeat split.
Qed.

End VisualizationFacts.

Section PrimaryNodeFacts.
Import Js Geo Electrical Rendering.
Local Open Scope list_scope.

Variable ge : GeometryEngine.

Lemma withPrimary_has_primary (r : Registry) (primaryNodeId : jsval)
    (nearby : list nat) (primaryNode : nat) :
  incl nearby (electricalNodes r) ->
  truthy primaryNodeId = true ->
  findById r primaryNodeId = Some primaryNode ->
  exists ref,
    In ref (withPrimary r primaryNodeId nearby)
    /\ In ref (electricalNodes r)
    /\ hasId r primaryNodeId ref = true.
Proof.
  intros Hincl Htruthy Hfind. unfold withPrimary. rewrite Htruthy, Hfind.
  destruct (existsb (hasId r primaryNodeId) nearby) eqn:Hsome.
  - apply existsb_exists in Hsome as (ref & Hin & Hid).
    exists ref. split; [exact Hin |]. split; [apply Hincl, Hin | exact Hid].
  - destruct (findById_some r primaryNodeId primaryNode Hfind)
      as (Hin & node & Hnode & Hid).
    exists primaryNode. split; [apply in_or_app; right; left; reflexivity |].
    split; [exact Hin |]. unfold hasId. rewrite Hnode. exact Hid.
Qed.

(** X3.  The primary node of a refresh is always drawn: when the primary
    identifier names a node in memory, the layer afterwards holds a marker,
    flagged nearby, of a node in memory that carries this identifier,
    wherever that node lies: neither the 400 m search radius nor the 30 m
    buffer is consulted for it. *)
Theorem primary_node_is_always_drawn (frontageLines : list LineFeature)
    (polygonGeometry : Geometry) (primaryNodeId : jsval) (r : Registry)
    (current : option (list LineFeature)) (graphics : list ElectricalGraphic)
    (primaryNode : nat) :
  frontageLines <> [] ->
  electricalLayer r = Some graphics ->
  truthy primaryNodeId = true ->
  findById r primaryNodeId = Some primaryNode ->
  exists ref node graphics',
    In ref (electricalNodes r)
    /\ heap r !! ref = Some node
    /\ nodeId node = primaryNodeId
    /\ electricalLayer
         (fst (updateNodeVisualizationForProperty ge frontageLines polygonGeometry
                 primaryNodeId r current)) = Some graphics'
    /\ In (nodeGraphicOf node true) graphics'.
Proof.
  intros Hlines Hlayer Htruthy Hfind.
  destruct frontageLines as [| line rest]; [contradiction |].
  destruct (union_of_lines ge line rest) as [frontageUnion Hunion].
  destruct (withPrimary_has_primary r primaryNodeId
              (nearbyNodes ge (buffer ge frontageUnion SEARCH_RADIUS) r) primaryNode)
    as (ref & Hnear & Hin & Hid).
  { intros x Hx. unfold nearbyNodes in Hx. apply filter_In in Hx. apply Hx. }
  { exact Htruthy. }
  { exact Hfind. }
  unfold hasId in Hid. destruct (heap r !! ref) as [node |] eqn:Hnode; [| discriminate].
  exists ref, node.
  unfold updateNodeVisualizationForProperty. rewrite Hlayer, Hunion.
  rewrite (removeLabels_layer r graphics Hlayer). cbn [fst].
  erewrite renderNearby_fold by reflexivity.
  cbn [withGraphics heap electricalNodes electricalLayer].
  eexists. split; [exact Hin |]. split; [exact Hnode |].
  split; [apply strict_eq_eq, Hid |]. split; [reflexivity |].
  apply in_or_app. right. apply in_flat_map. exists ref. split.
  - apply filter_In. split; [exact Hnear |].
    unfold shouldRender. cbn [heap withGraphics]. rewrite Hnode, Htruthy, Hid.
    reflexivity.
  - cbn [heap withGraphics]. rewrite Hnode. left. reflexivity.
Qed.

End PrimaryNodeFacts.

Section OperationFacts.
Import Js Geo Electrical Rendering.
Local Open Scope list_scope.

Variable ge : GeometryEngine.

Lemma drawConnectionLines_registry (node : option nat) (currentPropertyId : jsval)
    (r : Registry) :
  heap (drawConnectionLines node currentPropertyId r) = heap r
  /\ electricalNodes (drawConnectionLines node currentPropertyId r) = electricalNodes r.
Proof.
  unfold drawConnectionLines.
  destruct node as [ref |]; [| split; reflexivity].
  destruct (heap r !! ref) as [n |]; [| split; reflexivity].
  destruct (isPotential n); [split; reflexivity |].
  destruct (propertyCentroids n) as [centroids |]; [| split; reflexivity].
  destruct (negb _); [split; reflexivity |].
  destruct (centroids !! _); [| split; reflexivity].
  destruct (electricalLayer r); split; reflexivity.
Qed.

Lemma updateNodeVisualization_registry (frontageLines : list LineFeature)
    (polygonGeometry : Geometry) (primaryNodeId : jsval) (r : Registry)
    (current : option (list LineFeature)) :
  heap (fst (updateNodeVisualizationForProperty ge frontageLines polygonGeometry
               primaryNodeId r current)) = heap r
  /\ electricalNodes
       (fst (updateNodeVisualizationForProperty ge frontageLines polygonGeometry
               primaryNodeId r current)) = electricalNodes r.
Proof.
  unfold updateNodeVisualizationForProperty.
  destruct frontageLines as [| line rest]; [split; reflexivity |].
  destruct (electricalLayer r) as [graphics |] eqn:Hlayer; [| split; reflexivity].
  destruct (union_of_lines ge line rest) as [frontageUnion Hunion]. rewrite Hunion.
  rewrite (removeLabels_layer r graphics Hlayer). cbn [fst].
  erewrite renderNearby_fold by reflexivity. split; reflexivity.
Qed.

Lemma assignment_keeps (pillarsLayer : PillarsLayer) (stamp : string)
    (polygonGraphic : PolygonGraphic) (frontageLines : list LineFeature)
    (r : Registry) :
  wellFormed r ->
  let r' := fst (generateOrFindConnectionNode ge pillarsLayer stamp polygonGraphic
                   frontageLines r) in
  wellFormed r' /\ keepsActiveNodes r r'.
Proof.
  intros Hwf. cbv zeta.
  destruct (generateOrFind_cases ge pillarsLayer stamp polygonGraphic frontageLines r)
    as [[_ ->] | [(_ & message & _ & ->) | (_ & positions & r1 & found & _ & Hfind & Hout)]];
    try (split; [exact Hwf | apply keepsActiveNodes_refl]).
  destruct (findNearby_keeps ge _ _ _ _ _ _ _ Hwf Hfind) as (Hwf1 & Hk1 & _ & _).
  destruct found as [nearbyNode |].
  - cbv zeta in Hout. rewrite Hout. cbn [fst]. split.
    + apply wellFormed_removal, wellFormed_modify, Hwf1.
    + eapply keepsActiveNodes_trans; [exact Hk1 |].
      eapply keepsActiveNodes_trans; [| apply keepsActiveNodes_removal].
      apply keepsActiveNodes_modify. intros node. apply extendsNode_storeCentroid.
  - destruct (snd (removePotentialNodesForProperty _ r1)) as [[] | message].
    + destruct Hout as (chosen & _ & ->). cbn [fst]. split.
      * apply wellFormed_modify, wellFormed_pushNew, wellFormed_removal, Hwf1.
      * eapply keepsActiveNodes_trans; [exact Hk1 |].
        eapply keepsActiveNodes_trans; [apply keepsActiveNodes_removal |].
        eapply keepsActiveNodes_trans;
          [apply keepsActiveNodes_pushNew, wellFormed_removal, Hwf1 |].
        apply keepsActiveNodes_modify. intros node. apply extendsNode_storeCentroid.
    + rewrite Hout. cbn [fst]. split; [apply wellFormed_removal, Hwf1 |].
      eapply keepsActiveNodes_trans; [exact Hk1 | apply keepsActiveNodes_removal].
Qed.

Lemma run_keeps (r : Registry) (op : Operation) :
  wellFormed r -> wellFormed (run ge r op) /\ keepsActiveNodes r (run ge r op).
Proof.
  intros Hwf.
  assert (Hsame : forall r',
             heap r' = heap r -> electricalNodes r' = electricalNodes r ->
             wellFormed r' /\ keepsActiveNodes r r').
  { intros r' Hheap Hnodes. split.
    - apply (wellFormed_same_heap r r' Hheap); [| exact Hwf].
      rewrite Hnodes. apply incl_refl.
    - apply keepsActiveNodes_same_heap; [exact Hheap |].
      intros ref Hin _. rewrite Hnodes. exact Hin. }
  destruct op as [pillarsLayer stamp polygonGraphic frontageLines | | | |
                  node currentPropertyId | frontageLines polygonGeometry primaryNodeId];
    cbn [run].
  - apply assignment_keeps, Hwf.
  - destruct (removeAllPotentialNodes_registry r) as [Hheap Hnodes]. split.
    + apply (wellFormed_same_heap r _ Hheap); [| exact Hwf].
      rewrite Hnodes. intros ref Hin. apply filter_In in Hin. apply Hin.
    + apply keepsActiveNodes_same_heap; [exact Hheap |].
      intros ref Hin Hact. rewrite Hnodes. apply filter_In.
      split; [exact Hin | rewrite Hact; reflexivity].
  - destruct (clearAllElectricalNodeGraphics_registry r) as (Hheap & Hnodes & _).
    apply Hsame; assumption.
  - destruct (clearConnectionLines_registry r) as (Hheap & Hnodes & _).
    apply Hsame; assumption.
  - destruct (drawConnectionLines_registry node currentPropertyId r) as [Hheap Hnodes].
    apply Hsame; assumption.
  - destruct (updateNodeVisualization_registry frontageLines polygonGeometry
                primaryNodeId r None) as [Hheap Hnodes].
    apply Hsame; assumption.
Qed.

(** X4.  Whatever sequence of calls the application makes into the
    electrical module, starting from a registry whose references are valid:
    the references stay valid, and no pillar or service node is ever
    dropped from memory or altered other than by gaining parcels: it keeps
    its identifier, kind and position, and the parcels it serves are never
    taken away. *)
Theorem active_nodes_are_never_released (operations : list Operation) (r : Registry) :
  wellFormed r ->
  wellFormed (fold_left (run ge) operations r)
  /\ keepsActiveNodes r (fold_left (run ge) operations r).
Proof.
  revert r. induction operations as [| op rest IH]; intros r Hwf.
  - split; [exact Hwf | apply keepsActiveNodes_refl].
  - cbn [fold_left]. destruct (run_keeps r op Hwf) as [Hwf1 Hk1].
    destruct (IH (run ge r op) Hwf1) as [Hwf2 Hk2].
    split; [exact Hwf2 | eapply keepsActiveNodes_trans; eassumption].
Qed.

End OperationFacts.

Section AssignmentOutcomeFacts.
Import Js Geo Electrical Rendering.
Local Open Scope list_scope.

Variable ge : GeometryEngine.

Lemma potentialNodes_nil (r : Registry) :
  potentialNodes r = []
  <-> forall ref, In ref (electricalNodes r) -> isPotentialRef r ref = false.
Proof.
  unfold potentialNodes. split.
  - intros Hnil ref Hin. destruct (isPotentialRef r ref) eqn:Hpot; [| reflexivity].
    assert (Hmem : In ref (List.filter (isPotentialRef r) (electricalNodes r)))
      by (apply filter_In; split; assumption).
    rewrite Hnil in Hmem. destruct Hmem.
  - apply filter_all_false.
Qed.

Lemma potentialNodes_nil_same_heap (r r' : Registry) :
  heap r' = heap r -> incl (electricalNodes r') (electricalNodes r) ->
  potentialNodes r = [] -> potentialNodes r' = [].
Proof.
  rewrite !potentialNodes_nil. intros Hheap Hincl Hnil ref Hin.
  unfold isPotentialRef. rewrite Hheap. apply Hnil, Hincl, Hin.
Qed.

Lemma removal_incl (polygonId : jsval) (r : Registry) :
  incl (electricalNodes (fst (removePotentialNodesForProperty polygonId r)))
       (electricalNodes r).
Proof.
  destruct (removePotentialNodesForProperty_registry polygonId r) as [_ ->].
  intros ref Hin. apply filter_In in Hin. apply Hin.
Qed.

(** The node the search returns is one of the nodes in memory. *)
Lemma findNearby_in_memory (pillarsLayer : PillarsLayer)
    (frontageLines : list LineFeature) (polygonGeometry : Geometry)
    (polygonId : jsval) (r r1 : Registry) (ref : nat) :
  wellFormed r ->
  findNearbyConnectionNode ge pillarsLayer frontageLines polygonGeometry polygonId r
  = (r1, Some ref) ->
  In ref (electricalNodes r1).
Proof.
  intros Hwf. unfold findNearbyConnectionNode.
  destruct (unionFrontageLines frontageLines ge) as [frontageUnion |]; [| discriminate].
  pose proof (scanMemory_find ge r (buffer ge frontageUnion SHARING_THRESHOLD)
                frontageUnion polygonId (electricalNodes r) None None) as Hscan.
  destruct (List.find (activeServing r polygonId) (electricalNodes r))
    as [serving |] eqn:Hfind.
  { rewrite Hscan. intros [= <- <-]. apply (find_some _ _ Hfind). }
  destruct Hscan as (b & s & -> & Hb).
  destruct (queryPillars_grows ge pillarsLayer
              (buffer ge frontageUnion SHARING_THRESHOLD) frontageUnion polygonId r
              b s Hwf) as (added & rg & search & -> & Hg & Hsearch).
  pose proof Hg as (_ & Hrefs & _).
  assert (Hbest : forall best,
             search = Candidate (Some best) s \/ (exists s', search = Candidate (Some best) s') ->
             In best (electricalNodes rg)).
  { intros best [-> | [s' ->]].
    - destruct Hsearch as [<- | (ref0 & [= <-] & Hin)]; [| exact Hin].
      destruct Hb as [[=] | (ref0 & [= <-] & Hin & _)].
      rewrite Hrefs. apply in_or_app. left. exact Hin.
    - destruct Hsearch as [<- | (ref0 & [= <-] & Hin)]; [| exact Hin].
      destruct Hb as [[=] | (ref0 & [= <-] & Hin & _)].
      rewrite Hrefs. apply in_or_app. left. exact Hin. }
  destruct search as [node | [best |] s'].
  - intros [= <- <-]. destruct Hsearch as [Hin _].
    rewrite Hrefs. apply in_or_app. left. exact Hin.
  - assert (Hin : In best (electricalNodes rg)) by (apply Hbest; right; eauto).
    destruct (heap rg !! best) as [node |].
    + destruct (includes (properties node) polygonId); intros [= <- <-]; exact Hin.
    + intros [= <- <-]. exact Hin.
  - discriminate.
Qed.

(** The potential nodes after an assignment on a registry that holds none. *)
Lemma assignment_potentialNodes (pillarsLayer : PillarsLayer)
    (stamp : string) (polygonGraphic : PolygonGraphic)
    (frontageLines : list LineFeature) (r0 r' : Registry)
    (outcome : Result (option nat)) :
  wellFormed r0 ->
  potentialNodes r0 = [] ->
  generateOrFindConnectionNode ge pillarsLayer stamp polygonGraphic frontageLines r0
  = (r', outcome) ->
  potentialNodes r'
  = match outcome with
    | Ok (Some ref) => if isPotentialRef r' ref then [ref] else []
    | _ => []
    end.
Proof.
  intros Hwf0 P0 Hrun.
  destruct (generateOrFind_cases ge pillarsLayer stamp polygonGraphic frontageLines r0)
    as [[_ Hout] | [(_ & message & _ & Hout)
                   | (_ & positions & r1 & found & _ & Hfind & Hout)]].
  - rewrite Hout in Hrun. injection Hrun as <- <-. exact P0.
  - rewrite Hout in Hrun. injection Hrun as <- <-. exact P0.
  - destruct (findNearby_keeps ge _ _ _ _ _ _ _ Hwf0 Hfind) as (Hwf1 & _ & _ & P1).
    rewrite P0 in P1.
    set (polygonId := Cadastral.polygonId (polygonAttributes polygonGraphic)) in *.
    destruct found as [nearbyNode |].
    + cbv zeta in Hout. rewrite Hout in Hrun. injection Hrun as <- <-.
      set (r2 := modify _ nearbyNode r1).
      assert (P2 : potentialNodes r2 = []).
      { apply potentialNodes_nil. intros ref Hin. unfold r2.
        rewrite isPotentialRef_storeCentroid.
        apply (proj1 (potentialNodes_nil r1) P1). exact Hin. }
      destruct (removePotentialNodesForProperty_registry polygonId r2) as [Hheap _].
      assert (P3 : potentialNodes (fst (removePotentialNodesForProperty polygonId r2))
                   = []).
      { apply (potentialNodes_nil_same_heap r2); [exact Hheap | apply removal_incl |].
        exact P2. }
      rewrite P3.
      destruct (snd (removePotentialNodesForProperty polygonId r2)) as [[] | message];
        [| reflexivity].
      assert (Hact : isPotentialRef (fst (removePotentialNodesForProperty polygonId r2))
                       nearbyNode = false).
      { unfold isPotentialRef at 1. rewrite Hheap. fold (isPotentialRef r2 nearbyNode).
        unfold r2. rewrite isPotentialRef_storeCentroid.
        apply (proj1 (potentialNodes_nil r1) P1).
        apply (findNearby_in_memory _ _ _ _ _ _ _ Hwf0 Hfind). }
      rewrite Hact. reflexivity.
    + destruct (removePotentialNodesForProperty_registry polygonId r1) as [Hheap Hnodes].
      assert (Pc : potentialNodes (fst (removePotentialNodesForProperty polygonId r1))
                   = []).
      { apply (potentialNodes_nil_same_heap r1); [exact Hheap | apply removal_incl |].
        exact P1. }
      destruct (snd (removePotentialNodesForProperty polygonId r1)) as [[] | message].
      * destruct Hout as (chosen & _ & Hout). rewrite Hout in Hrun.
        injection Hrun as <- <-.
        set (rc := fst (removePotentialNodesForProperty polygonId r1)) in *.
        set (rf := modify _ (length (heap r1)) _).
        assert (Hnew : isPotentialRef rf (length (heap r1)) = true).
        { unfold rf. rewrite isPotentialRef_storeCentroid. unfold isPotentialRef, pushNew.
          cbn [fst heap]. rewrite Hheap, lookup_app_r, Nat.sub_diag by lia.
          reflexivity. }
        assert (Hrefs : electricalNodes rf = electricalNodes rc ++ [length (heap r1)]).
        { unfold rf, pushNew. cbn [modify fst electricalNodes]. rewrite Hheap.
          reflexivity. }
        rewrite Hnew. unfold potentialNodes. rewrite Hrefs, List.filter_app.
        cbn [List.filter]. rewrite Hnew.
        rewrite (filter_all_false _ (electricalNodes rc)); [reflexivity |].
        intros ref Hin. unfold rf. rewrite isPotentialRef_storeCentroid.
        unfold isPotentialRef, pushNew. cbn [fst heap].
        assert (Hlt : (ref < length (heap rc))%nat).
        { apply wellFormed_valid; [apply wellFormed_removal, Hwf1 | exact Hin]. }
        rewrite lookup_app_l by exact Hlt.
        apply (proj1 (potentialNodes_nil rc) Pc ref Hin).
      * rewrite Hout in Hrun. injection Hrun as <- <-. exact Pc.
Qed.

(** X5.  When a parcel is selected, the electrical display is cleared and
    the parcel is then assigned a node: afterwards memory holds at most one
    potential node in all, namely the node the assignment returned when that
    node is a potential one, and none otherwise. *)
Theorem one_potential_node_after_selection (pillarsLayer : PillarsLayer)
    (stamp : string) (polygonGraphic : PolygonGraphic)
    (frontageLines : list LineFeature) (r r' : Registry)
    (outcome : Result (option nat)) :
  wellFormed r ->
  generateOrFindConnectionNode ge pillarsLayer stamp polygonGraphic frontageLines
    (clearPreviousSelection r) = (r', outcome) ->
  potentialNodes r'
  = match outcome with
    | Ok (Some ref) => if isPotentialRef r' ref then [ref] else []
    | _ => []
    end.
Proof.
  intros Hwf Hrun.
  destruct (clearPreviousSelection_registry r) as (H0 & N0 & _ & P0).
  apply (assignment_potentialNodes pillarsLayer stamp polygonGraphic frontageLines
           (clearPreviousSelection r) r' outcome); [| exact P0 | exact Hrun].
  apply (wellFormed_same_heap r _ H0); [| exact Hwf].
  rewrite N0. intros ref Hin. apply filter_In in Hin. apply Hin.
Qed.

End AssignmentOutcomeFacts.

Section AssignmentFailureFacts.
Import Js Geo Electrical Rendering.
Local Open Scope list_scope.

Variable ge : GeometryEngine.

Lemma getConvertedFrontageEndpoints_outcome (line : LineFeature) :
  if hasEndpoints line
  then exists endpoints, getConvertedFrontageEndpoints line ge = Ok endpoints
  else getConvertedFrontageEndpoints line ge = Throw "TypeError".
Proof.
  unfold hasEndpoints, getConvertedFrontageEndpoints.
  destruct (head (paths (geometry line))) as [[| startPoint rest] |];
    try reflexivity.
  destruct (negb _); eauto.
Qed.

Lemma calculatePotentialNodePositions_outcome (firstFrontage : LineFeature)
    (others : list LineFeature) (working : Geometry) :
  let lastFrontage := List.last (firstFrontage :: others) firstFrontage in
  if hasEndpoints firstFrontage && hasEndpoints lastFrontage
  then exists positions,
         calculatePotentialNodePositions (firstFrontage :: others) working ge
         = Ok positions
  else calculatePotentialNodePositions (firstFrontage :: others) working ge
       = Throw "TypeError".
Proof.
  cbv zeta. unfold calculatePotentialNodePositions.
  pose proof (getConvertedFrontageEndpoints_outcome firstFrontage) as Hfirst.
  pose proof (getConvertedFrontageEndpoints_outcome
                (List.last (firstFrontage :: others) firstFrontage)) as Hlast.
  destruct (hasEndpoints firstFrontage).
  - destruct Hfirst as [e1 ->]. unfold bind at 1. cbv beta iota.
    destruct (hasEndpoints (List.last (firstFrontage :: others) firstFrontage)).
    + destruct Hlast as [e2 ->]. simpl. eauto.
    + rewrite Hlast. reflexivity.
  - rewrite Hfirst. reflexivity.
Qed.

Lemma removal_outcome (polygonId : jsval) (r : Registry) :
  (snd (removePotentialNodesForProperty polygonId r) = Throw "TypeError"
   <-> removalRaises polygonId (electricalLayer r))
  /\ (snd (removePotentialNodesForProperty polygonId r) = Ok tt
      \/ snd (removePotentialNodesForProperty polygonId r) = Throw "TypeError").
Proof.
  unfold removePotentialNodesForProperty, removalRaises. cbn [withNodes electricalLayer].
  destruct (electricalLayer r) as [graphics |].
  - destruct (toString polygonId) as [idText |]; cbn [snd].
    + split; [| left; reflexivity]. split; [discriminate | intros [[=] _]].
    + destruct (existsb isPotentialGraphic graphics) eqn:Hany; cbn [snd].
      * split; [| right; reflexivity]. split; [| reflexivity].
        intros _. split; [reflexivity |]. exists graphics. split; [reflexivity | exact Hany].
      * split; [| left; reflexivity]. split; [discriminate |].
        intros (_ & g & [= <-] & Hg). congruence.
  - cbn [snd]. split; [| left; reflexivity].
    split; [discriminate | intros (_ & g & [=] & _)].
Qed.

(** X6.  An assignment for a parcel with frontage lines either returns a
    node or raises a TypeError, it never returns null.  It raises exactly
    when the first or the last frontage line has no first path or an empty
    one, or when the parcel identifier is undefined or null while the layer
    shows the marker of a potential node (the marker filter then calls
    toString on the identifier). *)
Theorem assignment_raises_iff (pillarsLayer : PillarsLayer) (stamp : string)
    (polygonGraphic : PolygonGraphic) (firstFrontage : LineFeature)
    (others : list LineFeature) (r : Registry) :
  wellFormed r ->
  let frontageLines := firstFrontage :: others in
  let lastFrontage := List.last frontageLines firstFrontage in
  let polygonId := Cadastral.polygonId (polygonAttributes polygonGraphic) in
  let outcome :=
    snd (generateOrFindConnectionNode ge pillarsLayer stamp polygonGraphic
           frontageLines r) in
  (outcome = Throw "TypeError"
   <-> hasEndpoints firstFrontage = false
       \/ hasEndpoints lastFrontage = false
       \/ removalRaises polygonId (electricalLayer r))
  /\ ((exists ref, outcome = Ok (Some ref)) \/ outcome = Throw "TypeError").
Proof.
  intros Hwf. cbv zeta.
  set (polygonId := Cadastral.polygonId (polygonAttributes polygonGraphic)).
  set (working := ensureWebMercator (GPolygon (polygonGeometry polygonGraphic)) ge).
  pose proof (calculatePotentialNodePositions_outcome firstFrontage others working)
    as Hpos. cbv zeta in Hpos.
  destruct (generateOrFind_cases ge pillarsLayer stamp polygonGraphic
              (firstFrontage :: others) r)
    as [[[=] _] | [(_ & message & Hthrow & ->)
                  | (_ & positions & r1 & found & Hok & Hfind & Hout)]].
  - fold working in Hthrow. cbn [snd].
    destruct (hasEndpoints firstFrontage && hasEndpoints _) eqn:Hends.
    { destruct Hpos as [ps Hps]. congruence. }
    assert (message = "TypeError") as -> by congruence.
    split; [| right; reflexivity]. split; [| reflexivity]. intros _.
    apply andb_false_iff in Hends as [-> | ->]; [left | right; left]; reflexivity.
  - fold working in Hok. fold working polygonId in Hfind. fold working polygonId in Hout.
    destruct (hasEndpoints firstFrontage && hasEndpoints _) eqn:Hends;
      [| congruence].
    apply andb_true_iff in Hends as [E1 E2]. rewrite E1, E2.
    destruct (findNearby_keeps ge _ _ _ _ _ _ _ Hwf Hfind) as (_ & _ & Hlayer & _).
    destruct found as [nearbyNode |].
    + cbv zeta in Hout. rewrite Hout. cbn [snd].
      set (r2 := modify _ nearbyNode r1).
      destruct (removal_outcome polygonId r2) as [Hraise Hcases].
      assert (Hl2 : electricalLayer r2 = electricalLayer r) by exact Hlayer.
      rewrite Hl2 in Hraise.
      destruct Hcases as [Hsafe | Hthrow]; rewrite ?Hsafe, ?Hthrow in *.
      * split; [| left; eauto]. split; [discriminate |].
        intros [[=] | [[=] | Hr]]. apply Hraise in Hr. discriminate.
      * split; [| right; reflexivity]. split; [| reflexivity].
        intros _. right. right. apply Hraise. reflexivity.
    + destruct (removal_outcome polygonId r1) as [Hraise Hcases].
      rewrite Hlayer in Hraise.
      destruct Hcases as [Hsafe | Hthrow]; rewrite ?Hsafe, ?Hthrow in *.
      * destruct Hout as (chosen & _ & ->). cbn [snd].
        split; [| left; eauto]. split; [discriminate |].
        intros [[=] | [[=] | Hr]]. apply Hraise in Hr. discriminate.
      * rewrite Hout. cbn [snd]. split; [| right; reflexivity].
        split; [| reflexivity]. intros _. right. right. apply Hraise. reflexivity.
Qed.

Lemma drawConnectionLines_stored (polygonId : jsval) (c : Point)
    (before : ElectricalNode) (ref : nat) (r : Registry) :
  heap r !! ref = Some (storeCentroid polygonId c before) ->
  drawConnectionLines (Some ref) polygonId r
  = if isPotential before || negb (truthy polygonId) then r
    else match electricalLayer r with
         | Some graphics =>
             withGraphics (graphics ++ [ConnectionLine (nodeId before) polygonId]) r
         | None => r
         end.
Proof.
  intros Hnode. unfold drawConnectionLines. rewrite Hnode.
  cbn [storeCentroid isPotential propertyCentroids nodeId].
  destruct (isPotential before); [reflexivity |].
  destruct (truthy polygonId); [| reflexivity].
  cbn [negb orb]. rewrite lookup_insert_eq. reflexivity.
Qed.

(** X7.  After an assignment that returns a node, drawing the connection
    line for the same parcel finds the centroid the assignment stored under
    the parcel identifier: for a pillar or service node and a truthy
    identifier one connection line, from that node to that parcel, is
    appended to the layer when the layer is set; for a potential node, or
    for a falsy identifier, nothing is drawn. *)
Theorem connection_line_after_assignment (pillarsLayer : PillarsLayer)
    (stamp : string) (polygonGraphic : PolygonGraphic)
    (frontageLines : list LineFeature) (r r' : Registry) (ref : nat) :
  wellFormed r ->
  generateOrFindConnectionNode ge pillarsLayer stamp polygonGraphic frontageLines r
  = (r', Ok (Some ref)) ->
  let polygonId := Cadastral.polygonId (polygonAttributes polygonGraphic) in
  exists node,
    heap r' !! ref = Some node
    /\ drawConnectionLines (Some ref) polygonId r'
       = if isPotential node || negb (truthy polygonId) then r'
         else match electricalLayer r' with
              | Some graphics =>
                  withGraphics (graphics ++ [ConnectionLine (nodeId node) polygonId]) r'
              | None => r'
              end.
Proof.
  intros Hwf Hrun. cbv zeta.
  set (polygonId := Cadastral.polygonId (polygonAttributes polygonGraphic)).
  set (working := ensureWebMercator (GPolygon (polygonGeometry polygonGraphic)) ge).
  assert (Hstored : exists before,
             heap r' !! ref
             = Some (storeCentroid polygonId (centroid ge working) before)).
  { destruct (generateOrFind_cases ge pillarsLayer stamp polygonGraphic frontageLines r)
      as [[_ Hout] | [(_ & message & _ & Hout)
                     | (_ & positions & r1 & found & _ & Hfind & Hout)]];
      try (rewrite Hout in Hrun; discriminate).
    fold working polygonId in Hfind. fold working polygonId in Hout.
    destruct (findNearby_keeps ge _ _ _ _ _ _ _ Hwf Hfind) as (Hwf1 & _ & _ & _).
    destruct found as [nearbyNode |].
    - cbv zeta in Hout. rewrite Hout in Hrun.
      set (r2 := modify _ nearbyNode r1) in *.
      destruct (removePotentialNodesForProperty_registry polygonId r2) as [Hheap _].
      destruct (snd (removePotentialNodesForProperty polygonId r2)); [| discriminate].
      injection Hrun as <- <-. rewrite Hheap. unfold r2. rewrite lookup_modify.
      destruct (decide (nearbyNode = nearbyNode)); [| contradiction].
      pose proof (findNearby_in_memory ge _ _ _ _ _ _ _ Hwf Hfind) as Hin.
      apply (wellFormed_valid r1 nearbyNode Hwf1) in Hin.
      apply lookup_lt_is_Some_2 in Hin as [before Hbefore].
      exists before. rewrite Hbefore. reflexivity.
    - destruct (removePotentialNodesForProperty_registry polygonId r1) as [Hheap _].
      destruct (snd (removePotentialNodesForProperty polygonId r1)) as [[] | message].
      + destruct Hout as (chosen & _ & Hout). rewrite Hout in Hrun.
        injection Hrun as <- <-. rewrite lookup_modify.
        destruct (decide (length (heap r1) = length (heap r1))); [| contradiction].
        unfold pushNew. cbn [fst heap].
        rewrite Hheap, lookup_app_r, Nat.sub_diag by lia.
        eexists. reflexivity.
      + rewrite Hout in Hrun. discriminate. }
  destruct Hstored as [before Hnode]. eexists. split; [exact Hnode |].
  apply (drawConnectionLines_stored polygonId (centroid ge working) before ref r' Hnode).
Qed.

End AssignmentFailureFacts.

Section RenderingExamplesFacts.
Import Js Geo Cadastral Electrical Rendering Planar ElectricalExamples SelectionExamples.
Local Open Scope list_scope.

Lemma wellFormed_emptyRegistry : wellFormed emptyRegistry.
Proof. constructor. Qed.

Lemma wellFormed_potentialInMemory : wellFormed potentialInMemory.
Proof. repeat constructor. Qed.

(** The second pillar serves no parcel and lies within the search radius
    anyway; asked for as the primary node, its marker is drawn. *)
Lemma primary_node_is_always_drawn_witness :
  exists ref node graphics',
    In ref (electricalNodes pillarsInMemory)
    /\ heap pillarsInMemory !! ref = Some node
    /\ nodeId node = JStr "P-200"
    /\ electricalLayer
         (fst (updateNodeVisualizationForProperty engine [southFrontage]
                 (GPolygon parcel) (JStr "P-200") pillarsInMemory None))
       = Some graphics'
    /\ In (nodeGraphicOf node true) graphics'.
Proof.
  apply (primary_node_is_always_drawn engine [southFrontage] (GPolygon parcel)
           (JStr "P-200") pillarsInMemory None [] 1%nat).
  - discriminate.
  - vm_compute. reflexivity.
  - reflexivity.
  - vm_compute. reflexivity.
Defined.

(** A selection followed by a click on empty ground keeps both pillars. *)
Lemma active_nodes_are_never_released_witness :
  wellFormed (fold_left (run engine) selectThenDeselect emptyRegistry)
  /\ keepsActiveNodes emptyRegistry
       (fold_left (run engine) selectThenDeselect emptyRegistry).
Proof.
  apply (active_nodes_are_never_released engine selectThenDeselect emptyRegistry).
  constructor.
Defined.

(** Selecting the parcel again replaces its potential node by a new one. *)
Lemma one_potential_node_after_selection_witness :
  potentialNodes
    (fst (generateOrFindConnectionNode engine noPillars "2_b" parcelGraphic
            [southFrontage] (clearPreviousSelection potentialInMemory)))
  = [1%nat].
Proof.
  apply (one_potential_node_after_selection engine noPillars "2_b" parcelGraphic
           [southFrontage] potentialInMemory
           (fst (generateOrFindConnectionNode engine noPillars "2_b" parcelGraphic
                   [southFrontage] (clearPreviousSelection potentialInMemory)))
           (Ok (Some 1%nat))).
  - repeat constructor.
  - vm_compute. reflexivity.
Defined.

(** A parcel without identifier cannot be assigned while the marker of a
    potential node is shown. *)
Lemma assignment_raises_iff_witness :
  snd (generateOrFindConnectionNode engine noPillars "2_b" unidentifiedParcelGraphic
         [southFrontage] potentialShown)
  = Throw "TypeError".
Proof.
  assert (Hwf : wellFormed potentialShown) by repeat constructor.
  apply (assignment_raises_iff engine noPillars "2_b" unidentifiedParcelGraphic
           southFrontage [] potentialShown Hwf).
  right. right. split; [reflexivity |].
  eexists. split; reflexivity.
Defined.

(** The pillar found for the parcel gets its connection line. *)
Lemma connection_line_after_assignment_witness :
  exists node,
    heap pillarsInMemory !! 0%nat = Some node
    /\ drawConnectionLines (Some 0%nat) (JNum 42) pillarsInMemory
       = withGraphics [ConnectionLine (JStr "P-100") (JNum 42)] pillarsInMemory.
Proof.
  destruct (connection_line_after_assignment engine twoPillars "1_a" parcelGraphic
              [southFrontage] emptyRegistry pillarsInMemory 0%nat)
    as (node & Hnode & Hdraw).
  - constructor.
  - vm_compute. reflexivity.
  - exists node. split; [exact Hnode |].
    vm_compute in Hnode. injection Hnode as <-. exact Hdraw.
Defined.

End RenderingExamplesFacts.

Section SessionInvariantFacts.
Import Js Geo Subdivision SubPolygons.
Local Open Scope list_scope.

Context {W : Type}.
Variable ge : GeometryEngine.

(** A click that returns in an active session found a nearest boundary
    point. *)
Lemma handleSubdivisionClick_returns (st st' : State W) (polygon : Polygon)
    (mapPoint : Point) (handled : bool) :
  subdivisionMode st = true ->
  currentPolygonGeometry st = Some polygon ->
  handleSubdivisionClick ge mapPoint st = Ok (st', handled) ->
  exists nearestEdgePoint,
    findNearestEdgePoint ge mapPoint polygon = Ok (Some nearestEdgePoint).
Proof.
  intros Hmode Hpoly. unfold handleSubdivisionClick. rewrite Hpoly, Hmode. simpl negb.
  cbv iota.
  destruct (findNearestEdgePoint ge mapPoint polygon) as [[nearest |] | message];
    simpl; try discriminate.
  eauto.
Qed.

Lemma layer_after_click (st : State W) (polygon : Polygon) (mapPoint : Point)
    (st' : State W) (handled : bool) :
  subdivisionMode st = true ->
  currentPolygonGeometry st = Some polygon ->
  handleSubdivisionClick ge mapPoint st = Ok (st', handled) ->
  length (pointMarkers st') = S (length (pointMarkers st)).
Proof.
  intros Hmode Hpoly. unfold handleSubdivisionClick. rewrite Hpoly, Hmode. simpl negb.
  cbv iota.
  destruct (findNearestEdgePoint ge mapPoint polygon) as [[nearest |] | message];
    simpl; try discriminate.
  set (pd := typeClick _ _ _ _ _ _).
  assert (Hmarkers : forall extra,
             Forall (fun g => match g with PointMarker _ _ => False | _ => True end) extra ->
             length (List.filter
                       (fun g => match g with PointMarker _ _ => true | _ => false end)
                       ((subdivisionLayer (appState st)
                         ++ [PointMarker (point pd) (type pd)]) ++ extra))
             = S (length (pointMarkers st))).
  { intros extra Hextra. rewrite !List.filter_app, !length_app. simpl.
    rewrite (filter_all_false _ extra).
    - unfold pointMarkers. simpl. lia.
    - intros g Hg. rewrite List.Forall_forall in Hextra. specialize (Hextra g Hg).
      destruct g; [contradiction | reflexivity | reflexivity]. }
  destruct (_ && _).
  - intros [= <- _]. unfold drawSubdivisionLine.
    cbn [drawingPoints withLayer withDrawingPoints].
    destruct (drawingPoints st ++ [pd]) as [| first [| second rest]] eqn:Hpts.
    + unfold pointMarkers. cbn [appState subdivisionLayer withLayer withDrawingPoints].
      rewrite <- (app_nil_r (_ ++ [PointMarker _ _])). apply Hmarkers. constructor.
    + unfold pointMarkers. cbn [appState subdivisionLayer withLayer withDrawingPoints].
      rewrite <- (app_nil_r (_ ++ [PointMarker _ _])). apply Hmarkers. constructor.
    + unfold pointMarkers. cbn [appState subdivisionLayer withLayer withDrawingPoints].
      apply Hmarkers. repeat constructor.
  - intros [= <- _]. unfold pointMarkers.
    cbn [appState subdivisionLayer withLayer withDrawingPoints].
    rewrite <- (app_nil_r (_ ++ [PointMarker _ _])). apply Hmarkers. constructor.
Qed.

(** One step of the invariant. *)
Lemma click_keeps_invariant (st st' : State W) (polygon : Polygon) (mapPoint : Point)
    (handled : bool) :
  subdivisionMode st = true ->
  currentPolygonGeometry st = Some polygon ->
  pendingLine (drawingPoints st) ->
  handleSubdivisionClick ge mapPoint st = Ok (st', handled) ->
  handled = true
  /\ subdivisionMode st' = true
  /\ currentPolygonGeometry st' = Some polygon
  /\ pendingLine (drawingPoints st')
  /\ exists newLines,
       getSubdivisionLines st' = getSubdivisionLines st ++ newLines
       /\ Forall finishedLine newLines
       /\ (length (drawingPoints st) + 1
           = length (drawingPoints st') + list_sum (map pointCount newLines))%nat.
Proof.
  intros Hmode Hpoly Hpending Hrun.
  destruct (handleSubdivisionClick_returns st st' polygon mapPoint handled
              Hmode Hpoly Hrun) as [nearest Hnear].
  destruct (handleSubdivisionClick_active ge st polygon mapPoint nearest
              Hmode Hpoly Hnear) as (st1 & Hrun1 & Hmode1 & Hpoly1 & Hfin & Hnot).
  rewrite Hrun in Hrun1. injection Hrun1 as <- ->.
  split; [reflexivity |]. split; [exact Hmode1 |]. split; [exact Hpoly1 |].
  cbv zeta in Hfin, Hnot. set (pd := typeClick _ _ _ _ _ _) in *.
  destruct (drawingPoints st) as [| first others] eqn:Hpts.
  - (* the first point of a line *)
    destruct Hnot as [Hpts' Hlines']; [simpl; intros [Hlen _]; lia |].
    rewrite Hpts'. split.
    + simpl. split; [subst pd; rewrite ?Hpts; reflexivity | constructor].
    + exists []. rewrite app_nil_r. split; [exact Hlines' |].
      split; [constructor | reflexivity].
  - destruct Hpending as [Hfirst Hmids].
    destruct (type pd) eqn:Htype.
    + (* a boundary point closes the line *)
      destruct Hfin as [Hpts' (first' & Hhead & Hlines')];
        [split; [rewrite length_app; simpl; lia | reflexivity] |].
      simpl in Hhead. injection Hhead as <-.
      rewrite Hpts'. split; [exact I |].
      eexists [_]. split; [exact Hlines' |]. split.
      * constructor; [| constructor]. exists first, others, pd.
        split; [reflexivity |]. repeat split; assumption.
      * simpl. unfold lineGraphicOf. simpl. rewrite !length_app. simpl. lia.
    + (* a midpoint extends it *)
      destruct Hnot as [Hpts' Hlines']; [intros [_ Hb]; discriminate |].
      rewrite Hpts'. split.
      * simpl. split; [exact Hfirst |]. apply Forall_app. split; [exact Hmids |].
        constructor; [exact Htype | constructor].
      * exists []. rewrite app_nil_r. split; [exact Hlines' |].
        split; [constructor |]. rewrite length_app. simpl. lia.
Qed.

(** X8.  Throughout a drawing session the points of the line under
    construction start on the boundary and continue with midpoints only;
    every line the session adds is built from a boundary point, midpoints
    and a closing boundary point; every accepted click leaves one point
    marker; and every click ends up in exactly one finished line or among
    the pending points. *)
Theorem session_invariant (clicks : list Point) :
  forall (st st' : State W) (polygon : Polygon),
    subdivisionMode st = true ->
    currentPolygonGeometry st = Some polygon ->
    pendingLine (drawingPoints st) ->
    handleClicks ge clicks st = Ok st' ->
    subdivisionMode st' = true
    /\ currentPolygonGeometry st' = Some polygon
    /\ pendingLine (drawingPoints st')
    /\ length (pointMarkers st') = (length (pointMarkers st) + length clicks)%nat
    /\ exists newLines,
         getSubdivisionLines st' = getSubdivisionLines st ++ newLines
         /\ Forall finishedLine newLines
         /\ (length (drawingPoints st) + length clicks
             = length (drawingPoints st') + list_sum (map pointCount newLines))%nat.
Proof.
  induction clicks as [| click rest IH]; intros st st' polygon Hmode Hpoly Hpending Hrun.
  - simpl in Hrun. injection Hrun as <-.
    split; [exact Hmode |]. split; [exact Hpoly |]. split; [exact Hpending |].
    split; [simpl; lia |]. exists []. rewrite app_nil_r.
    split; [reflexivity |]. split; [constructor | simpl; lia].
  - simpl in Hrun.
    destruct (handleSubdivisionClick ge click st) as [[st1 handled] | message] eqn:Hclick;
      [| discriminate].
    simpl in Hrun.
    destruct (click_keeps_invariant st st1 polygon click handled
                Hmode Hpoly Hpending Hclick)
      as (_ & Hmode1 & Hpoly1 & Hpending1 & lines1 & Hlines1 & Hfin1 & Hcount1).
    pose proof (layer_after_click st polygon click st1 handled Hmode Hpoly Hclick)
      as Hmarkers1.
    destruct (IH st1 st' polygon Hmode1 Hpoly1 Hpending1 Hrun)
      as (Hmode' & Hpoly' & Hpending' & Hmarkers' & lines2 & Hlines2 & Hfin2 & Hcount2).
    split; [exact Hmode' |]. split; [exact Hpoly' |]. split; [exact Hpending' |].
    split; [rewrite Hmarkers', Hmarkers1; simpl; lia |].
    exists (lines1 ++ lines2). split; [rewrite Hlines2, Hlines1, app_assoc; reflexivity |].
    split; [apply Forall_app; split; assumption |].
    rewrite map_app, list_sum_app. simpl. lia.
Qed.

End SessionInvariantFacts.

Section CompletionSuccessFacts.
Import Js Geo Subdivision SubPolygons.
Local Open Scope list_scope.

Context {W : Type}.
Variable ge : GeometryEngine.
Variable steps : Collaborators W.

Lemma cutPolygon_nonempty (line : LineGraphic) (poly : Polygon) (pieces : list Polygon) :
  cutPolygon ge line poly = Ok pieces -> (1 <= length pieces)%nat.
Proof.
  unfold cutPolygon. destruct (cut ge poly (lineGeometry line)) as [[[| p ps] |] |];
    simpl; intros [= <-]; simpl; lia.
Qed.

Lemma cutByLine_grows (line : LineGraphic) (polys : list Polygon) :
  forall out, cutByLine ge line polys = Ok out -> (length polys <= length out)%nat.
Proof.
  induction polys as [| poly rest IH]; intros out; simpl.
  - intros [= <-]. simpl. lia.
  - destruct (cutPolygon ge line poly) as [pieces |] eqn:Hcut; [| discriminate].
    simpl. destruct (cutByLine ge line rest) as [others |]; [| discriminate].
    simpl. intros [= <-]. rewrite length_app.
    pose proof (cutPolygon_nonempty line poly pieces Hcut).
    pose proof (IH others eq_refl). lia.
Qed.

Lemma cutPolygons_grows (lines : list LineGraphic) :
  forall polys out,
    cutPolygons ge lines polys = Ok out -> (length polys <= length out)%nat.
Proof.
  induction lines as [| line rest IH]; intros polys out; simpl.
  - intros [= <-]. lia.
  - destruct (cutByLine ge line polys) as [cut1 |] eqn:Hcut; [| discriminate].
    simpl. intros Hrest. pose proof (cutByLine_grows line polys cut1 Hcut).
    pose proof (IH cut1 out Hrest). lia.
Qed.

Lemma subPolygonResultsFrom_structure (graphic : PolygonGraphic)
    (parentFrontageLines : list LineFeature) (subPolygons : list Polygon) :
  forall i results,
    subPolygonResultsFrom ge graphic parentFrontageLines i subPolygons = Ok results ->
    length results = length subPolygons
    /\ forall k result,
         results !! k = Some result ->
         index result = (i + k)%nat
         /\ subPolygons !! k = Some (subGeometry result)
         /\ originalPolygonId result = originalPolygonIdOf graphic
         /\ calculateSubPolygonFrontage (subGeometry result) ge parentFrontageLines
            = Ok (frontageLines result).
Proof.
  induction subPolygons as [| subPoly rest IH]; intros i results; simpl.
  - intros [= <-]. split; [reflexivity |]. intros k result [=].
  - destruct (calculateSubPolygonFrontage subPoly ge parentFrontageLines)
      as [lines |] eqn:Hlines; [| discriminate].
    simpl.
    destruct (subPolygonResultsFrom ge graphic parentFrontageLines (S i) rest)
      as [others |] eqn:Hrest; [| discriminate].
    simpl. intros [= <-]. destruct (IH (S i) others Hrest) as [Hlen Hall].
    split; [simpl; rewrite Hlen; reflexivity |].
    intros [| k] result; simpl.
    + intros [= <-]. simpl. rewrite Nat.add_0_r. repeat split. exact Hlines.
    + intros Hk. destruct (Hall k result Hk) as (Hi & Hg & Ho & Hf).
      repeat split; [lia | exact Hg | exact Ho | exact Hf].
Qed.

(** X9.  A completion in which every step returns: the parcel's pieces
    are recorded in cutting order with the indices 0, 1, 2, ... and the
    parcel's identifier, there is at least one of them, one sub-polygon
    graphic per piece is added to the layer, the alert reports their
    number, and the session ends: the module is idle afterwards, so that a
    second completion does nothing. *)
Theorem completeSubdivision_success (st : State W) (polygon : Polygon)
    (graphic : PolygonGraphic) (subPolygons : list Polygon)
    (results : list SubPolygonResult) (a2 : AppState W) :
  keepSubPolygons steps ->
  currentPolygonGeometry st = Some polygon ->
  currentPolygonGraphic st = Some graphic ->
  getSubdivisionLines st <> [] ->
  cutPolygons ge (getSubdivisionLines st) [polygon] = Ok subPolygons ->
  subPolygonResultsFrom ge graphic (default [] (currentFrontageLines (appState st)))
    0 subPolygons = Ok results ->
  updateNodeVisualizationForSubPolygons steps results
    (generateElectricalNodesForSubPolygons steps results
       (renderSubPolygons results (appState st))) = (a2, None) ->
  let st' := completeSubdivision ge steps st in
  idle st'
  /\ currentPolygonGraphic st' = None
  /\ alerts st' = alerts st ++ [completeMessage (length results)]
  /\ (1 <= length results)%nat
  /\ map subGeometry results = subPolygons
  /\ map index results = seq 0 (length results)
  /\ Forall (fun result => originalPolygonId result = originalPolygonIdOf graphic) results
  /\ subPolygonData (appState st') = Some results
  /\ subdivisionLayer (appState st')
     = subdivisionLayer (appState st) ++ imap subPolygonGraphicOf results
  /\ completeSubdivision ge steps st' = st'.
Proof.
  intros Hkeep Hpoly Hgraphic Hlines Hcut Hres Hupd. cbv zeta.
  destruct (subPolygonResultsFrom_structure graphic _ subPolygons 0 results Hres)
    as [Hlen Hall].
  pose proof (cutPolygons_grows _ _ _ Hcut) as Hgrow. simpl in Hgrow.
  assert (Hrun : completeSubdivision ge steps st
                 = disableSubdivisionMode
                     (alert (completeMessage (length results)) (withApp a2 st))).
  { unfold completeSubdivision. rewrite Hpoly, Hgraphic.
    destruct (getSubdivisionLines st) as [| l ls] eqn:Hl; [contradiction |].
    rewrite Hcut, Hres. cbv zeta. rewrite Hupd. unfold completeMessage.
    rewrite Hlen. reflexivity. }
  rewrite Hrun.
  destruct (generateElectricalNodesForSubPolygons_world steps results
              (renderSubPolygons results (appState st))) as (L1 & _ & D1 & _).
  destruct (Hkeep results
              (generateElectricalNodesForSubPolygons steps results
                 (renderSubPolygons results (appState st)))) as (D2 & L2).
  rewrite Hupd in D2, L2. cbn [fst] in *.
  split; [repeat split |]. split; [reflexivity |]. split; [reflexivity |].
  split; [lia |].
  split.
  { apply list_eq. intros k. rewrite list_lookup_fmap.
    destruct (results !! k) as [result |] eqn:Hk; simpl.
    - destruct (Hall k result Hk) as (_ & Hg & _). symmetry. exact Hg.
    - symmetry. apply lookup_ge_None. apply lookup_ge_None in Hk. lia. }
  split.
  { apply list_eq. intros k. rewrite list_lookup_fmap.
    destruct (results !! k) as [result |] eqn:Hk; simpl.
    - destruct (Hall k result Hk) as (Hi & _). rewrite Hi. symmetry.
      apply lookup_seq. split; [reflexivity |]. apply lookup_lt_Some in Hk. exact Hk.
    - symmetry. apply lookup_ge_None. rewrite length_seq.
      apply lookup_ge_None in Hk. exact Hk. }
  split.
  { apply Forall_forall. intros result Hin.
    apply list_elem_of_lookup_1 in Hin as [k Hk].
    destruct (Hall k result Hk) as (_ & _ & Ho & _). exact Ho. }
  cbn [disableSubdivisionMode alert withApp appState].
  split; [rewrite D2, D1; reflexivity |].
  split; [rewrite L2, L1; reflexivity |].
  reflexivity.
Qed.

(** X10.  Clearing the subdivisions empties the subdivision layer and the
    pending points but neither leaves the session nor forgets the recorded
    sub-polygon data; a completion requested right afterwards finds no line
    and does nothing: no alert, no change. *)
Theorem clearSubdivisions_then_complete (st : State W) :
  let st' := clearSubdivisions st in
  subdivisionLayer (appState st') = []
  /\ getSubdivisionLines st' = []
  /\ drawingPoints st' = []
  /\ subdivisionMode st' = subdivisionMode st
  /\ currentPolygonGeometry st' = currentPolygonGeometry st
  /\ subPolygonData (appState st') = subPolygonData (appState st)
  /\ completeSubdivision ge steps st' = st'.
Proof.
  cbv zeta. repeat split.
  unfold completeSubdivision.
  destruct (currentPolygonGeometry (clearSubdivisions st)); [| reflexivity].
  destruct (currentPolygonGraphic (clearSubdivisions st)); reflexivity.
Qed.

End CompletionSuccessFacts.

Section FrontagePropagationFacts.
Import Js Geo Cadastral Subdivision SubPolygons Rendering.
Local Open Scope list_scope.

Variable ge : GeometryEngine.

Lemma edgesOfRing_length (ring : list Coord) :
  length (edgesOfRing ring) = (length ring - 1)%nat.
Proof.
  induction ring as [| a [| b rest] IH]; try reflexivity.
  change (edgesOfRing (a :: b :: rest))
    with ({| edgeStart := a; edgeEnd := b |} :: edgesOfRing (b :: rest)).
  simpl length in *. rewrite IH. lia.
Qed.

Lemma omap_length_le {A B : Type} (f : A -> option B) (l : list A) :
  (length (omap f l) <= length l)%nat.
Proof.
  induction l as [| a rest IH]; [reflexivity |].
  change (omap f (a :: rest))
    with (match f a with Some b => b :: omap f rest | None => omap f rest end).
  destruct (f a); simpl length; lia.
Qed.

Lemma inheritedSegment_spec (sr : SpatialReference) (parents : list LineFeature)
    (edge : Edge) (line : LineFeature) :
  inheritedSegment ge sr parents edge = Some line ->
  exists parent,
    In parent parents
    /\ edgeMatchesFrontageLine edge (Geo.geometry parent) ge sr = true
    /\ Geo.geometry line = {| paths := [[edgeStart edge; edgeEnd edge]]; polylineSR := sr |}
    /\ attributes line = attributes parent.
Proof.
  unfold inheritedSegment.
  destruct (List.find _ parents) as [parent |] eqn:Hfind; [| discriminate].
  intros [= <-]. apply find_some in Hfind as [Hin Hmatch].
  exists parent. repeat split; assumption.
Qed.

Lemma find_first {A : Type} (p : A -> bool) (l : list A) (x : A) :
  List.find p l = Some x ->
  exists before after,
    l = before ++ x :: after
    /\ Forall (fun earlier => p earlier = false) before
    /\ p x = true.
Proof.
  induction l as [| a rest IH]; simpl; [discriminate |].
  destruct (p a) eqn:Ha.
  - intros [= <-]. exists [], rest. repeat split; [constructor | exact Ha].
  - intros Hfind. destruct (IH Hfind) as (before & after & -> & Hall & Hx).
    exists (a :: before), after. repeat split; [constructor; assumption | exact Hx].
Qed.

Lemma existsb_find {A : Type} (p : A -> bool) (l : list A) :
  existsb p l = match List.find p l with Some _ => true | None => false end.
Proof.
  induction l as [| a rest IH]; simpl; [reflexivity |].
  destruct (p a); [reflexivity | exact IH].
Qed.

(** The segments are those of the matching edges, one each and in ring
    order, each with the attributes of the first parent line it matches. *)
Lemma inherited_segments (sr : SpatialReference) (parents : list LineFeature)
    (edges : list Edge) :
  Forall2
    (fun edge line =>
       Geo.geometry line
       = {| paths := [[edgeStart edge; edgeEnd edge]]; polylineSR := sr |}
       /\ exists before parent after,
            parents = before ++ parent :: after
            /\ Forall (fun earlier =>
                         edgeMatchesFrontageLine edge (Geo.geometry earlier) ge sr
                         = false) before
            /\ edgeMatchesFrontageLine edge (Geo.geometry parent) ge sr = true
            /\ attributes line = attributes parent)
    (List.filter
       (fun edge =>
          existsb (fun parent =>
                     edgeMatchesFrontageLine edge (Geo.geometry parent) ge sr)
                  parents)
       edges)
    (omap (inheritedSegment ge sr parents) edges).
Proof.
  induction edges as [| edge rest IH]; [constructor |].
  change (omap (inheritedSegment ge sr parents) (edge :: rest))
    with (match inheritedSegment ge sr parents edge with
          | Some line => line :: omap (inheritedSegment ge sr parents) rest
          | None => omap (inheritedSegment ge sr parents) rest
          end).
  simpl List.filter. rewrite existsb_find. unfold inheritedSegment.
  destruct (List.find _ parents) as [parent |] eqn:Hfind; [| exact IH].
  constructor; [| exact IH].
  split; [reflexivity |].
  destruct (find_first _ _ _ Hfind) as (before & after & Hsplit & Hnone & Hmatch).
  exists before, parent, after. repeat split; assumption.
Qed.

(** X11.  The frontage of a sub-polygon is inherited edge by edge: the
    segments returned are, in ring order, the edges of the sub-polygon's
    outer ring that lie within 2 m (at both ends) of some parent frontage
    line; every such edge yields exactly one segment, the other edges yield
    none, and a segment carries the attributes of the first parent line
    its edge matches.  Hence every segment is classified as frontage when
    the parent lines are, and every segment has the two end points a node
    assignment reads.  Without parent frontage the result is empty and the
    polygon is not looked at; with parent frontage a polygon without rings
    raises. *)
Theorem calculateSubPolygonFrontage_inherits (subPolygon : Polygon)
    (parentFrontageLines : list LineFeature) :
  (parentFrontageLines = [] ->
   calculateSubPolygonFrontage subPolygon ge parentFrontageLines = Ok [])
  /\ (parentFrontageLines <> [] -> rings subPolygon = [] ->
      calculateSubPolygonFrontage subPolygon ge parentFrontageLines = Throw "TypeError")
  /\ (forall ring otherRings,
         parentFrontageLines <> [] -> rings subPolygon = ring :: otherRings ->
         let matches edge parent :=
           edgeMatchesFrontageLine edge (Geo.geometry parent) ge
             (polygonSR subPolygon) in
         exists lines,
           calculateSubPolygonFrontage subPolygon ge parentFrontageLines = Ok lines
           /\ Forall2
                (fun edge line =>
                   Geo.geometry line
                   = {| paths := [[edgeStart edge; edgeEnd edge]];
                        polylineSR := polygonSR subPolygon |}
                   /\ exists before parent after,
                        parentFrontageLines = before ++ parent :: after
                        /\ Forall (fun earlier => matches edge earlier = false) before
                        /\ matches edge parent = true
                        /\ attributes line = attributes parent)
                (List.filter (fun edge => existsb (matches edge) parentFrontageLines)
                             (edgesOfRing ring))
                lines
           /\ (length lines <= length ring - 1)%nat
           /\ Forall (fun line =>
                        exists edge parent,
                          In edge (edgesOfRing ring)
                          /\ In parent parentFrontageLines
                          /\ matches edge parent = true
                          /\ Geo.geometry line
                             = {| paths := [[edgeStart edge; edgeEnd edge]];
                                  polylineSR := polygonSR subPolygon |}
                          /\ attributes line = attributes parent)
                     lines
           /\ (Forall (fun parent => isFrontageLine parent = true) parentFrontageLines ->
               Forall (fun line => isFrontageLine line = true) lines)
           /\ Forall (fun line => hasEndpoints line = true) lines).
Proof.
  split; [intros ->; reflexivity |]. split.
  - intros Hparents Hrings. unfold calculateSubPolygonFrontage, extractPolygonEdges.
    destruct parentFrontageLines; [contradiction |]. rewrite Hrings. reflexivity.
  - intros ring otherRings Hparents Hrings. cbv zeta.
    unfold calculateSubPolygonFrontage, extractPolygonEdges.
    destruct parentFrontageLines as [| p ps] eqn:Hp; [contradiction |].
    rewrite <- Hp in *. rewrite Hrings. simpl.
    eexists. split; [reflexivity |].
    split; [apply inherited_segments |].
    assert (Hall : Forall (fun line =>
                     exists edge parent,
                       In edge (edgesOfRing ring)
                       /\ In parent parentFrontageLines
                       /\ edgeMatchesFrontageLine edge (Geo.geometry parent) ge
                            (polygonSR subPolygon) = true
                       /\ Geo.geometry line
                          = {| paths := [[edgeStart edge; edgeEnd edge]];
                               polylineSR := polygonSR subPolygon |}
                       /\ attributes line = attributes parent)
                   (omap (inheritedSegment ge (polygonSR subPolygon) parentFrontageLines)
                      (edgesOfRing ring))).
    { apply Forall_forall. intros line Hin.
      apply list_elem_of_omap in Hin as (edge & Hedge & Hseg).
      destruct (inheritedSegment_spec _ _ _ _ Hseg) as (parent & Hparent & Hm & Hg & Ha).
      exists edge, parent. split; [apply list_elem_of_In, Hedge |].
      repeat split; assumption. }
    split; [| split; [exact Hall | split]].
    + rewrite <- edgesOfRing_length. apply omap_length_le.
    + intros Hfront. eapply Forall_impl; [exact Hall |]. simpl.
      intros line (edge & parent & _ & Hparent & _ & _ & Hattr).
      rewrite List.Forall_forall in Hfront. specialize (Hfront parent Hparent).
      unfold isFrontageLine in *. rewrite Hattr. exact Hfront.
    + eapply Forall_impl; [exact Hall |]. simpl.
      intros line (edge & parent & _ & _ & _ & Hgeo & _).
      unfold hasEndpoints. rewrite Hgeo. reflexivity.
Qed.

End FrontagePropagationFacts.

Section SubPolygonClickFacts.
Import Js Geo Cadastral Subdivision SubPolygons.
Local Open Scope list_scope.

Context {W : Type}.

Lemma firstSubPolygonHit_skip (data : list SubPolygonResult)
    (before rest : list HitResult) :
  Forall (fun result => isSubPolygonHit result = false) before ->
  firstSubPolygonHit data (before ++ rest) = firstSubPolygonHit data rest.
Proof.
  induction before as [| result others IH]; intros Hskip; [reflexivity |].
  apply Forall_cons in Hskip as [Hresult Hothers]. simpl.
  destruct result as [[[] | | | |] |]; try discriminate; apply IH, Hothers.
Qed.

Lemma renderSubPolygons_graphic (results : list SubPolygonResult) (a : AppState W)
    (k : nat) (result : SubPolygonResult) :
  results !! k = Some result ->
  In (subPolygonGraphicOf k result) (subdivisionLayer (renderSubPolygons results a)).
Proof.
  intros Hk. unfold renderSubPolygons. simpl. apply in_or_app. right.
  apply list_elem_of_In. apply (list_elem_of_lookup_2 _ k).
  rewrite list_lookup_imap, Hk. reflexivity.
Qed.

(** X12.  Rendering and clicking fit together: every recorded sub-polygon
    has its graphic on the layer, and a click whose first sub-polygon hit
    is that graphic is handled with the geometry and the frontage lines
    recorded for this very sub-polygon, under an identifier built from its
    index alone. *)
Theorem rendered_subPolygon_click (results : list SubPolygonResult) (a : AppState W)
    (k : nat) (result : SubPolygonResult) (before after : list HitResult) :
  results !! k = Some result ->
  Forall (fun hit => isSubPolygonHit hit = false) before ->
  In (subPolygonGraphicOf k result) (subdivisionLayer (renderSubPolygons results a))
  /\ checkAndHandleSubPolygonClick (subPolygonData (renderSubPolygons results a))
       (Some (before ++ Some (OfSubdivision (subPolygonGraphicOf k result)) :: after))
     = Some (clickedSubPolygonGraphic (subGeometry result) k result,
             frontageLines result).
Proof.
  intros Hk Hbefore. split; [apply renderSubPolygons_graphic, Hk |].
  unfold checkAndHandleSubPolygonClick, renderSubPolygons. cbn [subPolygonData].
  rewrite (firstSubPolygonHit_skip results before _ Hbefore).
  unfold subPolygonGraphicOf. cbn [firstSubPolygonHit]. rewrite Hk. reflexivity.
Qed.

(** X13.  The graphics of an earlier subdivision stay on the layer when a
    later one is completed, but only the data of the later one is kept: a
    click on sub-polygon k of the earlier subdivision is answered with the
    frontage lines recorded for sub-polygon k of the later one, and falls
    through to the ordinary click handling when the later subdivision has
    no sub-polygon k. *)
Theorem earlier_subPolygon_click (earlier later : list SubPolygonResult)
    (a : AppState W) (k : nat) (result : SubPolygonResult) :
  earlier !! k = Some result ->
  let a' := renderSubPolygons later (renderSubPolygons earlier a) in
  In (subPolygonGraphicOf k result) (subdivisionLayer a')
  /\ checkAndHandleSubPolygonClick (subPolygonData a')
       (Some [Some (OfSubdivision (subPolygonGraphicOf k result))])
     = (fun recorded =>
          (clickedSubPolygonGraphic (subGeometry result) k recorded,
           frontageLines recorded)) <$> later !! k.
Proof.
  intros Hk. cbv zeta. split.
  - unfold renderSubPolygons at 1. cbn [subdivisionLayer]. apply in_or_app. left.
    apply renderSubPolygons_graphic, Hk.
  - unfold checkAndHandleSubPolygonClick, renderSubPolygons. cbn [subPolygonData].
    unfold subPolygonGraphicOf. cbn [firstSubPolygonHit].
    destruct (later !! k); reflexivity.
Qed.

End SubPolygonClickFacts.

Section SubPolygonIdentifierFacts.
Import Js Geo Cadastral Subdivision SubPolygons.
Local Open Scope list_scope.

Lemma string_of_uint_digits (d : Decimal.uint) : allDigits (NilEmpty.string_of_uint d) = true.
Proof. induction d; simpl; try reflexivity; exact IHd. Qed.

Lemma string_of_Z_digits (n : nat) : allDigits (string_of_Z (Z.of_nat n)) = true.
Proof.
  unfold string_of_Z, NilEmpty.string_of_int.
  destruct (Z.to_int (Z.of_nat n)) as [d | d] eqn:Hint.
  - apply string_of_uint_digits.
  - exfalso. destruct n as [| n]; simpl in Hint; discriminate.
Qed.

Lemma allDigits_app (a b : string) :
  allDigits (a ++ b) = allDigits a && allDigits b.
Proof.
  induction a as [| c rest IH]; simpl; [reflexivity |].
  rewrite IH, andb_assoc. reflexivity.
Qed.

Lemma get_present (key : string) (v : jsval) (rest : Attributes) :
  get (<[key := v]> rest) key = v.
Proof. unfold get. rewrite lookup_insert_eq. reflexivity. Qed.

(** X14.  The two graphics built for the same sub-polygon disagree on its
    identifier: the node generated at completion is assigned under
    SUB_<parcel>_<index>, taken from the objectid field, while a click on
    the sub-polygon assigns under SUB_<index>, taken from __OBJECTID.  The
    two texts are never equal, whatever the parcel identifier and the
    indices. *)
Theorem subPolygon_identifiers_differ (result subData : SubPolygonResult)
    (geometry : Polygon) (subIndex : nat) :
  polygonId (polygonAttributes (subPolygonGraphic result))
  = JStr ("SUB_" ++ to_string (originalPolygonId result) ++ "_"
          ++ string_of_Z (Z.of_nat (index result)))
  /\ polygonId (polygonAttributes (clickedSubPolygonGraphic geometry subIndex subData))
     = JStr ("SUB_" ++ string_of_Z (Z.of_nat subIndex))
  /\ polygonId (polygonAttributes (subPolygonGraphic result))
     <> polygonId (polygonAttributes (clickedSubPolygonGraphic geometry subIndex subData)).
Proof.
  assert (H1 : polygonId (polygonAttributes (subPolygonGraphic result))
               = JStr ("SUB_" ++ to_string (originalPolygonId result) ++ "_"
                       ++ string_of_Z (Z.of_nat (index result)))).
  { unfold polygonId, subPolygonGraphic. cbn [polygonAttributes].
    rewrite get_present. reflexivity. }
  assert (H2 : polygonId (polygonAttributes
                            (clickedSubPolygonGraphic geometry subIndex subData))
               = JStr ("SUB_" ++ string_of_Z (Z.of_nat subIndex))).
  { unfold polygonId, clickedSubPolygonGraphic. cbn [polygonAttributes].
    assert (Habsent : forall attrs : Attributes,
               attrs !! "objectid" = None -> get attrs "objectid" = JUndefined).
    { intros attrs Hnone. unfold get. rewrite Hnone. reflexivity. }
    rewrite Habsent.
    - unfold Js.or at 2. cbn [truthy]. rewrite get_present. reflexivity.
    - rewrite !lookup_insert_ne by discriminate. apply lookup_singleton_ne.
      discriminate. }
  split; [exact H1 |]. split; [exact H2 |]. rewrite H1, H2. intros [= Heq].
  change ((to_string (originalPolygonId result) ++ "_"
           ++ string_of_Z (Z.of_nat (index result)))%string
          = string_of_Z (Z.of_nat subIndex)) in Heq.
  pose proof (string_of_Z_digits subIndex) as Hdigits. rewrite <- Heq in Hdigits.
  rewrite !allDigits_app in Hdigits.
  apply andb_true_iff in Hdigits as [_ Hdigits].
  simpl in Hdigits. discriminate.
Qed.

End SubPolygonIdentifierFacts.

Section ClickHandlerFacts.
Import Js Geo Subdivision Electrical Rendering SubPolygons MapSetup.
Local Open Scope list_scope.

Context {W : Type}.
Variable ge : GeometryEngine.
Variable layers : Layers.

Lemma onClick_in_session (st st' : State W) (polygon : Polygon) (mapPoint : Point)
    (results : list HitResult) (action : Action) :
  subdivisionMode st = true ->
  currentPolygonGeometry st = Some polygon ->
  onClick ge layers mapPoint results st = Ok (st', action) ->
  action = SubdivisionPoint
  /\ handleSubdivisionClick ge mapPoint st = Ok (st', true)
  /\ subdivisionMode st' = true
  /\ currentPolygonGeometry st' = Some polygon.
Proof.
  intros Hmode Hpoly. unfold onClick, isSubdivisionModeActive. rewrite Hmode.
  destruct (handleSubdivisionClick ge mapPoint st) as [[st1 handled] | message] eqn:Hclick;
    [| discriminate].
  destruct (handleSubdivisionClick_returns ge st st1 polygon mapPoint handled
              Hmode Hpoly Hclick) as [nearest Hnear].
  destruct (handleSubdivisionClick_active ge st polygon mapPoint nearest
              Hmode Hpoly Hnear) as (st2 & Hrun & Hmode2 & Hpoly2 & _).
  rewrite Hclick in Hrun. injection Hrun as <- ->. simpl.
  intros [= <- <-]. repeat split; assumption.
Qed.

(** X15.  While a subdivision session is active no click reaches the
    selection logic: whatever lies under the clicks, each click that
    returns is taken as a subdivision point, the state evolves exactly as
    under the subdivision handler alone, and the session stays active. *)
Theorem session_takes_every_click (events : list (Point * list HitResult)) :
  forall (st st' : State W) (polygon : Polygon) (actions : list Action),
    subdivisionMode st = true ->
    currentPolygonGeometry st = Some polygon ->
    onClicks ge layers events st = Ok (st', actions) ->
    actions = repeat SubdivisionPoint (length events)
    /\ handleClicks ge (map fst events) st = Ok st'
    /\ subdivisionMode st' = true.
Proof.
  induction events as [| [mapPoint results] rest IH];
    intros st st' polygon actions Hmode Hpoly Hrun.
  - simpl in Hrun. injection Hrun as <- <-. repeat split. exact Hmode.
  - simpl in Hrun.
    destruct (onClick ge layers mapPoint results st) as [[st1 action] | message] eqn:Hclick;
      [| discriminate].
    destruct (onClick_in_session st st1 polygon mapPoint results action
                Hmode Hpoly Hclick) as (-> & Hhandled & Hmode1 & Hpoly1).
    simpl in Hrun.
    destruct (onClicks ge layers rest st1) as [[st2 others] | message] eqn:Hrest;
      [| discriminate].
    simpl in Hrun. injection Hrun as <- <-.
    destruct (IH st1 st2 polygon others Hmode1 Hpoly1 Hrest) as (-> & Hclicks & Hmode2).
    split; [reflexivity |]. split; [| exact Hmode2].
    simpl. rewrite Hhandled. simpl. exact Hclicks.
Qed.

(** X16.  Outside a session the hit test decides, and graphics on top
    shield the parcel beneath: when no sub-polygon takes the click, a hit
    on the electrical layer, or on the boundary-line layer when there is
    one, only shows a popup, whatever else was hit; otherwise the first hit
    on the parcel layer decides alone: a road is rejected without any
    further handling, any other polygon is selected; and only a click that
    hits none of these is handled as a default click. *)
Theorem hit_test_priority (subPolygonData : option (list SubPolygonResult))
    (results : list HitResult) :
  checkAndHandleSubPolygonClick subPolygonData (Some results) = None ->
  let action := onHitTest layers subPolygonData results in
  let hits layer := exists graphic,
                      In (Some graphic) results /\ Some (layerOf graphic) = layer in
  (hits (electricalLayer layers) -> action = PopupOnly)
  /\ (hits (cadastreLinesLayer layers) -> action = PopupOnly)
  /\ (~ hits (electricalLayer layers) -> ~ hits (cadastreLinesLayer layers) ->
      forall before polygonGraphic after,
        results = before ++ Some polygonGraphic :: after ->
        Forall (fun hit => onLayer (cadastreLayer layers) hit = false) before ->
        Some (layerOf polygonGraphic) = cadastreLayer layers ->
        action = if strict_eq (landType polygonGraphic) (JStr "ROAD")
                 then RoadRejected else ParcelSelected polygonGraphic)
  /\ (~ hits (electricalLayer layers) -> ~ hits (cadastreLinesLayer layers) ->
      ~ hits (cadastreLayer layers) -> action = DefaultClick).
Proof.
  intros Hsub. cbv zeta. unfold onHitTest. rewrite Hsub.
  assert (Hex : forall layer,
             existsb (onLayer layer) results = true
             <-> exists graphic,
                   In (Some graphic) results /\ Some (layerOf graphic) = layer).
  { intros layer. rewrite existsb_exists. split.
    - intros ([graphic |] & Hin & Hon); [| discriminate].
      exists graphic. split; [exact Hin |]. apply bool_decide_eq_true in Hon. exact Hon.
    - intros (graphic & Hin & Hon). exists (Some graphic). split; [exact Hin |].
      apply bool_decide_eq_true. exact Hon. }
  assert (Hlen : forall layer,
             existsb (onLayer layer) results = true -> (0 <? length results)%nat = true).
  { intros layer Hsome. destruct results; [discriminate | reflexivity]. }
  unfold isElectricalNodeClick, isCadastralLineClick.
  split; [| split; [| split]].
  - intros Hhit. apply Hex in Hhit. rewrite (Hlen _ Hhit), Hhit. reflexivity.
  - intros Hhit. pose proof Hhit as (graphic & _ & Hlayer).
    apply Hex in Hhit. rewrite (Hlen _ Hhit), Hhit.
    destruct (_ && existsb _ _); [reflexivity |].
    rewrite bool_decide_eq_true_2; [reflexivity |].
    rewrite <- Hlayer. discriminate.
  - intros Hno1 Hno2 before polygonGraphic after Hresults Hbefore Hlayer.
    destruct (existsb (onLayer (electricalLayer layers)) results) eqn:H1.
    { exfalso. apply Hno1, Hex, H1. }
    destruct (existsb (onLayer (cadastreLinesLayer layers)) results) eqn:H2.
    { exfalso. apply Hno2, Hex, H2. }
    rewrite !andb_false_r.
    destruct (cadastreLayer layers) as [layer |] eqn:Hcad; [| discriminate].
    unfold findClickedCadastralPolygon, handlePolygonClick. rewrite Hresults.
    assert (Hfind : List.find (onLayer (Some layer))
                      (before ++ Some polygonGraphic :: after)
                    = Some (Some polygonGraphic)).
    { clear Hresults H1 H2. induction before as [| hit rest IH]; simpl.
      - rewrite bool_decide_eq_true_2 by exact Hlayer. reflexivity.
      - apply Forall_cons in Hbefore as [Hhit Hrest]. rewrite Hhit. apply IH, Hrest. }
    rewrite Hfind. reflexivity.
  - intros Hno1 Hno2 Hno3.
    destruct (existsb (onLayer (electricalLayer layers)) results) eqn:H1.
    { exfalso. apply Hno1, Hex, H1. }
    destruct (existsb (onLayer (cadastreLinesLayer layers)) results) eqn:H2.
    { exfalso. apply Hno2, Hex, H2. }
    rewrite !andb_false_r.
    destruct (cadastreLayer layers) as [layer |] eqn:Hcad; [| reflexivity].
    unfold findClickedCadastralPolygon.
    destruct (List.find (onLayer (Some layer)) results) as [[graphic |] |] eqn:Hfind;
      try reflexivity.
    exfalso. apply Hno3. apply find_some in Hfind as [Hin Hon].
    exists graphic. split; [exact Hin |]. apply bool_decide_eq_true in Hon. exact Hon.
Qed.

End ClickHandlerFacts.

Section DefaultClickFacts.
Import Js Geo Electrical Rendering.
Local Open Scope list_scope.

(** X17.  A click on empty ground and the selection of a parcel reset the
    electrical display to the same state: the two run the same three
    clearing steps in a different order, and either order empties the
    layer, drops every potential node from memory and keeps the pillar and
    service nodes, in their order and with their node objects untouched. *)
Theorem display_reset (r : Registry) :
  let r' := clearPreviousSelection r in
  MapSetup.handleDefaultClick MapSetup.hidePolygonMetadata r = r'
  /\ heap r' = heap r
  /\ electricalNodes r'
     = List.filter (fun ref => negb (isPotentialRef r ref)) (electricalNodes r)
  /\ electricalLayer r' = (fun _ => []) <$> electricalLayer r
  /\ potentialNodes r' = [].
Proof.
  cbv zeta.
  destruct (clearPreviousSelection_registry r) as (H1 & N1 & L1 & P1).
  split; [| repeat split; assumption].
  unfold MapSetup.handleDefaultClick, MapSetup.hidePolygonMetadata.
  destruct (clearConnectionLines_registry r) as (Ha & Na & La).
  set (ra := clearConnectionLines r) in *.
  destruct (clearAllElectricalNodeGraphics_registry ra) as (Hb & Nb & Lb).
  set (rb := clearAllElectricalNodeGraphics ra) in *.
  destruct (removeAllPotentialNodes_registry rb) as (Hc & Nc).
  pose proof (removeAllPotentialNodes_layer rb) as Lc.
  set (rc := removeAllPotentialNodes rb) in *.
  set (rs := clearPreviousSelection r) in *.
  assert (Hheap : heap rc = heap rs) by congruence.
  assert (Hnodes : electricalNodes rc = electricalNodes rs).
  { rewrite Nc, Nb, Na, N1. apply filter_ext. intros ref. unfold isPotentialRef.
    rewrite Hb, Ha. reflexivity. }
  assert (Hlayer : electricalLayer rc = electricalLayer rs).
  { rewrite Lc, Lb, La, L1.
    destruct (electricalLayer r) as [graphics |]; [| destruct (_ =? _)%nat; reflexivity].
    assert (Hempty : List.filter isConnectionLine
                       (List.filter (fun g => negb (isConnectionLine g)) graphics) = []).
    { apply filter_all_false. intros g Hg. apply filter_In in Hg as [_ Hg].
      apply negb_true_iff, Hg. }
    simpl. rewrite Hempty. destruct (_ =? _)%nat; reflexivity. }
  destruct rc, rs. simpl in *. congruence.
Qed.

End DefaultClickFacts.

Section SubdivisionSessionExamplesFacts.
Import Js Geo Subdivision SubPolygons MapSetup Planar SubdivisionExamples ClickExamples.
Local Open Scope list_scope.

(** Two clicks across the parcel finish one line of two points. *)
Lemma session_invariant_witness :
  subdivisionMode oneLineDrawn = true
  /\ pendingLine (drawingPoints oneLineDrawn)
  /\ length (pointMarkers oneLineDrawn) = 2%nat
  /\ exists newLines,
       getSubdivisionLines oneLineDrawn = getSubdivisionLines session ++ newLines
       /\ Forall finishedLine newLines.
Proof.
  destruct (session_invariant engine [at_ 50 (-10); at_ 50 120] session oneLineDrawn
              parcel)
    as (Hmode & _ & Hpending & Hmarkers & newLines & Hlines & Hfinished & _).
  - reflexivity.
  - reflexivity.
  - exact I.
  - vm_compute. reflexivity.
  - split; [exact Hmode |]. split; [exact Hpending |]. split; [exact Hmarkers |].
    exists newLines. split; [exact Hlines | exact Hfinished].
Defined.

Lemma keepSubPolygons_quietSteps : keepSubPolygons quietSteps.
Proof. intros results a. split; reflexivity. Qed.

(** Completing the line through the parcel records its two halves. *)
Lemma completeSubdivision_success_witness :
  let st' := completeSubdivision engine quietSteps oneLineDrawn in
  idle st'
  /\ subPolygonData (appState st') = Some halves
  /\ map index halves = [0%nat; 1%nat]
  /\ completeSubdivision engine quietSteps st' = st'.
Proof.
  cbv zeta.
  destruct (completeSubdivision_success engine quietSteps oneLineDrawn parcel
              parcelGraphic (map subGeometry halves) halves
              (renderSubPolygons halves (appState oneLineDrawn)))
    as (Hidle & _ & _ & _ & _ & Hindex & _ & Hdata & _ & Hagain).
  - exact keepSubPolygons_quietSteps.
  - vm_compute. reflexivity.
  - vm_compute. reflexivity.
  - vm_compute. discriminate.
  - vm_compute. reflexivity.
  - vm_compute. reflexivity.
  - vm_compute. reflexivity.
  - split; [exact Hidle |]. split; [exact Hdata |]. split; [exact Hindex |].
    exact Hagain.
Defined.

(** A click on the second half, under a graphic of another layer, selects
    the second half. *)
Lemma rendered_subPolygon_click_witness :
  exists result,
    halves !! 1%nat = Some result
    /\ checkAndHandleSubPolygonClick (subPolygonData halvesRendered)
         (Some [Some OfOtherLayer; Some (OfSubdivision (subPolygonGraphicOf 1 result))])
       = Some (clickedSubPolygonGraphic (subGeometry result) 1 result,
               frontageLines result).
Proof.
  destruct (halves !! 1%nat) as [result |] eqn:Hresult; [| discriminate].
  exists result. split; [reflexivity |].
  apply (rendered_subPolygon_click halves (appState session) 1 result
           [Some OfOtherLayer] [] Hresult).
  repeat constructor.
Defined.

(** After a second subdivision that recorded one sub-polygon only, a click
    on the second half drawn by the first selects nothing. *)
Lemma earlier_subPolygon_click_witness :
  exists result,
    halves !! 1%nat = Some result
    /\ checkAndHandleSubPolygonClick
         (subPolygonData (renderSubPolygons (take 1 halves) halvesRendered))
         (Some [Some (OfSubdivision (subPolygonGraphicOf 1 result))])
       = None.
Proof.
  destruct (halves !! 1%nat) as [result |] eqn:Hresult; [| discriminate].
  exists result. split; [reflexivity |].
  apply (earlier_subPolygon_click halves (take 1 halves) (appState session) 1 result
           Hresult).
Defined.

(** During the session the two clicks are subdivision points although
    they hit the parcel. *)
Lemma session_takes_every_click_witness :
  onClicks engine allLayers
    [(at_ 50 (-10), parcelOverRoad); (at_ 50 120, parcelOverRoad)] session
  = Ok (oneLineDrawn, [SubdivisionPoint; SubdivisionPoint])
  /\ subdivisionMode oneLineDrawn = true.
Proof.
  destruct (session_takes_every_click engine allLayers
              [(at_ 50 (-10), parcelOverRoad); (at_ 50 120, parcelOverRoad)]
              session oneLineDrawn parcel [SubdivisionPoint; SubdivisionPoint])
    as (_ & _ & Hmode).
  - reflexivity.
  - reflexivity.
  - vm_compute. reflexivity.
  - split; [vm_compute; reflexivity | exact Hmode].
Defined.

(** The parcel lies over the road: the parcel is selected. *)
Lemma hit_test_priority_witness :
  onHitTest allLayers None parcelOverRoad
  = ParcelSelected (OfCadastre parcelGraphic).
Proof.
  destruct (hit_test_priority allLayers None parcelOverRoad eq_refl)
    as (_ & _ & Hparcel & _).
  apply (Hparcel
           ltac:(intros (graphic & [Hin | [Hin | [Hin | []]]] & Hlayer);
                 [discriminate Hin | injection Hin as <- | injection Hin as <-];
                 discriminate Hlayer)
           ltac:(intros (graphic & [Hin | [Hin | [Hin | []]]] & Hlayer);
                 [discriminate Hin | injection Hin as <- | injection Hin as <-];
                 discriminate Hlayer)
           [None] (OfCadastre parcelGraphic) [Some (OfCadastre roadGraphic)]).
  - reflexivity.
  - repeat constructor.
  - reflexivity.
Defined.

End SubdivisionSessionExamplesFacts.

Section SelectionFacts.
Import Js Geo Cadastral Electrical Rendering Selection.
Local Open Scope list_scope.

Variable ge : GeometryEngine.

Lemma includes_added (served : list jsval) (polygonId : jsval) :
  includes (served ++ [polygonId]) polygonId = true.
Proof.
  unfold includes. rewrite existsb_app. simpl.
  rewrite (proj2 (same_value_zero_eq polygonId polygonId) eq_refl).
  rewrite orb_true_r. reflexivity.
Qed.

(** The node the search returns lists the parcel. *)
Lemma findNearby_serves (pillarsLayer : PillarsLayer)
    (frontageLines : list LineFeature) (polygonGeometry : Geometry)
    (polygonId : jsval) (r r1 : Registry) (ref : nat) :
  wellFormed r ->
  findNearbyConnectionNode ge pillarsLayer frontageLines polygonGeometry polygonId r
  = (r1, Some ref) ->
  serves r1 polygonId ref = true.
Proof.
  intros Hwf Hrun.
  pose proof (findNearby_in_memory ge _ _ _ _ _ _ _ Hwf Hrun) as Hin.
  destruct (findNearby_keeps ge _ _ _ _ _ _ _ Hwf Hrun) as (Hwf1 & _).
  apply (wellFormed_valid r1 ref Hwf1) in Hin.
  apply lookup_lt_is_Some_2 in Hin as [node1 Hnode1].
  revert Hrun. unfold findNearbyConnectionNode.
  destruct (unionFrontageLines frontageLines ge) as [frontageUnion |]; [| discriminate].
  pose proof (scanMemory_find ge r (buffer ge frontageUnion SHARING_THRESHOLD)
                frontageUnion polygonId (electricalNodes r) None None) as Hscan.
  destruct (List.find (activeServing r polygonId) (electricalNodes r))
    as [serving |] eqn:Hfind.
  { rewrite Hscan. intros [= <- <-]. apply find_some in Hfind as [_ Hact].
    unfold activeServing in Hact. apply andb_true_iff in Hact. apply Hact. }
  destruct Hscan as (b & s & -> & _).
  destruct (queryPillars_grows ge pillarsLayer
              (buffer ge frontageUnion SHARING_THRESHOLD) frontageUnion polygonId r
              b s Hwf) as (added & rg & search & -> & Hg & Hsearch).
  destruct search as [node | [best |] s'].
  - intros [= <- <-]. destruct Hsearch as [Hold Hserves].
    unfold serves in *. rewrite (grownBy_old r rg added node Hg); [exact Hserves |].
    apply wellFormed_valid; assumption.
  - destruct (heap rg !! best) as [node |] eqn:Hbest.
    + destruct (includes (properties node) polygonId) eqn:Hinc.
      * intros [= <- <-]. unfold serves. rewrite Hbest. exact Hinc.
      * intros [= <- <-]. unfold serves. rewrite lookup_modify, Hbest.
        destruct (decide (best = best)); [| contradiction]. simpl. apply includes_added.
    + intros [= <- <-]. congruence.
  - discriminate.
Qed.

Lemma removal_layer_empty (polygonId : jsval) (r : Registry) :
  electricalLayer r = Some [] ->
  electricalLayer (fst (removePotentialNodesForProperty polygonId r)) = Some []
  /\ snd (removePotentialNodesForProperty polygonId r) = Ok tt.
Proof.
  intros Hlayer. unfold removePotentialNodesForProperty.
  cbn [withNodes electricalLayer]. rewrite Hlayer.
  destruct (toString polygonId); cbn [existsb fst snd withGraphics withNodes
                                      electricalLayer List.filter];
    split; try reflexivity; exact Hlayer.
Qed.

Lemma removal_keeps_all (polygonId : jsval) (r : Registry) :
  potentialNodes r = [] ->
  electricalNodes (fst (removePotentialNodesForProperty polygonId r)) = electricalNodes r.
Proof.
  intros Hnone. destruct (removePotentialNodesForProperty_registry polygonId r) as [_ ->].
  transitivity (List.filter
                  (fun ref => negb (isPotentialRef r ref && serves r polygonId ref))
                  (electricalNodes r)).
  - apply filter_ext. intros ref. apply keptByRemoval_potentialFor.
  - apply (filter_none_negb
             (fun ref => isPotentialRef r ref && serves r polygonId ref)).
    apply filter_all_false. intros ref Hin.
    rewrite (proj1 (potentialNodes_nil r) Hnone ref Hin). reflexivity.
Qed.

(** An assignment right after the display has been cleared, for frontage
    lines whose end points can be read: it returns a node in memory that
    lists the parcel and holds its centroid. *)
Lemma assignment_on_cleared_display (pillarsLayer : PillarsLayer) (stamp : string)
    (polygonGraphic : PolygonGraphic) (firstFrontage : LineFeature)
    (others : list LineFeature) (r : Registry) :
  wellFormed r ->
  potentialNodes r = [] ->
  electricalLayer r = Some [] ->
  hasEndpoints firstFrontage = true ->
  hasEndpoints (List.last (firstFrontage :: others) firstFrontage) = true ->
  let polygonId := polygonId (polygonAttributes polygonGraphic) in
  let working := ensureWebMercator (GPolygon (polygonGeometry polygonGraphic)) ge in
  exists r1 ref before,
    generateOrFindConnectionNode ge pillarsLayer stamp polygonGraphic
      (firstFrontage :: others) r = (r1, Ok (Some ref))
    /\ electricalLayer r1 = Some []
    /\ In ref (electricalNodes r1)
    /\ heap r1 !! ref = Some (storeCentroid polygonId (centroid ge working) before)
    /\ In polygonId (properties before).
Proof.
  intros Hwf Hnone Hlayer Hfirst Hlast. cbv zeta.
  set (polygonId := polygonId (polygonAttributes polygonGraphic)).
  set (working := ensureWebMercator (GPolygon (polygonGeometry polygonGraphic)) ge).
  pose proof (calculatePotentialNodePositions_outcome ge firstFrontage others working)
    as Hpos. cbv zeta in Hpos. rewrite Hfirst, Hlast in Hpos.
  destruct Hpos as [positions Hpos].
  destruct (generateOrFind_cases ge pillarsLayer stamp polygonGraphic
              (firstFrontage :: others) r)
    as [[[=] _] | [(_ & message & Hthrow & _)
                  | (_ & positions' & r1 & found & _ & Hfind & Hout)]].
  { fold working in Hthrow. congruence. }
  fold working polygonId in Hfind. fold working polygonId in Hout.
  destruct (findNearby_keeps ge _ _ _ _ _ _ _ Hwf Hfind) as (Hwf1 & _ & Hlayer1 & Hnone1).
  rewrite Hlayer in Hlayer1. rewrite Hnone in Hnone1.
  destruct found as [nearbyNode |].
  - cbv zeta in Hout. set (r2 := modify _ nearbyNode r1) in *.
    assert (Hlayer2 : electricalLayer r2 = Some []) by exact Hlayer1.
    assert (Hnone2 : potentialNodes r2 = []).
    { apply potentialNodes_nil. intros ref Hin. unfold r2.
      rewrite isPotentialRef_storeCentroid.
      apply (proj1 (potentialNodes_nil r1) Hnone1). exact Hin. }
    destruct (removal_layer_empty polygonId r2 Hlayer2) as [Hlayer3 Hok].
    rewrite Hok in Hout.
    destruct (removePotentialNodesForProperty_registry polygonId r2) as [Hheap _].
    pose proof (findNearby_in_memory ge _ _ _ _ _ _ _ Hwf Hfind) as Hin.
    pose proof (findNearby_serves _ _ _ _ _ _ _ Hwf Hfind) as Hserves.
    unfold serves in Hserves.
    destruct (heap r1 !! nearbyNode) as [before |] eqn:Hbefore; [| discriminate].
    exists (fst (removePotentialNodesForProperty polygonId r2)), nearbyNode, before.
    split; [exact Hout |]. split; [exact Hlayer3 |].
    split; [rewrite (removal_keeps_all polygonId r2 Hnone2); exact Hin |].
    split; [| apply includes_In, Hserves].
    rewrite Hheap. unfold r2. rewrite lookup_modify, Hbefore.
    destruct (decide (nearbyNode = nearbyNode)); [reflexivity | contradiction].
  - destruct (removal_layer_empty polygonId r1 Hlayer1) as [Hlayerc Hok].
    rewrite Hok in Hout. destruct Hout as (chosen & _ & Hout).
    destruct (removePotentialNodesForProperty_registry polygonId r1) as [Hheap _].
    eexists _, (length (heap r1)), _. split; [exact Hout |].
    split; [exact Hlayerc |].
    split; [cbn [modify pushNew fst electricalNodes]; rewrite Hheap;
            apply in_or_app; right; left; reflexivity |].
    split.
    + rewrite lookup_modify.
      destruct (decide (length (heap r1) = length (heap r1))); [| contradiction].
      unfold pushNew. cbn [fst heap].
      rewrite Hheap, lookup_app_r, Nat.sub_diag by lia. reflexivity.
    + left. reflexivity.
Qed.

End SelectionFacts.

Section SelectedParcelFacts.
Import Js Geo Cadastral Electrical Rendering Selection.
Local Open Scope list_scope.

Variable ge : GeometryEngine.

Lemma strict_eq_truthy (v : jsval) : truthy v = true -> strict_eq v v = true.
Proof.
  destruct v as [| | b | n | | s]; simpl; intros H; try discriminate.
  - apply Bool.eqb_reflx.
  - apply Z.eqb_refl.
  - apply String.eqb_refl.
Qed.

Lemma find_exists {A : Type} (p : A -> bool) (l : list A) (x : A) :
  In x l -> p x = true -> exists y, List.find p l = Some y.
Proof.
  intros Hin Hp. destruct (List.find p l) as [y |] eqn:Hfind; [eauto |].
  rewrite (find_none _ _ Hfind x Hin) in Hp. discriminate.
Qed.

Lemma last_In {A : Type} (l : list A) (d : A) : l <> [] -> In (List.last l d) l.
Proof.
  induction l as [| a [| b rest] IH]; intros Hne; [contradiction | left; reflexivity |].
  right. apply IH. discriminate.
Qed.

Lemma validLine_hasEndpoints (polygonGeometry : Polygon) (line : LineFeature) :
  isValidLine ge polygonGeometry line = true -> hasEndpoints line = true.
Proof.
  unfold isValidLine, hasEndpoints.
  destruct (head (paths (geometry line))) as [[| a rest] |]; try discriminate.
  reflexivity.
Qed.

(** What a refresh leaves on a layer: the graphics that were there except
    the labels, followed by markers and labels, among them the marker of
    the primary node. *)
Lemma updateNodeVisualization_shown (frontageLines : list LineFeature)
    (polygonGeometry : Geometry) (primaryNodeId : jsval) (r : Registry)
    (current : option (list LineFeature)) (graphics : list ElectricalGraphic) :
  frontageLines <> [] ->
  electricalLayer r = Some graphics ->
  exists added,
    electricalLayer
      (fst (updateNodeVisualizationForProperty ge frontageLines polygonGeometry
              primaryNodeId r current))
    = Some (List.filter (fun g => negb (isDistanceLabel g)) graphics ++ added)
    /\ Forall (fun g => isConnectionLine g = false) added
    /\ (forall primaryNode,
           truthy primaryNodeId = true ->
           findById r primaryNodeId = Some primaryNode ->
           exists node,
             nodeId node = primaryNodeId /\ In (nodeGraphicOf node true) added).
Proof.
  intros Hlines Hlayer.
  destruct frontageLines as [| line rest]; [contradiction |].
  destruct (union_of_lines ge line rest) as [frontageUnion Hunion].
  unfold updateNodeVisualizationForProperty. rewrite Hlayer, Hunion.
  rewrite (removeLabels_layer r graphics Hlayer). cbn [fst].
  erewrite renderNearby_fold by reflexivity.
  cbn [withGraphics heap electricalNodes electricalLayer].
  eexists. split; [reflexivity |]. split.
  - apply Forall_forall. intros g Hg. apply list_elem_of_In, in_flat_map in Hg.
    destruct Hg as (ref & _ & Hg). destruct (heap r !! ref) as [node |]; [| destruct Hg].
    destruct Hg as [<- | [<- | []]]; reflexivity.
  - intros primaryNode Htruthy Hfind.
    destruct (withPrimary_has_primary r primaryNodeId
                (nearbyNodes ge (buffer ge frontageUnion SEARCH_RADIUS) r) primaryNode)
      as (ref & Hnear & Hin & Hid).
    { intros x Hx. unfold nearbyNodes in Hx. apply filter_In in Hx. apply Hx. }
    { exact Htruthy. }
    { exact Hfind. }
    unfold hasId in Hid.
    destruct (heap r !! ref) as [node |] eqn:Hnode; [| discriminate].
    exists node. split; [apply strict_eq_eq, Hid |].
    apply in_flat_map. exists ref. split.
    + apply filter_In. split; [exact Hnear |].
      unfold shouldRender. cbn [heap withGraphics]. rewrite Hnode, Htruthy, Hid.
      reflexivity.
    + rewrite Hnode. left. reflexivity.
Qed.

(** X18.  Selecting a parcel whose boundary lines include frontage, with a
    reverse-geocode callback and a metadata panel that can be filled, always
    ends with the parcel connected and its node on display: the assignment
    cannot fail; the node it returns is in memory and lists the parcel; it
    is the only potential node in memory if it is one; every pillar or
    service node that was in memory is still there; the layer shows the
    marker of a node with the returned node's identifier (when that
    identifier is truthy), and the connection line from the node to the
    parcel exactly when the node is a pillar or service node and the
    parcel identifier is truthy. *)
Theorem selected_parcel_shows_its_node (pillarsLayer : PillarsLayer) (stamp : string)
    (panel : bool) (polygonGraphic : PolygonGraphic) (callback : Callback)
    (features : list LineFeature) (s : Selected)
    (graphics : list ElectricalGraphic) :
  wellFormed (registry s) ->
  electricalLayer (registry s) = Some graphics ->
  frontageLines ge (polygonGeometry polygonGraphic) features <> [] ->
  updatePolygonMetadata panel polygonGraphic = Ok tt ->
  let polygonId := polygonId (polygonAttributes polygonGraphic) in
  let s' := highlightCadastralFrontage ge pillarsLayer stamp panel polygonGraphic
              (Some callback) (Ok features) s in
  currentPolygon s' = Some polygonGraphic
  /\ currentFrontageLines s'
     = Some (frontageLines ge (polygonGeometry polygonGraphic) features)
  /\ wellFormed (registry s')
  /\ keepsActiveNodes (registry s) (registry s')
  /\ exists ref node shown,
       In ref (electricalNodes (registry s'))
       /\ heap (registry s') !! ref = Some node
       /\ In polygonId (properties node)
       /\ potentialNodes (registry s') = (if isPotential node then [ref] else [])
       /\ electricalLayer (registry s') = Some shown
       /\ (truthy (nodeId node) = true ->
           exists drawn,
             nodeId drawn = nodeId node /\ In (nodeGraphicOf drawn true) shown)
       /\ (In (ConnectionLine (nodeId node) polygonId) shown
           <-> isPotential node = false /\ truthy polygonId = true).
Proof.
  intros Hwf Hlayer Hfrontage Hpanel. cbv zeta.
  set (polygonId := polygonId (polygonAttributes polygonGraphic)).
  unfold highlightCadastralFrontage. fold polygonId. rewrite Hpanel.
  unfold frontageLines in Hfrontage |- *.
  destruct (validLines ge (polygonGeometry polygonGraphic) features)
    as [| v vs] eqn:Hvalid; [contradiction |].
  remember (List.filter isFrontageLine (v :: vs)) as lines eqn:Hlines.
  cbn [currentPolygon currentFrontageLines registry].
  split; [reflexivity |]. split; [reflexivity |].
  (* the frontage lines can be read *)
  assert (Hends : forall line, In line lines -> hasEndpoints line = true).
  { intros line Hin. rewrite Hlines in Hin. apply filter_In in Hin as [Hin _].
    rewrite <- Hvalid in Hin. unfold validLines in Hin.
    apply filter_In in Hin as [_ Hin].
    apply (validLine_hasEndpoints _ _ Hin). }
  clear Hlines Hvalid.
  destruct lines as [| firstFrontage others]; [contradiction |].
  set (lines := firstFrontage :: others) in *.
  (* the display is cleared *)
  destruct (clearPreviousSelection_registry (registry s)) as (H0 & N0 & L0 & P0).
  set (r0 := clearPreviousSelection (registry s)) in *.
  rewrite Hlayer in L0. simpl in L0.
  assert (Hwf0 : wellFormed r0).
  { apply (wellFormed_same_heap (registry s) r0 H0); [| exact Hwf].
    rewrite N0. intros ref Hin. apply filter_In in Hin. apply Hin. }
  assert (Hk0 : keepsActiveNodes (registry s) r0).
  { apply keepsActiveNodes_same_heap; [exact H0 |].
    intros ref Hin Hact. rewrite N0. apply filter_In.
    split; [exact Hin | rewrite Hact; reflexivity]. }
  (* the assignment *)
  destruct (assignment_on_cleared_display ge pillarsLayer stamp polygonGraphic
              firstFrontage others r0 Hwf0 P0 L0)
    as (r1 & ref & before & Hrun & L1 & Hin1 & Hnode1 & Hserved).
  { apply Hends. left. reflexivity. }
  { apply Hends. apply last_In. discriminate. }
  fold polygonId in Hnode1, Hserved.
  set (working := ensureWebMercator (GPolygon (polygonGeometry polygonGraphic)) ge) in *.
  fold lines in Hrun. rewrite Hrun.
  pose proof (assignment_keeps ge pillarsLayer stamp polygonGraphic
                lines r0 Hwf0) as Hkeep.
  cbv zeta in Hkeep. rewrite Hrun in Hkeep. cbn [fst] in Hkeep.
  destruct Hkeep as [Hwf1 Hk1].
  pose proof (assignment_potentialNodes ge pillarsLayer stamp polygonGraphic
                lines r0 r1 _ Hwf0 P0 Hrun) as P1.
  cbv iota in P1.
  assert (Hpot1 : isPotentialRef r1 ref = isPotential before).
  { unfold isPotentialRef. rewrite Hnode1. reflexivity. }
  rewrite Hpot1 in P1.
  (* the connection line *)
  unfold showAssignedNode.
  pose proof (drawConnectionLines_stored polygonId (centroid ge working) before ref r1
                Hnode1) as Hdraw.
  destruct (drawConnectionLines_registry (Some ref) polygonId r1) as [H2 N2].
  set (r2 := drawConnectionLines (Some ref) polygonId r1) in *.
  assert (L2 : electricalLayer r2
               = Some (if isPotential before || negb (truthy polygonId) then []
                       else [ConnectionLine (nodeId before) polygonId])).
  { rewrite Hdraw. destruct (isPotential before || negb (truthy polygonId));
      [exact L1 |]. rewrite L1. reflexivity. }
  assert (Hprimary : primaryIdOf r2 (Some ref) = nodeId before).
  { unfold primaryIdOf. rewrite H2, Hnode1. reflexivity. }
  rewrite Hprimary.
  (* the refresh *)
  assert (Hne : lines <> []) by discriminate.
  destruct (updateNodeVisualization_shown lines
              (GPolygon (polygonGeometry polygonGraphic)) (nodeId before) r2
              (Some lines) _ Hne L2) as (added & L3 & Hkinds & Hmarker).
  destruct (updateNodeVisualization_registry ge lines
              (GPolygon (polygonGeometry polygonGraphic)) (nodeId before) r2
              (Some lines)) as [H3 N3].
  set (r3 := fst (updateNodeVisualizationForProperty ge lines _ (nodeId before) r2 _))
    in *.
  assert (Hheap : heap r3 = heap r1) by congruence.
  assert (Hnodes : electricalNodes r3 = electricalNodes r1) by congruence.
  split.
  { apply (wellFormed_same_heap r1 r3 Hheap); [| exact Hwf1].
    rewrite Hnodes. apply incl_refl. }
  split.
  { eapply keepsActiveNodes_trans; [exact Hk0 |].
    eapply keepsActiveNodes_trans; [exact Hk1 |].
    apply keepsActiveNodes_same_heap; [exact Hheap |].
    intros x Hx _. rewrite Hnodes. exact Hx. }
  exists ref, (storeCentroid polygonId (centroid ge working) before).
  eexists. split; [rewrite Hnodes; exact Hin1 |].
  split; [rewrite Hheap; exact Hnode1 |].
  split; [exact Hserved |].
  split.
  { unfold potentialNodes. rewrite Hnodes, (potentialNodes_heap r1 r3 _ Hheap).
    exact P1. }
  split; [exact L3 |].
  split.
  - intros Htruthy. cbn [storeCentroid nodeId] in Htruthy |- *.
    destruct (find_exists (hasId r2 (nodeId before)) (electricalNodes r2) ref)
      as [primaryNode Hfind].
    { rewrite N2. exact Hin1. }
    { unfold hasId. rewrite H2, Hnode1. cbn [storeCentroid nodeId].
      apply strict_eq_truthy, Htruthy. }
    destruct (Hmarker primaryNode Htruthy Hfind) as (drawn & Hid & Hshown).
    exists drawn. split; [exact Hid |]. apply in_or_app. right. exact Hshown.
  - cbn [storeCentroid nodeId isPotential]. split.
    + intros Hline. apply in_app_or in Hline as [Hline | Hline].
      * apply filter_In in Hline as [Hline _].
        destruct (isPotential before); [destruct Hline |].
        destruct (truthy polygonId); [split; reflexivity | destruct Hline].
      * rewrite List.Forall_forall in Hkinds. specialize (Hkinds _ Hline).
        discriminate.
    + intros [-> ->]. apply in_or_app. left. simpl. left. reflexivity.
Qed.

(** X19.  The frontage cache outlives a selection that stops early.  After
    a parcel with valid boundary lines has been selected with a
    reverse-geocode callback, its frontage lines are cached, whether or not
    the metadata panel can be filled.  When a second parcel is then selected
    and the line query fails, or returns no valid line, or no callback is
    passed, the second parcel becomes the current polygon while the cached
    frontage lines are still those of the first, and the registry is just
    the reset display.  Selecting a sub-polygon without frontage empties
    the cache instead, provided a callback is passed, its first ring has a
    vertex and the panel can be filled; without a callback it raises a
    TypeError and leaves the cache as it was. *)
Theorem empty_selection_keeps_frontage_cache (pillarsLayer : PillarsLayer)
    (stamp stamp' : string) (panel : bool)
    (firstGraphic secondGraphic : PolygonGraphic) (callback : Callback)
    (secondCallback : option Callback) (features : list LineFeature)
    (queried : Result (list LineFeature)) (s : Selected) :
  validLines ge (polygonGeometry firstGraphic) features <> [] ->
  (secondCallback = None
   \/ forall found, queried = Ok found ->
                    validLines ge (polygonGeometry secondGraphic) found = []) ->
  let s1 := highlightCadastralFrontage ge pillarsLayer stamp panel firstGraphic
              (Some callback) (Ok features) s in
  let s2 := highlightCadastralFrontage ge pillarsLayer stamp' panel secondGraphic
              secondCallback queried s1 in
  currentFrontageLines s1
  = Some (frontageLines ge (polygonGeometry firstGraphic) features)
  /\ currentPolygon s2 = Some secondGraphic
  /\ currentFrontageLines s2
     = Some (frontageLines ge (polygonGeometry firstGraphic) features)
  /\ registry s2 = clearPreviousSelection (registry s1)
  /\ potentialNodes (registry s2) = []
  /\ (forall subCallback vertex ring otherRings,
         rings (polygonGeometry secondGraphic) = (vertex :: ring) :: otherRings ->
         updatePolygonMetadata panel secondGraphic = Ok tt ->
         highlightSubPolygonFrontage ge pillarsLayer stamp' panel secondGraphic
           (Some subCallback) [] s1
         = ({| currentPolygon := Some secondGraphic;
               currentFrontageLines := Some [];
               registry := registry s2 |}, Ok tt))
  /\ highlightSubPolygonFrontage ge pillarsLayer stamp' panel secondGraphic None [] s1
     = ({| currentPolygon := Some secondGraphic;
           currentFrontageLines := currentFrontageLines s1;
           registry := registry s2 |}, Throw "TypeError").
Proof.
  intros Hfirst Hsecond. cbv zeta.
  set (s1 := highlightCadastralFrontage ge pillarsLayer stamp panel firstGraphic
               (Some callback) (Ok features) s).
  assert (Hcache : currentFrontageLines s1
                   = Some (frontageLines ge (polygonGeometry firstGraphic) features)).
  { unfold s1, highlightCadastralFrontage, frontageLines.
    destruct (validLines ge (polygonGeometry firstGraphic) features);
      [contradiction |].
    destruct (updatePolygonMetadata panel firstGraphic); reflexivity. }
  assert (Hstep : highlightCadastralFrontage ge pillarsLayer stamp' panel secondGraphic
                    secondCallback queried s1
                  = {| currentPolygon := Some secondGraphic;
                       currentFrontageLines := currentFrontageLines s1;
                       registry := clearPreviousSelection (registry s1) |}).
  { unfold highlightCadastralFrontage. destruct queried as [found | message];
      [| reflexivity].
    destruct Hsecond as [-> | Hnone].
    - destruct (validLines ge (polygonGeometry secondGraphic) found); reflexivity.
    - rewrite (Hnone found eq_refl). reflexivity. }
  rewrite Hstep. cbn [currentPolygon currentFrontageLines registry].
  destruct (clearPreviousSelection_registry (registry s1)) as (_ & _ & _ & Hnone).
  split; [exact Hcache |]. split; [reflexivity |]. split; [exact Hcache |].
  split; [reflexivity |]. split; [exact Hnone |]. split; [| reflexivity].
  intros subCallback vertex ring otherRings Hrings Hpanel.
  unfold highlightSubPolygonFrontage. rewrite Hrings, Hpanel. reflexivity.
Qed.

End SelectedParcelFacts.

Section SelectionExamplesFacts.
Import Js Geo Cadastral Electrical Rendering Selection Planar ElectricalExamples
  SelectionExamples.
Local Open Scope list_scope.

(** Selecting the parcel next to two pillars: of the two boundary lines
    returned, one is valid frontage; the parcel is connected to a node
    that lists it. *)
Lemma selected_parcel_shows_its_node_witness :
  let s' := highlightCadastralFrontage engine twoPillars "1_a" true parcelGraphic
              (Some reverseGeocode)
              (Ok [southFrontage; CadastralExamples.offsetFrontage])
              nothingSelected in
  currentFrontageLines s' = Some [southFrontage]
  /\ exists ref node shown,
       In ref (electricalNodes (registry s'))
       /\ heap (registry s') !! ref = Some node
       /\ In (JNum 42) (properties node)
       /\ electricalLayer (registry s') = Some shown
       /\ (In (ConnectionLine (nodeId node) (JNum 42)) shown
           <-> isPotential node = false /\ truthy (JNum 42) = true).
Proof.
  cbv zeta.
  destruct (selected_parcel_shows_its_node engine twoPillars "1_a" true parcelGraphic
              reverseGeocode
              [southFrontage; CadastralExamples.offsetFrontage] nothingSelected [])
    as (_ & Hcache & _ & _ & ref & node & shown & Hin & Hnode & Hserved & _
        & Hshown & _ & Hline).
  - constructor.
  - reflexivity.
  - vm_compute. discriminate.
  - vm_compute. reflexivity.
  - split; [vm_compute in Hcache |- *; exact Hcache |].
    exists ref, node, shown.
    split; [exact Hin |]. split; [exact Hnode |]. split; [exact Hserved |].
    split; [exact Hshown | exact Hline].
Defined.

(** The parcel is selected by a click; the same parcel is then found by
    its PIN, which passes no callback: the search leaves the cache as the
    click filled it and the display reset, without a node for the parcel. *)
Lemma empty_selection_keeps_frontage_cache_witness :
  let s1 := highlightCadastralFrontage engine twoPillars "1_a" true parcelGraphic
              (Some reverseGeocode) (Ok [southFrontage]) nothingSelected in
  let s2 := highlightCadastralFrontage engine twoPillars "2_b" true parcelGraphic
              None (Ok [southFrontage]) s1 in
  currentPolygon s2 = Some parcelGraphic
  /\ currentFrontageLines s2 = Some [southFrontage]
  /\ electricalLayer (registry s2) = Some []
  /\ electricalLayer (registry s1) <> Some [].
Proof.
  cbv zeta.
  destruct (empty_selection_keeps_frontage_cache engine twoPillars "1_a" "2_b" true
              parcelGraphic parcelGraphic reverseGeocode None [southFrontage]
              (Ok [southFrontage]) nothingSelected)
    as (_ & Hpolygon & Hcache & Hregistry & _).
  - vm_compute. discriminate.
  - left. reflexivity.
  - split; [exact Hpolygon |].
    split; [vm_compute in Hcache |- *; exact Hcache |].
    split; [rewrite Hregistry; vm_compute; reflexivity |].
    vm_compute. discriminate.
Defined.

End SelectionExamplesFacts.
